(** * Copilot Chat Manager: the indexing and caching engine

  A shallow embedding of [src/services/chatStorageService.ts] (class
  [ChatStorageService]) and of the data model of [models/chatHistory.ts].

  The service is TypeScript: its types are erased at run time, and the
  documents it reads come out of [JSON.parse] unchecked.  The embedding
  therefore works on dynamically typed values ([Js.value]): a property
  access on [null] throws, [||] and [if] test truthiness, [Map] keys are
  compared with SameValueZero, and so on.  Exceptions are explicit
  ([Js.result]); the service state, the file system, the clock and the
  random identifier supply are threaded through a state-and-exception
  monad ([M]).

  Conventions of the model:
  - strings are sequences of 8-bit characters; case mapping acts on the
    ASCII letters;
  - numbers are integers or NaN: the service computes only with lengths,
    counts, sizes in bytes and epoch milliseconds (a modification time
    is compared with [===] alone, so it is an opaque number);
  - built-ins of the runtime that the service calls but does not define
    ([JSON.parse], [JSON.stringify], [Date.parse], [path.join], ...) are
    fields of a [Host] record over which every statement quantifies. *)

From Stdlib Require Import ZArith List String Ascii Bool Lia DecimalString.
From Stdlib Require Import Permutation Sorted.
Import ListNotations.

Set Warnings "-register-all".
Set Implicit Arguments.

Local Open Scope string_scope.
Local Open Scope list_scope.
Local Open Scope Z_scope.

Notation "s1 +++ s2" := (String.append s1 s2)
(at level 60, right associativity).

(* ================================================================== *)
(** * Text: the string operations the service relies on *)
(* ================================================================== *)

Module Text.

Definition code (c : ascii) : N := N_of_ascii c.

Definition is_upper (c : ascii) : bool := ((65 <=? code c) && (code c <=? 90))%N.
Definition is_lower (c : ascii) : bool := ((97 <=? code c) && (code c <=? 122))%N.
Definition is_digit (c : ascii) : bool := ((48 <=? code c) && (code c <=? 57))%N.

(** [\w] of a regular expression: [[A-Za-z0-9_]]. *)
Definition is_word (c : ascii) : bool :=
  is_lower c || is_upper c || is_digit c || Ascii.eqb c "_".

Definition lower_char (c : ascii) : ascii :=
  if is_upper c then ascii_of_N (code c + 32) else c.

(** [String.prototype.toLowerCase] on the letters A to Z. *)
Fixpoint toLowerCase (s : string) : string :=
  match s with
  | EmptyString => EmptyString
  | String c s' => String (lower_char c) (toLowerCase s')
  end.

Fixpoint forallb_str (p : ascii -> bool) (s : string) : bool :=
  match s with
  | EmptyString => true
  | String c s' => p c && forallb_str p s'
  end.

Fixpoint existsb_str (p : ascii -> bool) (s : string) : bool :=
  match s with
  | EmptyString => false
  | String c s' => p c || existsb_str p s'
  end.

(** The longest prefix of [s] whose characters satisfy [p], and the rest. *)
Fixpoint span (p : ascii -> bool) (s : string) : string * string :=
  match s with
  | EmptyString => (EmptyString, EmptyString)
  | String c s' =>
      if p c then let '(a, b) := span p s' in (String c a, b)
      else (EmptyString, s)
  end.

(** Does [p] occur at the start of [s], the letters A to Z compared
    without case?  With [count_from] below this is how the host of the
    examples matches a literal with the flags [gi]; the texts and terms of
    the examples are ASCII. *)
Fixpoint ci_prefix (p s : string) : bool :=
  match p, s with
  | EmptyString, _ => true
  | String _ _, EmptyString => false
  | String a p', String b s' =>
      Ascii.eqb (lower_char a) (lower_char b) && ci_prefix p' s'
  end.

(** The matches of the literal [p] in [s], counted, for the host of the
    examples: the matcher walks [s] from the left; a match at the
    current position is counted and the walk resumes behind it ([skip]
    counts the characters of the match still to step over); an empty
    match advances by one character, so the empty pattern matches at
    every position and at the end. *)
Fixpoint count_from (p : string) (skip : nat) (s : string) : nat :=
  match s with
  | EmptyString =>
      match skip with
      | O => if ci_prefix p EmptyString then 1%nat else 0%nat
      | S _ => 0%nat
      end
  | String _ s' =>
      match skip with
      | S k => count_from p k s'
      | O =>
          if ci_prefix p s
          then S (count_from p (String.length p - 1) s')
          else count_from p 0 s'
      end
  end.

Definition match_count (p content : string) : nat := count_from p 0 content.

(** [s.replace(/^prefix/, '')]. *)
Definition strip_prefix (pre s : string) : string :=
  if String.prefix pre s
  then String.substring (String.length pre) (String.length s - String.length pre) s
  else s.

(** [s.replace(/pat/g, by)] for a literal, non-empty [pat]. *)
Fixpoint replace_from (pat by_ : string) (skip : nat) (s : string) : string :=
  match s with
  | EmptyString => EmptyString
  | String c s' =>
      match skip with
      | S k => replace_from pat by_ k s'
      | O =>
          if String.prefix pat s
          then by_ +++ replace_from pat by_ (String.length pat - 1) s'
          else String c (replace_from pat by_ 0 s')
      end
  end.

Definition replace_all (pat by_ s : string) : string := replace_from pat by_ 0 s.

(** [s.includes(c)] for a single character. *)
Definition includes_char (c : ascii) (s : string) : bool :=
  existsb_str (Ascii.eqb c) s.

(** [s.endsWith(suffix)]. *)
Definition endsWith (s suffix : string) : bool :=
  let n := String.length s in
  let k := String.length suffix in
  (k <=? n)%nat && String.eqb (String.substring (n - k) k s) suffix.

(** Decimal rendering of an integer, as [Number.prototype.toString]. *)
Definition of_Z (z : Z) : string := NilZero.string_of_int (Z.to_int z).

(** The characters of a string, each as a one-character string. *)
Fixpoint chars (s : string) : list string :=
  match s with
  | EmptyString => []
  | String c s' => String c EmptyString :: chars s'
  end.

End Text.

(* ================================================================== *)
(** * Js: dynamically typed values and the operators used on them *)
(* ================================================================== *)

Module Js.

(** A run-time value.  An array carries its elements and, separately,
    the named properties assigned to it; a [Date] carries its time
    value, [None] for an invalid date. *)
Inductive value : Type :=
| VUndefined
| VNull
| VBool (b : bool)
| VNum (n : Z)
| VNaN
| VStr (s : string)
| VDate (t : option Z)
| VArr (elems : list value) (props : list (string * value))
| VObj (fields : list (string * value)).

Inductive exn : Type :=
| TypeError (msg : string)
| SyntaxError (msg : string)
| IOError (msg : string).

Definition message (e : exn) : string :=
  match e with TypeError m | SyntaxError m | IOError m => m end.

Inductive result (A : Type) : Type :=
| Ok (a : A)
| Throw (e : exn).
Arguments Ok {A} a.
Arguments Throw {A} e.

Definition rbind {A B} (r : result A) (k : A -> result B) : result B :=
  match r with Ok a => k a | Throw e => Throw e end.

(** [catch]-to-default: the value of [r], or [d] when it threw. *)
Definition or_else {A} (r : result A) (d : A) : A :=
  match r with Ok a => a | Throw _ => d end.

Definition arr (l : list value) : value := VArr l [].

(** ToBoolean. *)
Definition truthy (v : value) : bool :=
  match v with
  | VUndefined | VNull | VNaN => false
  | VBool b => b
  | VNum n => negb (n =? 0)
  | VStr s => negb (String.eqb s "")
  | VDate _ | VArr _ _ | VObj _ => true
  end.

(** [a || b]. *)
Definition or (a b : value) : value := if truthy a then a else b.

Fixpoint lookup (fs : list (string * value)) (k : string) : value :=
  match fs with
  | [] => VUndefined
  | (k', v) :: fs' => if String.eqb k' k then v else lookup fs' k
  end.

(** Assignment of a property: an existing key keeps its place. *)
Fixpoint assign (fs : list (string * value)) (k : string) (v : value)
  : list (string * value) :=
  match fs with
  | [] => [(k, v)]
  | (k', v') :: fs' =>
      if String.eqb k' k then (k, v) :: fs' else (k', v') :: assign fs' k v
  end.

(** [v.k] for a property name [k] that is not an array index. *)
Definition get (v : value) (k : string) : result value :=
  match v with
  | VUndefined =>
      Throw (TypeError ("Cannot read properties of undefined (reading '" +++ k +++ "')"))
  | VNull =>
      Throw (TypeError ("Cannot read properties of null (reading '" +++ k +++ "')"))
  | VObj fs => Ok (lookup fs k)
  | VArr l ps =>
      if String.eqb k "length" then Ok (VNum (Z.of_nat (List.length l)))
      else Ok (lookup ps k)
  | VStr s =>
      if String.eqb k "length" then Ok (VNum (Z.of_nat (String.length s)))
      else Ok VUndefined
  | VBool _ | VNum _ | VNaN | VDate _ => Ok VUndefined
  end.

(** [v?.k]. *)
Definition get_opt (v : value) (k : string) : value :=
  match v with
  | VUndefined | VNull => VUndefined
  | _ => or_else (get v k) VUndefined
  end.

(** [v.k = x] in strict mode: a property can be created on an object
    or an array, not on a primitive. *)
Definition set (v : value) (k : string) (x : value) : result value :=
  match v with
  | VObj fs => Ok (VObj (assign fs k x))
  | VArr l ps => Ok (VArr l (assign ps k x))
  | VDate t => Ok (VDate t)
  | VUndefined | VNull =>
      Throw (TypeError ("Cannot set properties of null or undefined (setting '" +++ k +++ "')"))
  | VBool _ | VNum _ | VNaN | VStr _ =>
      Throw (TypeError ("Cannot create property '" +++ k +++ "' on a primitive"))
  end.

(** [v[n]] for a number [n]: an element of an array or a character of
    a string when [n] is an index, else the property named by the
    decimal rendering of [n]. *)
Definition key_of_number (n : value) : string :=
  match n with VNum z => Text.of_Z z | _ => "NaN" end.

Definition get_index (v : value) (n : value) : result value :=
  match v, n with
  | VArr l ps, VNum z =>
      if (0 <=? z) && (z <? Z.of_nat (List.length l))
      then Ok (nth (Z.to_nat z) l VUndefined)
      else Ok (lookup ps (Text.of_Z z))
  | VStr s, VNum z =>
      if (0 <=? z) && (z <? Z.of_nat (String.length s))
      then Ok (VStr (String.substring (Z.to_nat z) 1 s))
      else Ok VUndefined
  | _, _ => get v (key_of_number n)
  end.

Definition isArray (v : value) : bool :=
  match v with VArr _ _ => true | _ => false end.

(** SameValueZero, the key equality of [Map].  Two objects are the
    same key only when they are the same object; the keys that reach a
    [Map] here are freshly parsed or freshly computed, so keys that are
    objects never coincide. *)
Definition same_value_zero (a b : value) : bool :=
  match a, b with
  | VUndefined, VUndefined => true
  | VNull, VNull => true
  | VNaN, VNaN => true
  | VBool x, VBool y => Bool.eqb x y
  | VNum x, VNum y => x =? y
  | VStr x, VStr y => String.eqb x y
  | _, _ => false
  end.

(** [x === 0]. *)
Definition is_zero (v : value) : bool :=
  match v with VNum 0 => true | _ => false end.

(** The elements a [for ... of] visits. *)
Definition iterate (v : value) : result (list value) :=
  match v with
  | VArr l _ => Ok l
  | VStr s => Ok (map VStr (Text.chars s))
  | _ => Throw (TypeError "value is not iterable")
  end.

(** The own enumerable properties an object spread [{...v}] copies. *)
Definition index_keys (n : nat) : list string :=
  map (fun i => Text.of_Z (Z.of_nat i)) (seq 0 n).

Definition own_properties (v : value) : list (string * value) :=
  match v with
  | VObj fs => fs
  | VArr l ps => combine (index_keys (List.length l)) l ++ ps
  | VStr s => combine (index_keys (String.length s)) (map VStr (Text.chars s))
  | _ => []
  end.

(** [Object.keys(v)]. *)
Definition keys (v : value) : result (list string) :=
  match v with
  | VUndefined | VNull =>
      Throw (TypeError "Cannot convert undefined or null to object")
  | _ => Ok (map fst (own_properties v))
  end.

End Js.
Export Js.

(* ================================================================== *)
(** * Search and topic engine: the pure parts *)
(* ================================================================== *)

(** The stop-word set of [extractTopicsWithCounts], in source order. *)
Definition stopWords : list string :=
  [
    "the"; "a"; "an"; "and"; "or"; "but"; "in"; "on"; "at"; "to"; "for";
    "of"; "with"; "by"; "from"; "as"; "is"; "was"; "are"; "were"; "been";
    "be"; "have"; "has"; "had"; "do"; "does"; "did"; "will"; "would";
    "could"; "should"; "may"; "might"; "must"; "shall"; "can"; "need";
    "dare"; "ought"; "used"; "it"; "its"; "this"; "that"; "these"; "those";
    "i"; "you"; "he"; "she"; "we"; "they"; "what"; "which"; "who"; "when";
    "where"; "why"; "how"; "all"; "each"; "every"; "both"; "few"; "more";
    "most"; "other"; "some"; "such"; "no"; "nor"; "not"; "only"; "own";
    "same"; "so"; "than"; "too"; "very"; "just"; "also"; "now"; "here";
    "there"; "then"; "once"; "if"; "else"; "elif"; "true"; "false"; "null";
    "undefined"; "var"; "let"; "const"; "use"; "using"; "make"; "like";
    "want"; "know"; "see"; "look"; "think"; "take"; "come"; "go"; "say";
    "said"; "get"; "got"; "put"; "tell"; "about"; "into"; "over"; "after";
    "before"; "between"; "under"; "again"; "further"; "while"; "above";
    "below"; "function"; "return"; "import"; "export"; "class"; "new";
    "try"; "catch"; "throw"; "async"; "await"; "public"; "private";
    "static"; "void"; "string"; "number"; "boolean"; "any"; "type";
    "interface"; "extends"; "implements"; "get"; "set"; "value"; "text";
    "message"; "response"; "request"; "data"; "error"; "result"; "code";
    "file"; "path"; "name"; "id"; "key"; "item"; "list"; "array"; "object";
    "json"; "http"; "https"; "www"; "com"; "org"; "net"; "src"; "dist";
    "lib"; "bin"; "node"; "modules"; "startcolumn"; "endcolumn";
    "startlinenumber"; "endlinenumber"; "linenumber"; "column"; "line";
    "start"; "end"; "index"; "offset"; "length"; "size"; "count"; "source";
    "target"; "origin"; "destination"; "input"; "output"; "param"; "params";
    "arg"; "args"; "option"; "options"; "config"; "setting"; "settings";
    "prop"; "props"; "attr"; "attribute"; "element"; "node"; "parent";
    "child"; "children"; "sibling"; "next"; "prev"; "previous"; "first";
    "last"; "current"; "default"; "base"; "root"; "uri"; "url"; "href";
    "ref"; "refs"; "reference"; "references"; "link"; "links"; "context";
    "scope"; "state"; "store"; "cache"; "buffer"; "stream"; "chunk";
    "content"; "contents"; "body"; "header"; "headers"; "footer"; "title";
    "label"; "description"; "info"; "detail"; "details"; "meta"; "metadata";
    "schema"; "model"; "view"; "controller"; "service"; "provider";
    "factory"; "builder"; "handler"; "listener"; "observer"; "callback";
    "promise"; "resolve"; "reject"; "then"; "done"; "success"; "failure";
    "fail"; "failed"; "complete"; "completed"; "pending"; "loading";
    "loaded"; "ready"; "init"; "initialize"; "setup"; "create"; "update";
    "delete"; "remove"; "add"; "insert"; "append"; "prepend"; "push"; "pop";
    "shift"; "unshift"; "splice"; "slice"; "concat"; "join"; "split"; "map";
    "filter"; "reduce"; "find"; "foreach"; "sort"; "reverse"; "includes";
    "indexof"; "keys"; "values"; "entries"; "has"; "copilot"; "vscode";
    "extension"; "workspace"; "editor"; "document"; "selection"; "range";
    "position"; "character"; "word"; "token"; "symbol"; "definition";
    "declaration"; "implementation"; "usage"; "hover"; "completion";
    "diagnostic"; "repos"; "repo"; "git"; "github"; "commit"; "branch";
    "merge"; "pull"; "push"
  ]%string.

(** [stopWords.has(word)]. *)
Definition stopWords_has (word : string) : bool :=
  existsb (String.eqb word) stopWords.

Definition is_lower_alnum (c : ascii) : bool := Text.is_lower c || Text.is_digit c.

(** Is there a word boundary in front of [rest], given that a word
    character precedes it? *)
Definition boundary_before (rest : string) : bool :=
  match rest with
  | EmptyString => true
  | String c _ => negb (Text.is_word c)
  end.

(** [s.match(/\b[a-z][a-z0-9]{3,}\b/g) || []].  [prev_word] tells whether
    the character before the current position is a word character, and
    [skip] how many characters of the last match remain to be stepped
    over.  A match starts at a lower-case letter that follows no word
    character and takes the whole run of [[a-z0-9]] behind it: the
    closing [\b] cannot hold inside that run, so backtracking to a
    shorter run never succeeds. *)
Fixpoint match_words (skip : nat) (prev_word : bool) (s : string) : list string :=
  match s with
  | EmptyString => []
  | String c s' =>
      match skip with
      | S k => match_words k (Text.is_word c) s'
      | O =>
          if negb prev_word && Text.is_lower c then
            let '(run, rest) := Text.span is_lower_alnum s in
            if (4 <=? String.length run)%nat && boundary_before rest
            then run :: match_words (String.length run - 1) true s'
            else match_words 0 (Text.is_word c) s'
          else match_words 0 (Text.is_word c) s'
      end
  end.

(** [/^[a-z]+\d+$/.test(word)]. *)
Definition letters_then_digits (word : string) : bool :=
  let '(letters, rest) := Text.span Text.is_lower word in
  negb (String.eqb letters "") && negb (String.eqb rest "")
  && Text.forallb_str Text.is_digit rest.

(** [/^\d/.test(word)]. *)
Definition starts_with_digit (word : string) : bool :=
  match word with
  | EmptyString => false
  | String c _ => Text.is_digit c
  end.

(** A [Map<string, number>] of counters, in insertion order.
    [counts_add m word n] is [m.set(word, (m.get(word) || 0) + n)]. *)
Fixpoint counts_add (m : list (string * Z)) (word : string) (n : Z)
  : list (string * Z) :=
  match m with
  | [] => [(word, 0 + n)]
  | (w, c) :: m' =>
      if String.eqb w word then (w, (if c =? 0 then 0 else c) + n) :: m'
      else (w, c) :: counts_add m' word n
  end.

(** [Array.prototype.sort] with the comparator [(a, b) => key(b) - key(a)]:
    the stable arrangement by descending key.  Each element is inserted
    behind the elements whose key is at least its own. *)
Fixpoint insert_desc {A} (key : A -> Z) (x : A) (l : list A) : list A :=
  match l with
  | [] => [x]
  | y :: l' => if key x <=? key y then y :: insert_desc key x l' else x :: l
  end.

Definition sort_desc {A} (key : A -> Z) (l : list A) : list A :=
  fold_left (fun acc x => insert_desc key x acc) l [].

(** [l.slice(0, count)]. *)
Definition slice0 {A} (count : Z) (l : list A) : list A :=
  if count <? 0
  then firstn (Z.to_nat (Z.max (Z.of_nat (List.length l) + count) 0)) l
  else firstn (Z.to_nat count) l.

(** The filter of the counting loop. *)
Definition topic_word (word : string) : bool :=
  negb (stopWords_has word)
  && (4 <=? String.length word)%nat
  && negb (letters_then_digits word)
  && negb (starts_with_digit word)
  && negb (Text.includes_char "_" word).

Definition extractTopicsWithCounts (content : string) (count : Z)
  : list (string * Z) :=
  let words := match_words 0 false (Text.toLowerCase content) in
  let wordCounts :=
    fold_left
      (fun m word => if topic_word word then counts_add m word 1 else m)
      words [] in
  slice0 count (sort_desc snd wordCounts).

(* ================================================================== *)
(** * The host: built-ins of the runtime and the environment *)
(* ================================================================== *)

(** What the service calls and does not define.  [Date_now n] is the
    answer of the clock to the [n]-th query since the start, and
    [random_uuid n] the string that the [n]-th run of the
    [Math.random] template of [generateId] builds.
    [String_toLowerCase] is [String.prototype.toLowerCase], and
    [match_count_gi lit content] the number of matches that
    [content.match(new RegExp(escaped, 'gi'))] returns, 0 when it returns
    [null], where [escaped] is [lit] with a backslash before each of its
    metacharacters: the matches of the literal [lit], letters compared
    without case as the runtime compares them. *)
Record Host : Type := {
  JSON_parse : string -> option value;
  JSON_stringify : value -> string;
  Date_parse : string -> option Z;
  Date_toISOString : Z -> string;
  Date_toString : option Z -> string;
  Number_parse : string -> option Z;
  String_toLowerCase : string -> string;
  match_count_gi : string -> string -> nat;
  Date_now : nat -> Z;
  random_uuid : nat -> string;
  path_join : list string -> string;
  path_basename : string -> string;
  path_basename_ext : string -> string -> string;
  path_dirname : string -> string;
  process_platform : string;
  process_env : string -> option string;
  config_storagePath : string
}.

(** The JSON reading of a value: a date becomes its ISO string (an
    invalid date [null]), NaN and an [undefined] array element [null]; a
    property whose value is [undefined] and the named properties of an
    array are left out.  [iso] is [Date.prototype.toISOString]. *)
Fixpoint jsonify_with (iso : Z -> string) (v : value) : value :=
  match v with
  | VUndefined | VNaN => VNull
  | VDate (Some t) => VStr (iso t)
  | VDate None => VNull
  | VArr l _ => VArr (map (jsonify_with iso) l) []
  | VObj fs =>
      VObj (flat_map (fun '(k, x) => match x with
                                     | VUndefined => []
                                     | _ => [(k, jsonify_with iso x)]
                                     end) fs)
  | VNull | VBool _ | VNum _ | VStr _ => v
  end.

Section Conversions.

Variable h : Host.

(** ToString.  [Array.prototype.join] renders [null] and [undefined]
    elements as the empty string. *)
Fixpoint to_string (v : value) : string :=
  match v with
  | VUndefined => "undefined"
  | VNull => "null"
  | VBool true => "true"
  | VBool false => "false"
  | VNum z => Text.of_Z z
  | VNaN => "NaN"
  | VStr s => s
  | VDate t => Date_toString h t
  | VArr l _ =>
      String.concat ","
        (map (fun x => match x with
                       | VUndefined | VNull => ""
                       | _ => to_string x
                       end) l)
  | VObj _ => "[object Object]"
  end.

(** [l.join(sep)]. *)
Definition join (sep : string) (l : list value) : string :=
  String.concat sep
    (map (fun x => match x with
                   | VUndefined | VNull => ""
                   | _ => to_string x
                   end) l).

(** ToNumber; [None] is NaN. *)
Definition to_number (v : value) : option Z :=
  match v with
  | VUndefined | VNaN => None
  | VNull => Some 0
  | VBool b => Some (if b then 1 else 0)
  | VNum z => Some z
  | VStr s => Number_parse h s
  | VDate t => t
  | VArr _ _ | VObj _ => Number_parse h (to_string v)
  end.

Definition of_number (n : option Z) : value :=
  match n with Some z => VNum z | None => VNaN end.

(** [a - k] and [a * k] for a numeric literal [k]. *)
Definition minus (a : value) (k : Z) : value :=
  of_number (option_map (fun z => z - k) (to_number a)).

Definition times (a : value) (k : Z) : value :=
  of_number (option_map (fun z => z * k) (to_number a)).

(** [a <= k] for a numeric literal [k]. *)
Definition le_number (a : value) (k : Z) : bool :=
  match to_number a with Some z => z <=? k | None => false end.

(** TimeClip. *)
Definition time_clip (z : Z) : option Z :=
  if Z.abs z <=? 8640000000000000 then Some z else None.

(** [new Date(v)]. *)
Definition new_Date (v : value) : value :=
  match v with
  | VDate t => VDate t
  | VStr s => VDate (Date_parse h s)
  | VArr _ _ | VObj _ => VDate (Date_parse h (to_string v))
  | _ => VDate (match to_number v with Some z => time_clip z | None => None end)
  end.

(** The value [JSON.parse] reads back from what [JSON.stringify]
    writes. *)
Definition jsonify (v : value) : value := jsonify_with (Date_toISOString h) v.

End Conversions.

(* ================================================================== *)
(** * Map: insertion-ordered maps *)
(* ================================================================== *)

(** A JavaScript [Map]: entries in the order of first insertion. *)
Definition jsmap (V : Type) : Type := list (value * V).

Fixpoint map_get {V} (m : jsmap V) (k : value) : option V :=
  match m with
  | [] => None
  | (k', v) :: m' => if same_value_zero k' k then Some v else map_get m' k
  end.

Definition map_has {V} (m : jsmap V) (k : value) : bool :=
  match map_get m k with Some _ => true | None => false end.

(** [m.set(k, v)]: an existing key keeps its place. *)
Fixpoint map_set {V} (m : jsmap V) (k : value) (v : V) : jsmap V :=
  match m with
  | [] => [(k, v)]
  | (k', v') :: m' =>
      if same_value_zero k' k then (k', v) :: m'
      else (k', v') :: map_set m' k v
  end.

Definition map_values {V} (m : jsmap V) : list V := map snd m.

(* ================================================================== *)
(** * The world: service state, file system, clock *)
(* ================================================================== *)

(** The constants of the module. *)
Definition MAX_FILE_SIZE_MB : Z := 50.
Definition MAX_FILE_SIZE_BYTES : Z := MAX_FILE_SIZE_MB * 1024 * 1024.
Definition METADATA_READ_BYTES : Z := 4096.
Definition MAX_PARALLEL_READS : nat := 10.
Definition MAX_MESSAGE_PREVIEW_LENGTH : Z := 200.

(** [fs.Stats], the two fields read. *)
Record Stats : Type := { size : Z; mtimeMs : Z }.

(** The file system as the service observes it.  [readdir], [stat] and
    [contents] answer [None] where the call throws. *)
Record Disk : Type := {
  exists_ : string -> bool;
  readdir : string -> option (list string);
  stat : string -> option Stats;
  contents : string -> option string;
  writable : string -> bool
}.

(** Each call into [fs], in the order made. *)
Inductive event : Type :=
| ExistsSync (path : string)
| ReaddirSync (path : string)
| StatSync (path : string)
| OpenRead (path : string)
| ReadFile (path : string)
| WriteFile (path : string).

(** A chat object lives in the heap and is named by its address: the
    index, the staleness cache and the arrays handed to callers share
    it. *)
Definition ref : Type := nat.

(** [interface CachedChatMeta]. *)
Record CachedChatMeta : Type := {
  meta_id : value;
  meta_filePath : string;
  meta_mtime : Z;
  meta_size : Z;
  meta_chat : ref
}.

Record ScanStats : Type := {
  foldersScanned : Z;
  chatsFound : Z;
  errors : Z;
  skippedLarge : Z;
  skippedCached : Z
}.

Definition zero_stats : ScanStats :=
  {| foldersScanned := 0; chatsFound := 0; errors := 0;
     skippedLarge := 0; skippedCached := 0 |}.

(** The fields of [ChatStorageService]. *)
Record Service : Type := {
  cachedChats : jsmap ref;
  chatFilePaths : jsmap string;
  fileMetaCache : jsmap CachedChatMeta;
  _storagePath : string;
  _scanStats : ScanStats;
  _lastScanTime : Z;
  _scanInProgress : bool
}.

(** A service as its field initialisers leave it. *)
Definition new_service : Service :=
  {| cachedChats := []; chatFilePaths := []; fileMetaCache := [];
     _storagePath := ""; _scanStats := zero_stats;
     _lastScanTime := 0; _scanInProgress := false |}.

Record World : Type := {
  disk : Disk;
  heap : list value;
  ticks : nat;
  draws : nat;
  trace : list event;
  globalState : option (list CachedChatMeta);
  service : Service
}.

Definition with_disk (d : Disk) (w : World) : World :=
  {| disk := d; heap := heap w; ticks := ticks w; draws := draws w;
     trace := trace w; globalState := globalState w; service := service w |}.

Definition with_heap (hp : list value) (w : World) : World :=
  {| disk := disk w; heap := hp; ticks := ticks w; draws := draws w;
     trace := trace w; globalState := globalState w; service := service w |}.

Definition with_ticks (n : nat) (w : World) : World :=
  {| disk := disk w; heap := heap w; ticks := n; draws := draws w;
     trace := trace w; globalState := globalState w; service := service w |}.

Definition with_draws (n : nat) (w : World) : World :=
  {| disk := disk w; heap := heap w; ticks := ticks w; draws := n;
     trace := trace w; globalState := globalState w; service := service w |}.

Definition with_trace (t : list event) (w : World) : World :=
  {| disk := disk w; heap := heap w; ticks := ticks w; draws := draws w;
     trace := t; globalState := globalState w; service := service w |}.

Definition with_globalState (g : option (list CachedChatMeta)) (w : World) : World :=
  {| disk := disk w; heap := heap w; ticks := ticks w; draws := draws w;
     trace := trace w; globalState := g; service := service w |}.

Definition with_service (s : Service) (w : World) : World :=
  {| disk := disk w; heap := heap w; ticks := ticks w; draws := draws w;
     trace := trace w; globalState := globalState w; service := s |}.

Definition with_cachedChats (m : jsmap ref) (s : Service) : Service :=
  {| cachedChats := m; chatFilePaths := chatFilePaths s;
     fileMetaCache := fileMetaCache s; _storagePath := _storagePath s;
     _scanStats := _scanStats s; _lastScanTime := _lastScanTime s;
     _scanInProgress := _scanInProgress s |}.

Definition with_chatFilePaths (m : jsmap string) (s : Service) : Service :=
  {| cachedChats := cachedChats s; chatFilePaths := m;
     fileMetaCache := fileMetaCache s; _storagePath := _storagePath s;
     _scanStats := _scanStats s; _lastScanTime := _lastScanTime s;
     _scanInProgress := _scanInProgress s |}.

Definition with_fileMetaCache (m : jsmap CachedChatMeta) (s : Service) : Service :=
  {| cachedChats := cachedChats s; chatFilePaths := chatFilePaths s;
     fileMetaCache := m; _storagePath := _storagePath s;
     _scanStats := _scanStats s; _lastScanTime := _lastScanTime s;
     _scanInProgress := _scanInProgress s |}.

Definition with_storagePath (p : string) (s : Service) : Service :=
  {| cachedChats := cachedChats s; chatFilePaths := chatFilePaths s;
     fileMetaCache := fileMetaCache s; _storagePath := p;
     _scanStats := _scanStats s; _lastScanTime := _lastScanTime s;
     _scanInProgress := _scanInProgress s |}.

Definition with_scanStats (st : ScanStats) (s : Service) : Service :=
  {| cachedChats := cachedChats s; chatFilePaths := chatFilePaths s;
     fileMetaCache := fileMetaCache s; _storagePath := _storagePath s;
     _scanStats := st; _lastScanTime := _lastScanTime s;
     _scanInProgress := _scanInProgress s |}.

Definition with_lastScanTime (t : Z) (s : Service) : Service :=
  {| cachedChats := cachedChats s; chatFilePaths := chatFilePaths s;
     fileMetaCache := fileMetaCache s; _storagePath := _storagePath s;
     _scanStats := _scanStats s; _lastScanTime := t;
     _scanInProgress := _scanInProgress s |}.

Definition with_scanInProgress (b : bool) (s : Service) : Service :=
  {| cachedChats := cachedChats s; chatFilePaths := chatFilePaths s;
     fileMetaCache := fileMetaCache s; _storagePath := _storagePath s;
     _scanStats := _scanStats s; _lastScanTime := _lastScanTime s;
     _scanInProgress := b |}.

(* ================================================================== *)
(** * The monad: state and exceptions *)
(* ================================================================== *)

(** A computation over a state [S] that returns or throws; what it did
    to the state before throwing stays done. *)
Definition ST (S A : Type) : Type := S -> result A * S.

Definition ret {S A} (a : A) : ST S A := fun s => (Ok a, s).

Definition bind {S A B} (m : ST S A) (k : A -> ST S B) : ST S B :=
  fun s => match m s with
           | (Ok a, s') => k a s'
           | (Throw e, s') => (Throw e, s')
           end.

Definition throw {S A} (e : exn) : ST S A := fun s => (Throw e, s).

(** [try { m } catch (e) { handler e }]. *)
Definition try_catch {S A} (m : ST S A) (handler : exn -> ST S A) : ST S A :=
  fun s => match m s with
           | (Ok a, s') => (Ok a, s')
           | (Throw e, s') => handler e s'
           end.

(** [try { m } finally { fin }], for a [fin] that does not throw. *)
Definition try_finally {S A} (m : ST S A) (fin : S -> S) : ST S A :=
  fun s => let '(r, s') := m s in (r, fin s').

Definition lift {S A} (r : result A) : ST S A := fun s => (r, s).

Definition gets {S A} (f : S -> A) : ST S A := fun s => (Ok (f s), s).

Definition modify {S} (f : S -> S) : ST S unit := fun s => (Ok tt, f s).

Notation "x <- m ;; k" := (bind m (fun x => k))
  (at level 61, m at next level, right associativity).
Notation "m ;;; k" := (bind m (fun _ => k))
  (at level 61, right associativity).

Definition M (A : Type) : Type := ST World A.

Definition modify_service (f : Service -> Service) : M unit :=
  modify (fun w => with_service (f (service w)) w).

Definition log (e : event) : M unit :=
  modify (fun w => with_trace (trace w ++ [e]) w).

(* ================================================================== *)
(** * Calls into the runtime *)
(* ================================================================== *)

Section Runtime.

Variable h : Host.

(** [Date.now()]. *)
Definition Date_now_ : M Z :=
  fun w => (Ok (Date_now h (ticks w)), with_ticks (S (ticks w)) w).

(** [generateId()]: the template is filled from [Math.random]. *)
Definition generateId : M string :=
  fun w => (Ok (random_uuid h (draws w)), with_draws (S (draws w)) w).

(** [JSON.parse(text)]. *)
Definition parse (text : string) : M value :=
  match JSON_parse h text with
  | Some v => ret v
  | None => throw (SyntaxError "Unexpected token in JSON")
  end.

Definition existsSync (path : string) : M bool :=
  log (ExistsSync path) ;;; gets (fun w => exists_ (disk w) path).

Definition readdirSync (path : string) : M (list string) :=
  log (ReaddirSync path) ;;;
  r <- gets (fun w => readdir (disk w) path) ;;
  match r with
  | Some names => ret names
  | None => throw (IOError ("ENOTDIR: scandir '" +++ path +++ "'"))
  end.

Definition statSync (path : string) : M Stats :=
  log (StatSync path) ;;;
  r <- gets (fun w => stat (disk w) path) ;;
  match r with
  | Some st => ret st
  | None => throw (IOError ("ENOENT: stat '" +++ path +++ "'"))
  end.

(** [fs.readFileSync(path, 'utf-8')] and [fs.promises.readFile]. *)
Definition readFile (path : string) : M string :=
  log (ReadFile path) ;;;
  r <- gets (fun w => contents (disk w) path) ;;
  match r with
  | Some text => ret text
  | None => throw (IOError ("ENOENT: open '" +++ path +++ "'"))
  end.

(** A buffer of [n] zero bytes over which the first bytes of the file
    are read. *)
Fixpoint zeros (n : nat) : string :=
  match n with
  | O => EmptyString
  | S k => String zero (zeros k)
  end.

Definition fill_buffer (n : nat) (text : string) : string :=
  let got := String.substring 0 n text in
  got +++ zeros (n - String.length got).

(** [openSync], [Buffer.alloc(readSize)], [readSync], [closeSync] and
    [buffer.toString('utf-8')]. *)
Definition readPrefix (path : string) (readSize : Z) : M string :=
  log (OpenRead path) ;;;
  r <- gets (fun w => contents (disk w) path) ;;
  match r with
  | Some text => ret (fill_buffer (Z.to_nat readSize) text)
  | None => throw (IOError ("ENOENT: open '" +++ path +++ "'"))
  end.

(** [fs.promises.writeFile(path, content, 'utf-8')]. *)
Definition writeFile (path content : string) : M unit :=
  log (WriteFile path) ;;;
  ok <- gets (fun w => writable (disk w) path) ;;
  if ok : bool then
    modify (fun w =>
      let d := disk w in
      with_disk
        {| exists_ := fun p => if String.eqb p path then true else exists_ d p;
           readdir := readdir d;
           stat := stat d;
           contents := fun p => if String.eqb p path then Some content
                                else contents d p;
           writable := writable d |} w)
  else throw (IOError ("EACCES: open '" +++ path +++ "'")).

(** Allocation of an object. *)
Definition alloc (v : value) : M ref :=
  fun w => (Ok (List.length (heap w)), with_heap (heap w ++ [v]) w).

Definition deref (r : ref) : M value :=
  gets (fun w => nth r (heap w) VUndefined).

Fixpoint store_at (hp : list value) (r : ref) (v : value) : list value :=
  match hp, r with
  | [], _ => []
  | _ :: hp', O => v :: hp'
  | x :: hp', S r' => x :: store_at hp' r' v
  end.

Definition store (r : ref) (v : value) : M unit :=
  modify (fun w => with_heap (store_at (heap w) r v) w).

(** [process.env.NAME || fallback]. *)
Definition env_or (name fallback : string) : string :=
  match process_env h name with
  | Some v => if String.eqb v "" then fallback else v
  | None => fallback
  end.

Definition getUserDataPath : string :=
  if String.eqb (process_platform h) "win32" then
    match process_env h "APPDATA" with
    | Some appData =>
        if negb (String.eqb appData "")
        then path_join h [appData; "Code"; "User"]
        else path_join h [env_or "USERPROFILE" "C:\Users\Default";
                          "AppData"; "Roaming"; "Code"; "User"]
    | None =>
        path_join h [env_or "USERPROFILE" "C:\Users\Default";
                     "AppData"; "Roaming"; "Code"; "User"]
    end
  else if String.eqb (process_platform h) "darwin" then
    path_join h [env_or "HOME" "/Users/default";
                 "Library"; "Application Support"; "Code"; "User"]
  else
    path_join h [env_or "HOME" "/home/default"; ".config"; "Code"; "User"].

Definition getCopilotChatStoragePath : M string :=
  let customPath := config_storagePath h in
  found <- (if String.eqb customPath "" then ret false
            else existsSync customPath) ;;
  if found : bool then
    modify_service (with_storagePath customPath) ;;;
    ret customPath
  else
    let p := path_join h [getUserDataPath; "workspaceStorage"] in
    modify_service (with_storagePath p) ;;;
    ret p.

Definition getScanStats : M ScanStats :=
  gets (fun w => _scanStats (service w)).

(** [s.replace(...)], a method of strings only. *)
Definition call_replace (v : value) (f : string -> string) : result string :=
  match v with
  | VStr s => Ok (f s)
  | VUndefined | VNull => Throw (TypeError "Cannot read properties of null (reading 'replace')")
  | _ => Throw (TypeError "replace is not a function")
  end.

Definition uri_to_path (s : string) : string :=
  Text.replace_all "%20" " " (Text.strip_prefix "file:///" s).

Definition getWorkspaceName (workspaceId : string) : M string :=
  let fallback :=
    ret ("Workspace " +++ String.substring 0 8 workspaceId) in
  found <- try_catch
    (workspaceStoragePath <- getCopilotChatStoragePath ;;
     let workspaceJsonPath :=
       path_join h [workspaceStoragePath; workspaceId; "workspace.json"] in
     present <- existsSync workspaceJsonPath ;;
     if present : bool then
       text <- readFile workspaceJsonPath ;;
       data <- parse text ;;
       folder <- lift (get data "folder") ;;
       if truthy folder then
         folderPath <- lift (call_replace folder uri_to_path) ;;
         ret (Some (path_basename h folderPath))
       else
         workspace <- lift (get data "workspace") ;;
         if truthy workspace then
           workspacePath <- lift (call_replace workspace uri_to_path) ;;
           ret (Some (path_basename_ext h workspacePath ".code-workspace"))
         else ret None
     else ret None)
    (fun _ => ret None) ;;
  match found with
  | Some name => ret name
  | None => fallback
  end.

Definition bump_errors : M unit :=
  modify_service (fun s =>
    let st := _scanStats s in
    with_scanStats
      {| foldersScanned := foldersScanned st; chatsFound := chatsFound st;
         errors := errors st + 1; skippedLarge := skippedLarge st;
         skippedCached := skippedCached st |} s).

Definition bump_foldersScanned : M unit :=
  modify_service (fun s =>
    let st := _scanStats s in
    with_scanStats
      {| foldersScanned := foldersScanned st + 1; chatsFound := chatsFound st;
         errors := errors st; skippedLarge := skippedLarge st;
         skippedCached := skippedCached st |} s).

Definition bump_skippedLarge : M unit :=
  modify_service (fun s =>
    let st := _scanStats s in
    with_scanStats
      {| foldersScanned := foldersScanned st; chatsFound := chatsFound st;
         errors := errors st; skippedLarge := skippedLarge st + 1;
         skippedCached := skippedCached st |} s).

Definition bump_skippedCached : M unit :=
  modify_service (fun s =>
    let st := _scanStats s in
    with_scanStats
      {| foldersScanned := foldersScanned st; chatsFound := chatsFound st;
         errors := errors st; skippedLarge := skippedLarge st;
         skippedCached := skippedCached st + 1 |} s).

Definition set_chatsFound (n : Z) : M unit :=
  modify_service (fun s =>
    let st := _scanStats s in
    with_scanStats
      {| foldersScanned := foldersScanned st; chatsFound := n;
         errors := errors st; skippedLarge := skippedLarge st;
         skippedCached := skippedCached st |} s).

End Runtime.

(* ================================================================== *)
(** * Metadata extraction, the staleness cache and the scan *)
(* ================================================================== *)

Fixpoint mapM {S A B} (f : A -> ST S B) (l : list A) : ST S (list B) :=
  match l with
  | [] => ret []
  | a :: l' => b <- f a ;; bs <- mapM f l' ;; ret (b :: bs)
  end.

Section Scan.

Variable h : Host.

(** [text.substring(0, n)], a method of strings only. *)
Definition call_substring (text : value) (n : Z) : result string :=
  match text with
  | VStr s => Ok (String.substring 0 (Z.to_nat n) s)
  | _ => Throw (TypeError "text.substring is not a function")
  end.

Definition truncateText (text : value) (maxLength : Z) : result value :=
  if negb (truthy text) then Ok (VStr "")
  else
    rbind (get text "length") (fun len =>
    if le_number h len maxLength then Ok text
    else rbind (call_substring text maxLength) (fun s =>
         Ok (VStr (s +++ "...")))).

(** [v || Date.now()]: the clock is asked only when [v] is falsy. *)
Definition or_now (v : value) : M value :=
  if truthy v then ret v else (n <- Date_now_ h ;; ret (VNum n)).

(** One file to process: [{ filePath, workspaceId, stats }]. *)
Record Candidate : Type := {
  filePath : string;
  workspaceId : string;
  stats : Stats
}.

Definition parseMetadataFast (filePath workspaceId : string) (fileSize : Z)
  : M (option ref) :=
  try_catch
    (let readSize := Z.min fileSize (METADATA_READ_BYTES * 4) in
     content <- readPrefix filePath readSize ;;
     data <- try_catch (parse h content)
               (fun _ => full <- readFile filePath ;; parse h full) ;;
     requests <- lift (get data "requests") ;;
     if negb (truthy requests) then ret None
     else
       len <- lift (get requests "length") ;;
       if is_zero len then ret None
       else
         workspaceName <- getWorkspaceName h workspaceId ;;
         let requestCount := len in
         firstRequest <- lift (get_index requests (VNum 0)) ;;
         lastRequest <- lift (get_index requests (minus h requestCount 1)) ;;
         firstMessage <- lift (truncateText
           (or (get_opt (get_opt firstRequest "message") "text") (VStr ""))
           MAX_MESSAGE_PREVIEW_LENGTH) ;;
         lastMessage <- lift (truncateText
           (or (get_opt (get_opt lastRequest "message") "text") (VStr ""))
           MAX_MESSAGE_PREVIEW_LENGTH) ;;
         selectedModel <- lift (get data "selectedModel") ;;
         let modelInfo :=
           or (get_opt (get_opt selectedModel "metadata") "name")
              (VStr "Unknown") in
         sessionId <- lift (get data "sessionId") ;;
         creationDate <- lift (get data "creationDate") ;;
         created <- or_now creationDate ;;
         lastMessageDate <- lift (get data "lastMessageDate") ;;
         updated <- or_now lastMessageDate ;;
         chat <- alloc (VObj
           [ ("id", or sessionId (VStr (path_basename_ext h filePath ".json")));
             ("workspacePath", VStr workspaceId);
             ("workspaceName", VStr workspaceName);
             ("createdAt", new_Date h created);
             ("updatedAt", new_Date h updated);
             ("firstMessage", firstMessage);
             ("lastMessage", lastMessage);
             ("messageCount", times h requestCount 2);
             ("fileSize", VNum fileSize);
             ("messages", arr []);
             ("tags", arr [modelInfo]);
             ("attachedProject", VNull) ]) ;;
         ret (Some chat))
    (fun _ => bump_errors ;;; ret None).

(** [processFileFast] is an [async] function with one [await].  What
    it does up to the [await] is [processFileFast_begin]: a cache hit
    returns at once, a miss runs [parseMetadataFast] (which has no
    [await] of its own) and suspends on its result.  What it does on
    resumption is [processFileFast_resume]. *)
Inductive suspended : Type :=
| Returned (chat : ref)
| Awaiting (chat : option ref).

Definition processFileFast_begin (c : Candidate) : M suspended :=
  cached <- gets (fun w => map_get (fileMetaCache (service w)) (VStr (filePath c))) ;;
  let miss :=
    chat <- parseMetadataFast (filePath c) (workspaceId c) (size (stats c)) ;;
    ret (Awaiting chat) in
  match cached with
  | Some m =>
      if (meta_mtime m =? mtimeMs (stats c)) && (meta_size m =? size (stats c))
      then
        bump_skippedCached ;;;
        chat <- deref (meta_chat m) ;;
        id <- lift (get chat "id") ;;
        modify_service (fun s =>
          with_chatFilePaths (map_set (chatFilePaths s) id (filePath c)) s) ;;;
        ret (Returned (meta_chat m))
      else miss
  | None => miss
  end.

Definition processFileFast_resume (c : Candidate) (p : suspended)
  : M (option ref) :=
  match p with
  | Returned chat => ret (Some chat)
  | Awaiting None => ret None
  | Awaiting (Some chat) =>
      v <- deref chat ;;
      id <- lift (get v "id") ;;
      modify_service (fun s =>
        with_fileMetaCache
          (map_set (fileMetaCache s) (VStr (filePath c))
             {| meta_id := id; meta_filePath := filePath c;
                meta_mtime := mtimeMs (stats c); meta_size := size (stats c);
                meta_chat := chat |}) s) ;;;
      id' <- lift (get v "id") ;;
      modify_service (fun s =>
        with_chatFilePaths (map_set (chatFilePaths s) id' (filePath c)) s) ;;;
      ret (Some chat)
  end.

(** One call of [processFileFast] run to its end with nothing in
    between. *)
Definition processFileFast (c : Candidate) : M (option ref) :=
  p <- processFileFast_begin c ;;
  processFileFast_resume c p.

(** [Promise.all(batch.map(processFileFast))]: [map] starts every call
    in turn, each running up to its [await]; the suspended calls then
    resume in the order in which they were started. *)
Definition processBatch (batch : list Candidate) : M (list (option ref)) :=
  started <- mapM processFileFast_begin batch ;;
  mapM (fun '(c, p) => processFileFast_resume c p) (combine batch started).

Definition non_null (results : list (option ref)) : list ref :=
  flat_map (fun r => match r with Some c => [c] | None => [] end) results.

(** The loop over the batches; [fuel] bounds the number of batches. *)
Fixpoint processBatches (fuel : nat) (files : list Candidate) (chats : list ref)
  : M (list ref) :=
  match fuel, files with
  | O, _ => ret chats
  | _, [] => ret chats
  | S n, _ =>
      results <- processBatch (firstn MAX_PARALLEL_READS files) ;;
      processBatches n (skipn MAX_PARALLEL_READS files)
        (chats ++ non_null results)
  end.

Definition getAllChats : M (list ref) :=
  gets (fun w => map_values (cachedChats (service w))).

Definition saveIndexToStorage : M unit :=
  modify (fun w =>
    with_globalState (Some (map_values (fileMetaCache (service w)))) w).

(** The inner loop of the discovery: the files of one [chatSessions]
    directory. *)
Fixpoint collectFiles (chatSessionsPath workspaceDir : string)
  (files : list string) (filesToProcess : list Candidate)
  : M (list Candidate) :=
  match files with
  | [] => ret filesToProcess
  | file :: rest =>
      if negb (Text.endsWith file ".json")
      then collectFiles chatSessionsPath workspaceDir rest filesToProcess
      else
        let filePath := path_join h [chatSessionsPath; file] in
        st <- statSync filePath ;;
        if size st >? MAX_FILE_SIZE_BYTES then
          bump_skippedLarge ;;;
          collectFiles chatSessionsPath workspaceDir rest filesToProcess
        else
          collectFiles chatSessionsPath workspaceDir rest
            (filesToProcess ++
             [{| filePath := filePath; workspaceId := workspaceDir; stats := st |}])
  end.

(** The outer loop: the sub-directories of the storage root. *)
Fixpoint collectDirs (workspaceStoragePath : string)
  (workspaceDirs : list string) (filesToProcess : list Candidate)
  : M (list Candidate) :=
  match workspaceDirs with
  | [] => ret filesToProcess
  | workspaceDir :: rest =>
      let chatSessionsPath :=
        path_join h [workspaceStoragePath; workspaceDir; "chatSessions"] in
      present <- existsSync chatSessionsPath ;;
      if negb present then collectDirs workspaceStoragePath rest filesToProcess
      else
        bump_foldersScanned ;;;
        files <- readdirSync chatSessionsPath ;;
        found <- collectFiles chatSessionsPath workspaceDir files filesToProcess ;;
        collectDirs workspaceStoragePath rest found
  end.

(** [for (const chat of chats) this.cachedChats.set(chat.id, chat)]. *)
Fixpoint indexChats (chats : list ref) : M unit :=
  match chats with
  | [] => ret tt
  | chat :: rest =>
      v <- deref chat ;;
      id <- lift (get v "id") ;;
      modify_service (fun s =>
        with_cachedChats (map_set (cachedChats s) id chat) s) ;;;
      indexChats rest
  end.

(** The [try] block of [scanAllChatHistories]. *)
Definition scanAttempt (workspaceStoragePath : string) : M (list ref) :=
  present <- existsSync workspaceStoragePath ;;
  if negb present then ret []
  else
    workspaceDirs <- readdirSync workspaceStoragePath ;;
    filesToProcess <- collectDirs workspaceStoragePath workspaceDirs [] ;;
    chats <- processBatches (List.length filesToProcess) filesToProcess [] ;;
    modify_service (with_cachedChats []) ;;;
    indexChats chats ;;;
    set_chatsFound (Z.of_nat (List.length chats)) ;;;
    finished <- Date_now_ h ;;
    modify_service (with_lastScanTime finished) ;;;
    saveIndexToStorage ;;;
    ended <- Date_now_ h ;;
    ret chats.

(** The [try] block with its [catch] and its [finally]. *)
Definition scanPass (workspaceStoragePath : string) : M (list ref) :=
  try_finally
    (try_catch
       (scanAttempt workspaceStoragePath)
       (fun _ => bump_errors ;;; getAllChats))
    (fun w => with_service (with_scanInProgress false (service w)) w).

Definition scanAllChatHistories (forceRefresh : bool) : M (list ref) :=
  busy <- gets (fun w => _scanInProgress (service w)) ;;
  if busy : bool then getAllChats
  else
    now <- Date_now_ h ;;
    last <- gets (fun w => _lastScanTime (service w)) ;;
    count <- gets (fun w => List.length (cachedChats (service w))) ;;
    let cacheAge := now - last in
    if negb forceRefresh && (cacheAge <? 30000) && (0 <? count)%nat
    then getAllChats
    else
      modify_service (with_scanInProgress true) ;;;
      startTime <- Date_now_ h ;;
      workspaceStoragePath <- getCopilotChatStoragePath h ;;
      modify_service (with_scanStats zero_stats) ;;;
      scanPass workspaceStoragePath.

End Scan.

(* ================================================================== *)
(** * Full-content loading *)
(* ================================================================== *)

Section Loader.

Variable h : Host.

(** [part.value || part.text || '']. *)
Definition part_text (part : value) : result value :=
  rbind (get part "value") (fun v =>
  if truthy v then Ok v
  else rbind (get part "text") (fun t =>
       Ok (or t (VStr "")))).

Fixpoint map_result {A B} (f : A -> result B) (l : list A) : result (list B) :=
  match l with
  | [] => Ok []
  | a :: l' =>
      rbind (f a) (fun b => rbind (map_result f l') (fun bs => Ok (b :: bs)))
  end.

(** The four shapes of a response, probed in this order. *)
Definition direct_value (request : value) : result value :=
  rbind (get request "response") (fun response =>
  Ok (get_opt response "value")).

Definition nested_result_value (request : value) : result value :=
  rbind (get request "response") (fun response =>
  Ok (get_opt (get_opt response "result") "value")).

Definition alternate_result_value (request : value) : result value :=
  rbind (get request "result") (fun res =>
  Ok (get_opt res "value")).

Definition content_parts (request : value) : result value :=
  rbind (get request "response") (fun response =>
  Ok (get_opt (get_opt response "result") "content")).

Definition extractResponseText (request : value) : result value :=
  rbind (direct_value request) (fun v1 =>
  if truthy v1 then Ok v1 else
  rbind (nested_result_value request) (fun v2 =>
  if truthy v2 then Ok v2 else
  rbind (alternate_result_value request) (fun v3 =>
  if truthy v3 then Ok v3 else
  rbind (content_parts request) (fun content =>
  if truthy content then
    match content with
    | VArr parts _ =>
        rbind (map_result part_text parts) (fun texts =>
        Ok (VStr (join h (String (ascii_of_N 10) EmptyString) texts)))
    | _ => Ok content
    end
  else Ok (VStr ""))))).

(** [interface ChatMessage] as an object literal. *)
Definition message_object (id : string) (role : string) (content timestamp : value)
  : value :=
  VObj [ ("id", VStr id); ("role", VStr role);
         ("content", content); ("timestamp", timestamp) ].

(** The body of the loop over the requests: the messages one turn
    contributes. *)
Definition turnMessages (data request : value) : M (list value) :=
  message <- lift (get request "message") ;;
  let text := get_opt message "text" in
  user <-
    (if truthy text then
       id <- generateId h ;;
       content <- lift (rbind (get request "message") (fun m => get m "text")) ;;
       stamp <- lift (rbind (get request "message") (fun m => get m "timestamp")) ;;
       creationDate <- (if truthy stamp then ret VUndefined
                        else lift (get data "creationDate")) ;;
       t <- (if truthy stamp then ret stamp else or_now h creationDate) ;;
       ret [message_object id "user" content (new_Date h t)]
     else ret []) ;;
  responseText <- lift (extractResponseText request) ;;
  assistant <-
    (if truthy responseText then
       id <- generateId h ;;
       completed <- lift (get request "responseCompleteDate") ;;
       lastMessageDate <- (if truthy completed then ret VUndefined
                           else lift (get data "lastMessageDate")) ;;
       t <- (if truthy completed then ret completed else or_now h lastMessageDate) ;;
       ret [message_object id "assistant" responseText (new_Date h t)]
     else ret []) ;;
  ret (user ++ assistant).

(** [for (const request of requests) { ... }], the messages in order. *)
Fixpoint collectMessages (data : value) (requests : list value) : M (list value) :=
  match requests with
  | [] => ret []
  | request :: rest =>
      ms <- turnMessages data request ;;
      more <- collectMessages data rest ;;
      ret (ms ++ more)
  end.

Definition loadFullChat (chatId : value) : M (option ref) :=
  known <- gets (fun w => map_get (chatFilePaths (service w)) chatId) ;;
  let no_path := gets (fun w => map_get (cachedChats (service w)) chatId) in
  match known with
  | None => no_path
  | Some filePath =>
      if String.eqb filePath "" then no_path
      else
        try_catch
          (content <- readFile filePath ;;
           data <- parse h content ;;
           requests <- lift (get data "requests") ;;
           turns <- lift (iterate (or requests (arr []))) ;;
           messages <- collectMessages data turns ;;
           found <- gets (fun w => map_get (cachedChats (service w)) chatId) ;;
           match found with
           | Some chat =>
               v <- deref chat ;;
               v1 <- lift (set v "messages" (arr messages)) ;;
               v2 <- lift (set v1 "messageCount"
                             (VNum (Z.of_nat (List.length messages)))) ;;
               store chat v2 ;;;
               ret (Some chat)
           | None => ret None
           end)
          (fun _ => ret None)
  end.

(** [reloadChatFromDisk]. *)
Definition reloadChatFromDisk (id : value) : M (option ref) :=
  cachedChat <- gets (fun w => map_get (cachedChats (service w)) id) ;;
  match cachedChat with
  | Some chat =>
      v <- deref chat ;;
      v1 <- lift (set v "messages" (arr [])) ;;
      store chat v1
  | None => ret tt
  end ;;;
  loadFullChat id.

Definition getChatById (id : value) : M (option ref) :=
  gets (fun w => map_get (cachedChats (service w)) id).

Definition getChatFilePath (chatId : value) : M (option string) :=
  gets (fun w => map_get (chatFilePaths (service w)) chatId).

End Loader.

(* ================================================================== *)
(** * The typed data model of models/chatHistory.ts *)
(* ================================================================== *)

(** [role: 'user' | 'assistant']. *)
Inductive role : Type := role_user | role_assistant.

Definition role_name (r : role) : string :=
  match r with role_user => "user" | role_assistant => "assistant" end.

(** [interface ChatMessage]; a [Date] is its time value. *)
Record ChatMessage : Type := {
  msg_id : string;
  msg_role : role;
  msg_content : string;
  msg_timestamp : option Z
}.

(** [interface ChatHistory]. *)
Record ChatHistory : Type := {
  ch_id : string;
  ch_workspacePath : string;
  ch_workspaceName : string;
  ch_createdAt : option Z;
  ch_updatedAt : option Z;
  ch_firstMessage : string;
  ch_lastMessage : string;
  ch_messageCount : Z;
  ch_fileSize : Z;
  ch_messages : list ChatMessage;
  ch_tags : list string;
  ch_attachedProject : option string
}.

(** The objects that inhabit the two interfaces. *)
Definition message_value (m : ChatMessage) : value :=
  VObj [ ("id", VStr (msg_id m));
         ("role", VStr (role_name (msg_role m)));
         ("content", VStr (msg_content m));
         ("timestamp", VDate (msg_timestamp m)) ].

Definition chat_value (c : ChatHistory) : value :=
  VObj [ ("id", VStr (ch_id c));
         ("workspacePath", VStr (ch_workspacePath c));
         ("workspaceName", VStr (ch_workspaceName c));
         ("createdAt", VDate (ch_createdAt c));
         ("updatedAt", VDate (ch_updatedAt c));
         ("firstMessage", VStr (ch_firstMessage c));
         ("lastMessage", VStr (ch_lastMessage c));
         ("messageCount", VNum (ch_messageCount c));
         ("fileSize", VNum (ch_fileSize c));
         ("messages", arr (map message_value (ch_messages c)));
         ("tags", arr (map VStr (ch_tags c)));
         ("attachedProject",
           match ch_attachedProject c with
           | Some p => VStr p
           | None => VNull
           end) ].

(** [interface ChatExport]: the envelope [exportChats] serialises. *)
Definition envelope (exportedAt : option Z) (chats : list value) : value :=
  VObj [ ("version", VStr "1.0");
         ("exportedAt", VDate exportedAt);
         ("sourceExtension", VStr "copilot-chat-manager");
         ("chats", arr chats) ].

(* ================================================================== *)
(** * Export and import *)
(* ================================================================== *)

(** [interface ImportResult]; [import_errors] is its field [errors]. *)
Record ImportResult : Type := {
  success : bool;
  importedCount : Z;
  skippedCount : Z;
  import_errors : list string
}.

Definition initial_result : ImportResult :=
  {| success := false; importedCount := 0; skippedCount := 0; import_errors := [] |}.

(** [importChats] mutates its local [result] while it works on the
    service, and what it has recorded stays when an exception unwinds:
    its body runs over the pair of the two. *)
Definition ImportM (A : Type) : Type := ST (World * ImportResult) A.

Definition liftW {A} (m : M A) : ImportM A :=
  fun '(w, r) => let '(x, w') := m w in (x, (w', r)).

Definition count_skipped : ImportM unit :=
  modify (fun '(w, r) =>
    (w, {| success := success r; importedCount := importedCount r;
           skippedCount := skippedCount r + 1; import_errors := import_errors r |})).

Definition count_imported : ImportM unit :=
  modify (fun '(w, r) =>
    (w, {| success := success r; importedCount := importedCount r + 1;
           skippedCount := skippedCount r; import_errors := import_errors r |})).

Definition push_error (msg : string) : ImportM unit :=
  modify (fun '(w, r) =>
    (w, {| success := success r; importedCount := importedCount r;
           skippedCount := skippedCount r;
           import_errors := import_errors r ++ [msg] |})).

(** [result.success = result.importedCount > 0 || result.skippedCount > 0]. *)
Definition set_success : ImportM unit :=
  modify (fun '(w, r) =>
    (w, {| success := (0 <? importedCount r) || (0 <? skippedCount r);
           importedCount := importedCount r;
           skippedCount := skippedCount r; import_errors := import_errors r |})).

Section Reconciler.

Variable h : Host.

(** The [json] (and default) case of [exportChats]: the envelope is
    built, serialised and written.  [chats] are the chat objects as they
    are when the call is made. *)
Definition exportChats_json (chats : list value) (outputPath : string) : M unit :=
  now <- Date_now_ h ;;
  let exportData := envelope (time_clip now) chats in
  let content := JSON_stringify h exportData in
  writeFile outputPath content.

(** [({ ...m, timestamp: new Date(m.timestamp) })]. *)
Definition revive_message (m : value) : result value :=
  let copied := own_properties m in
  rbind (get m "timestamp") (fun t =>
  Ok (VObj (assign copied "timestamp" (new_Date h t)))).

(** [v.map(f)], a method of arrays only. *)
Definition call_map (v : value) (f : value -> result value) : result value :=
  match v with
  | VArr l _ => rbind (map_result f l) (fun l' => Ok (arr l'))
  | VUndefined | VNull =>
      Throw (TypeError "Cannot read properties of null (reading 'map')")
  | _ => Throw (TypeError "map is not a function")
  end.

(** The dates of a parsed chat turned back from strings; [messages] is
    [chat.messages || []] in the loop over [data.chats] and
    [data.messages] for a single chat. *)
Definition revive_chat (chat : value) (default_messages : bool) : result value :=
  rbind (get chat "createdAt") (fun createdAt =>
  rbind (set chat "createdAt" (new_Date h createdAt)) (fun chat1 =>
  rbind (get chat1 "updatedAt") (fun updatedAt =>
  rbind (set chat1 "updatedAt" (new_Date h updatedAt)) (fun chat2 =>
  rbind (get chat2 "messages") (fun messages =>
  rbind (call_map (if default_messages then or messages (arr []) else messages)
           revive_message) (fun revived =>
  set chat2 "messages" revived)))))).

(** [this.cachedChats.set(chat.id, chat)] for a chat that is not yet in
    the heap. *)
Definition index_new (chat : value) : M ref :=
  id <- lift (get chat "id") ;;
  r <- alloc chat ;;
  modify_service (fun s => with_cachedChats (map_set (cachedChats s) id r) s) ;;;
  ret r.

Definition cachedChats_has (id : value) : M bool :=
  gets (fun w => map_has (cachedChats (service w)) id).

(** One entry of [data.chats], with its own [try]/[catch]. *)
Definition importEntry (chat : value) : ImportM unit :=
  try_catch
    (id <- lift (get chat "id") ;;
     present <- liftW (cachedChats_has id) ;;
     if present : bool then count_skipped
     else
       revived <- lift (revive_chat chat true) ;;
       liftW (index_new revived) ;;;
       count_imported)
    (fun chatError =>
       id <- lift (get chat "id") ;;
       push_error ("Error importing chat " +++ to_string h id +++ ": "
                   +++ message chatError)).

Fixpoint importEntries (chats : list value) : ImportM unit :=
  match chats with
  | [] => ret tt
  | chat :: rest => importEntry chat ;;; importEntries rest
  end.

Definition convertNativeCopilotChat (data : value) (filePath : string)
  : M (option value) :=
  try_catch
    (requests <- lift (get data "requests") ;;
     if negb (truthy requests) then ret None
     else
       len <- lift (get requests "length") ;;
       if is_zero len then ret None
       else
         turns <- lift (iterate requests) ;;
         messages <- collectMessages h data turns ;;
         let workspaceName :=
           path_basename h (path_dirname h (path_dirname h filePath)) in
         firstRequest <- lift (get_index requests (VNum 0)) ;;
         firstMessage <- lift (truncateText h
           (or (get_opt (get_opt firstRequest "message") "text") (VStr ""))
           MAX_MESSAGE_PREVIEW_LENGTH) ;;
         lastRequest <- lift (get_index requests (minus h len 1)) ;;
         lastMessage <- lift (truncateText h
           (or (get_opt (get_opt lastRequest "message") "text") (VStr ""))
           MAX_MESSAGE_PREVIEW_LENGTH) ;;
         sessionId <- lift (get data "sessionId") ;;
         creationDate <- lift (get data "creationDate") ;;
         created <- or_now h creationDate ;;
         lastMessageDate <- lift (get data "lastMessageDate") ;;
         updated <- or_now h lastMessageDate ;;
         selectedModel <- lift (get data "selectedModel") ;;
         ret (Some (VObj
           [ ("id", or sessionId (VStr (path_basename_ext h filePath ".json")));
             ("workspacePath", VStr (path_dirname h (path_dirname h filePath)));
             ("workspaceName",
               VStr (if String.eqb workspaceName "" then "Imported"
                     else workspaceName));
             ("createdAt", new_Date h created);
             ("updatedAt", new_Date h updated);
             ("firstMessage", firstMessage);
             ("lastMessage", lastMessage);
             ("messageCount", VNum (Z.of_nat (List.length messages)));
             ("fileSize", VNum 0);
             ("messages", arr messages);
             ("tags", arr [or (get_opt (get_opt selectedModel "metadata") "name")
                              (VStr "Unknown")]);
             ("attachedProject", VNull) ])))
    (fun _ => ret None).

(** The [try] block of [importChats]; [true] when it ran to its end,
    [false] when it left through the [return] of the last branch. *)
Definition importDocument (filePath : string) : ImportM bool :=
  content <- liftW (readFile filePath) ;;
  data <- liftW (parse h content) ;;
  chats <- lift (get data "chats") ;;
  if truthy chats && isArray chats then
    entries <- lift (iterate chats) ;;
    importEntries entries ;;;
    ret true
  else
    id <- lift (get data "id") ;;
    messages <- lift (get data "messages") ;;
    if truthy id && truthy messages && isArray messages then
      present <- liftW (cachedChats_has id) ;;
      (if present : bool then count_skipped
       else
         revived <- lift (revive_chat data false) ;;
         liftW (index_new revived) ;;;
         count_imported) ;;;
      ret true
    else
      sessionId <- lift (get data "sessionId") ;;
      requests <- lift (get data "requests") ;;
      if truthy sessionId && truthy requests then
        converted <- liftW (convertNativeCopilotChat data filePath) ;;
        match converted with
        | Some chat =>
            id' <- lift (get chat "id") ;;
            present <- liftW (cachedChats_has id') ;;
            if present : bool then count_skipped
            else
              liftW (index_new chat) ;;;
              liftW (modify_service (fun s =>
                with_chatFilePaths (map_set (chatFilePaths s) id' filePath) s)) ;;;
              count_imported
        | None => push_error "Could not parse native Copilot chat format"
        end ;;;
        ret true
      else
        names <- lift (keys data) ;;
        push_error
          ("Invalid chat session data - not a recognized format. Found keys: "
           +++ String.concat ", " names) ;;;
        ret false.

Definition importChats (filePath : string) : M ImportResult :=
  fun w =>
    let '(_, (w', r)) :=
      try_catch
        (finished <- importDocument filePath ;;
         if finished : bool then set_success else ret tt)
        (fun error => push_error ("Parse error: " +++ message error))
        (w, initial_result) in
    (Ok r, w').

End Reconciler.

(* ================================================================== *)
(** * Deep search *)
(* ================================================================== *)

(** [mode: 'any' | 'all' | 'exact']. *)
Inductive mode : Type := mode_any | mode_all | mode_exact.

(** One element of the array [deepSearch] returns. *)
Record SearchResult : Type := {
  sr_chat : ref;
  sr_wordCounts : list (string * Z);
  sr_totalMatches : Z;
  sr_filePath : string
}.

(** [wordCounts.set(term, count)] on a [Map<string, number>]. *)
Fixpoint counts_set (m : list (string * Z)) (term : string) (count : Z)
  : list (string * Z) :=
  match m with
  | [] => [(term, count)]
  | (t, c) :: m' =>
      if String.eqb t term then (t, count) :: m'
      else (t, c) :: counts_set m' term count
  end.

Fixpoint counts_get (m : list (string * Z)) (term : string) : option Z :=
  match m with
  | [] => None
  | (t, c) :: m' => if String.eqb t term then Some c else counts_get m' term
  end.

(** The count [deepSearch] takes of [term] in [content]: the term is
    lower-cased, escaped and matched with the flags [gi];
    [matches ? matches.length : 0]. *)
Definition occurrences (h : Host) (term content : string) : Z :=
  let lowerTerm := String_toLowerCase h term in
  Z.of_nat (match_count_gi h lowerTerm content).

(** The loop [for (const term of searchTerms)]. *)
Fixpoint countTerms (h : Host) (content : string) (searchTerms : list string)
  (wordCounts : list (string * Z)) (totalMatches : Z)
  : list (string * Z) * Z :=
  match searchTerms with
  | [] => (wordCounts, totalMatches)
  | term :: rest =>
      let count := occurrences h term content in
      countTerms h content rest (counts_set wordCounts term count)
        (totalMatches + count)
  end.

(** [(wordCounts.get(term) || 0) > 0]. *)
Definition counted_positive (wordCounts : list (string * Z)) (term : string) : bool :=
  match counts_get wordCounts term with
  | Some c => 0 <? c
  | None => false
  end.

(** What [deepSearch] computes from the text of one file: the counts,
    their total, and whether the file matches. *)
Definition searchContent (h : Host) (searchTerms : list string) (m : mode)
  (content : string) : list (string * Z) * Z * bool :=
  let '(wordCounts, totalMatches) :=
    match m with
    | mode_exact =>
        let phrase := String.concat " " searchTerms in
        let count := occurrences h phrase content in
        (counts_set [] phrase count, count)
    | _ => countTerms h content searchTerms [] 0
    end in
  let matches :=
    match m with
    | mode_any => 0 <? totalMatches
    | mode_all => forallb (counted_positive wordCounts) searchTerms
    | mode_exact => 0 <? totalMatches
    end in
  (wordCounts, totalMatches, matches).

Section Search.

Variable h : Host.

(** The body of the loop over [chatFilePaths.entries()]. *)
Definition searchEntry (searchTerms : list string) (m : mode)
  (chatId : value) (filePath : string) : M (list SearchResult) :=
  try_catch
    (content <- readFile filePath ;;
     let '(wordCounts, totalMatches, matches) :=
       searchContent h searchTerms m content in
     if matches : bool then
       chat <- gets (fun w => map_get (cachedChats (service w)) chatId) ;;
       match chat with
       | Some c =>
           ret [{| sr_chat := c; sr_wordCounts := wordCounts;
                   sr_totalMatches := totalMatches; sr_filePath := filePath |}]
       | None => ret []
       end
     else ret [])
    (fun _ => ret []).

Fixpoint searchEntries (searchTerms : list string) (m : mode)
  (entries : list (value * string)) : M (list SearchResult) :=
  match entries with
  | [] => ret []
  | (chatId, filePath) :: rest =>
      found <- searchEntry searchTerms m chatId filePath ;;
      more <- searchEntries searchTerms m rest ;;
      ret (found ++ more)
  end.

Definition deepSearch (searchTerms : list string) (m : mode)
  : M (list SearchResult) :=
  entries <- gets (fun w => chatFilePaths (service w)) ;;
  results <- searchEntries searchTerms m entries ;;
  ret (sort_desc sr_totalMatches results).

Definition getTopTopics (chatId : value) (count : Z) : M (list (string * Z)) :=
  known <- gets (fun w => map_get (chatFilePaths (service w)) chatId) ;;
  match known with
  | None => ret []
  | Some filePath =>
      if String.eqb filePath "" then ret []
      else
        try_catch
          (content <- readFile filePath ;;
           ret (extractTopicsWithCounts content count))
          (fun _ => ret [])
  end.

End Search.

(* ================================================================== *)
(** * A concrete host and concrete disks, to run the engine on examples *)
(* ================================================================== *)

Module Example.

Definition quote : string := String (ascii_of_N 34) EmptyString.

(** JSON text of a value of the JSON data model, without indentation;
    the example documents need no escapes inside their strings. *)
Fixpoint print (v : value) : string :=
  match v with
  | VUndefined | VNull | VNaN | VDate _ => "null"
  | VBool true => "true"
  | VBool false => "false"
  | VNum z => Text.of_Z z
  | VStr s => quote +++ s +++ quote
  | VArr l _ => "[" +++ String.concat "," (map print l) +++ "]"
  | VObj fs =>
      "{" +++ String.concat ","
                (map (fun '(k, x) => quote +++ k +++ quote +++ ":" +++ print x) fs)
      +++ "}"
  end.

Definition iso (t : Z) : string := "T" +++ Text.of_Z t.

Definition number_of (s : string) : option Z :=
  option_map Z.of_int (NilZero.int_of_string s).

Definition time_of (s : string) : option Z :=
  match s with
  | String "T" rest => number_of rest
  | _ => None
  end.

(** The part of a path behind its last [/], and the part in front. *)
Fixpoint split_last (s : string) : string * string :=
  match s with
  | EmptyString => (EmptyString, EmptyString)
  | String c s' =>
      let '(dir, base) := split_last s' in
      if Text.includes_char "/" s' then
        (String c dir, base)
      else if Ascii.eqb c "/" then (EmptyString, s')
      else (EmptyString, s)
  end.

Definition basename (p : string) : string := snd (split_last p).
Definition dirname (p : string) : string := fst (split_last p).

Definition basename_ext (p ext : string) : string :=
  let b := basename p in
  if Text.endsWith b ext
  then String.substring 0 (String.length b - String.length ext) b
  else b.

Fixpoint find_doc (docs : list value) (text : string) : option value :=
  match docs with
  | [] => None
  | d :: docs' =>
      if String.eqb (print d) text then Some d else find_doc docs' text
  end.

(** A host that knows the documents [docs]: it reads the text of each of
    them back as that document and rejects every other text.  Its clock
    starts at [t0] and advances by one millisecond per query. *)
Definition host (docs : list value) (t0 : Z) : Host :=
  {| JSON_parse := find_doc docs;
     JSON_stringify := fun v => print (jsonify_with iso v);
     Date_parse := time_of;
     Date_toISOString := iso;
     Date_toString := fun t => match t with
                               | Some z => iso z
                               | None => "Invalid Date"
                               end;
     Number_parse := number_of;
     String_toLowerCase := Text.toLowerCase;
     match_count_gi := Text.match_count;
     Date_now := fun n => t0 + Z.of_nat n;
     random_uuid := fun n => "uuid-" +++ Text.of_Z (Z.of_nat n);
     path_join := String.concat "/";
     path_basename := basename;
     path_basename_ext := basename_ext;
     path_dirname := dirname;
     process_platform := "linux";
     process_env := fun name => if String.eqb name "HOME" then Some "/home/u" else None;
     config_storagePath := "" |}.

Fixpoint assoc {A} (l : list (string * A)) (k : string) : option A :=
  match l with
  | [] => None
  | (k', a) :: l' => if String.eqb k' k then Some a else assoc l' k
  end.

(** A disk with the directories [dirs] (each with its entries) and the
    files [files] (each with its size, modification time and text). *)
Definition disk_of (dirs : list (string * list string))
  (files : list (string * (Stats * string))) : Disk :=
  {| exists_ := fun p =>
       match assoc dirs p, assoc files p with
       | None, None => false
       | _, _ => true
       end;
     readdir := assoc dirs;
     stat := fun p => option_map fst (assoc files p);
     contents := fun p => option_map snd (assoc files p);
     writable := fun _ => true |}.

Definition world_of (d : Disk) : World :=
  {| disk := d; heap := []; ticks := 0; draws := 0; trace := [];
     globalState := None; service := new_service |}.

(** The storage root of [host]. *)
Definition root : string := "/home/u/.config/Code/User/workspaceStorage".

Definition file_of (mtime : Z) (text : string) : Stats * string :=
  ({| size := Z.of_nat (String.length text); mtimeMs := mtime |}, text).

End Example.

(* ================================================================== *)
(** * The texts and documents of the examples *)
(* ================================================================== *)

Definition promise_text : string :=
  "The function returns a promise. The promise resolves a value.".

Definition shader_text : string := "shader shader xbox xbox xbox".

(** The count-ranked topics of a text before the cut to [count]. *)
Definition rankedTopics (content : string) : list (string * Z) :=
  sort_desc snd
    (fold_left
       (fun m word => if topic_word word then counts_add m word 1 else m)
       (match_words 0 false (Text.toLowerCase content)) []).

(** An export payload whose second entry is [null]. *)
Definition null_entry_payload : value :=
  VObj [ ("version", VStr "1.0");
         ("chats", arr [ VObj [("id", VStr "a"); ("messages", arr [])]; VNull ]) ].

Definition null_entry_host : Host := Example.host [null_entry_payload] 1000.

Definition null_entry_world : World :=
  Example.world_of
    (Example.disk_of []
       [("/tmp/in.json", Example.file_of 5 (Example.print null_entry_payload))]).

(* ================================================================== *)
(** * Predicates used in the statements *)
(* ================================================================== *)

(** An object or an array, as opposed to a primitive. *)
Definition is_object (v : value) : bool :=
  match v with
  | VObj _ | VArr _ _ => true
  | _ => false
  end.

(** The address [r] holds a chat object. *)
Definition live (w : World) (r : ref) : Prop :=
  is_object (nth r (heap w) VUndefined) = true.

(** The staleness test of [processFileFast]: there is an entry for the
    path and it records this size and this modification time. *)
Definition cache_lookup (w : World) (c : Candidate) : option CachedChatMeta :=
  match map_get (fileMetaCache (service w)) (VStr (filePath c)) with
  | Some m =>
      if (meta_mtime m =? mtimeMs (stats c)) && (meta_size m =? size (stats c))
      then Some m else None
  | None => None
  end.

(** A native session file with two turns: the first has a response in
    the direct shape, the second has none. *)
Definition session_doc : value :=
  VObj [ ("sessionId", VStr "s1");
         ("creationDate", VNum 10);
         ("lastMessageDate", VNum 20);
         ("requests",
           arr [ VObj [ ("message", VObj [("text", VStr "hello docker")]);
                        ("response", VObj [("value", VStr "use docker compose")]) ];
                 VObj [ ("message", VObj [("text", VStr "and kubernetes")]) ] ]) ].

(** A document that is no session: it has no requests. *)
Definition empty_doc : value :=
  VObj [ ("sessionId", VStr "s0"); ("requests", arr []) ].

Definition scan_host : Host := Example.host [session_doc; empty_doc] 1000.

Definition sessions_dir : string := Example.root +++ "/ws1/chatSessions".

(** One workspace with a session file, a file that is no JSON file and a
    file of sixty million bytes. *)
Definition scan_disk : Disk :=
  Example.disk_of
    [ (Example.root, ["ws1"]);
      (sessions_dir, ["s1.json"; "notes.txt"; "big.json"]) ]
    [ (sessions_dir +++ "/s1.json", Example.file_of 5 (Example.print session_doc));
      (sessions_dir +++ "/big.json",
        ({| size := 60000000; mtimeMs := 7 |}, Example.print session_doc)) ].

Definition scan_world : World := Example.world_of scan_disk.

(** The world a first scan of [scan_disk] leaves. *)
Definition scanned_world : World :=
  snd (scanAllChatHistories scan_host false scan_world).

Definition s1_candidate : Candidate :=
  {| filePath := sessions_dir +++ "/s1.json"; workspaceId := "ws1";
     stats := fst (Example.file_of 5 (Example.print session_doc)) |}.

(** One workspace whose only file is no session. *)
Definition idle_disk : Disk :=
  Example.disk_of
    [ (Example.root, ["ws1"]); (sessions_dir, ["s0.json"]) ]
    [ (sessions_dir +++ "/s0.json", Example.file_of 5 (Example.print empty_doc)) ].

Definition idle_world : World := Example.world_of idle_disk.

(* ================================================================== *)
(** * Frame conditions *)
(* ================================================================== *)

Unset Implicit Arguments.

(** A relation between the world before and the world after that holds
    of doing nothing and of doing one thing after another. *)
Record preorder (R : World -> World -> Prop) : Prop := {
  pre_refl : forall w, R w w;
  pre_trans : forall a b c, R a b -> R b c -> R a c
}.

(** [keeps R m]: however [m] ends, by returning or by throwing, the
    world it leaves is [R]-related to the world it found. *)
Definition keeps (R : World -> World -> Prop) {A} (m : M A) : Prop :=
  forall w, R w (snd (m w)).

(** Two frame conditions at once. *)
Definition both (R1 R2 : World -> World -> Prop) (w w' : World) : Prop :=
  R1 w w' /\ R2 w w'.

(** [f] reads the same in the world after as in the world before. *)
Definition unchanged {X} (f : World -> X) (w w' : World) : Prop := f w' = f w.

(** The trace after is the trace before with events appended. *)
Definition appends (w w' : World) : Prop :=
  exists evs, trace w' = trace w ++ evs.

(** The cache-hit counter. *)
Definition cache_hits_of (w : World) : Z := skippedCached (_scanStats (service w)).

(** [null] or [undefined]. *)
Definition nullish (v : value) : bool :=
  match v with
  | VUndefined | VNull => true
  | _ => false
  end.

(** A probe of a response shape finds nothing: it runs and what it
    reads is falsy. *)
Definition shape_absent (probe : value -> result value) (request : value) : bool :=
  match probe request with
  | Ok v => negb (truthy v)
  | Throw _ => false
  end.

(** The response payload of a turn matches none of the recognised
    shapes: direct value, nested result value, alternate result field,
    list of content parts. *)
Definition no_recognized_shape (request : value) : bool :=
  shape_absent direct_value request
  && shape_absent nested_result_value request
  && shape_absent alternate_result_value request
  && shape_absent content_parts request.

(** [request.message?.text], for a request that is an object. *)
Definition request_text (request : value) : value :=
  get_opt (or_else (get request "message") VUndefined) "text".

(** The loader can read the turn: the probing of its response returns
    rather than throws. *)
Definition turn_loads (h : Host) (request : value) : bool :=
  match extractResponseText h request with
  | Ok _ => true
  | Throw _ => false
  end.

(** The role and the content of a message. *)
Definition message_outline (m : value) : result value * result value :=
  (get m "role", get m "content").

(** The user message of a turn: one when the request has a text. *)
Definition user_outline (request : value) : list (result value * result value) :=
  if truthy (request_text request)
  then [(Ok (VStr "user"), Ok (request_text request))]
  else [].

(** The assistant message of a turn: one when a response shape is
    found. *)
Definition assistant_outline (h : Host) (request : value)
  : list (result value * result value) :=
  match extractResponseText h request with
  | Ok text => if truthy text then [(Ok (VStr "assistant"), Ok text)] else []
  | Throw _ => []
  end.

(** The roles and contents of the messages of a turn, in order. *)
Definition turn_outline (h : Host) (request : value)
  : list (result value * result value) :=
  user_outline request ++ assistant_outline h request.

(** The document metadata extraction works on: what [JSON.parse] makes
    of the first 16 KiB of the file or, when that is no JSON text, of
    the whole file. *)
Definition extracted_document (h : Host) (w : World) (path : string) (fileSize : Z)
  : option value :=
  match contents (disk w) path with
  | Some text =>
      match JSON_parse h
              (fill_buffer (Z.to_nat (Z.min fileSize (METADATA_READ_BYTES * 4))) text)
      with
      | Some data => Some data
      | None => JSON_parse h text
      end
  | None => None
  end.

(** The chat object at address [r]. *)
Definition chat_at (w : World) (r : ref) : value := nth r (heap w) VUndefined.

(** The heap and the disk are as before. *)
Definition same_store (w w' : World) : Prop :=
  heap w' = heap w /\ disk w' = disk w.

(** Nothing but the clock, the identifier supply and the trace has
    moved. *)
Definition same_state (w w' : World) : Prop :=
  heap w' = heap w /\ disk w' = disk w /\ service w' = service w.

(** Every address the index holds is the address of a chat object. *)
Definition index_live (w : World) : Prop :=
  forall id r, map_get (cachedChats (service w)) id = Some r -> live w r.

(** The case-insensitive occurrences of [term] in [content], in the
    words of the specification: the matches, letters compared without
    case, of the lower-cased term taken as a literal. *)
Definition case_insensitive_count (h : Host) (term content : string) : nat :=
  match_count_gi h (String_toLowerCase h term) content.

(** The sum of the per-term occurrence counts. *)
Fixpoint total_occurrences (h : Host) (searchTerms : list string)
  (content : string) : nat :=
  match searchTerms with
  | [] => 0%nat
  | term :: rest =>
      (case_insensitive_count h term content
       + total_occurrences h rest content)%nat
  end.

(** When a file matches a search, in the words of the specification. *)
Definition search_matches (h : Host) (searchTerms : list string) (m : mode)
  (content : string) : Prop :=
  match m with
  | mode_any => (0 < total_occurrences h searchTerms content)%nat
  | mode_all =>
      forall term, In term searchTerms ->
                   (0 < case_insensitive_count h term content)%nat
  | mode_exact =>
      (0 < case_insensitive_count h (String.concat " " searchTerms) content)%nat
  end.

(** The total a result reports. *)
Definition total_matches (h : Host) (searchTerms : list string) (m : mode)
  (content : string) : Z :=
  match m with
  | mode_exact =>
      Z.of_nat (case_insensitive_count h (String.concat " " searchTerms) content)
  | _ => Z.of_nat (total_occurrences h searchTerms content)
  end.

(** What one entry of the identity-to-path table adds to the results,
    as a function of the disk and of the index. *)
Definition entry_results (h : Host) (searchTerms : list string) (m : mode)
  (w : World) (entry : value * string) : list SearchResult :=
  let '(chatId, filePath) := entry in
  match contents (disk w) filePath with
  | Some content =>
      let '(wordCounts, totalMatches, matches) :=
        searchContent h searchTerms m content in
      if matches then
        match map_get (cachedChats (service w)) chatId with
        | Some c =>
            [{| sr_chat := c; sr_wordCounts := wordCounts;
                sr_totalMatches := totalMatches; sr_filePath := filePath |}]
        | None => []
        end
      else []
  | None => []
  end.

(** [a] may stand before [b] in a list sorted by descending [key]. *)
Definition desc {A} (key : A -> Z) (a b : A) : Prop := key b <= key a.

(** A date as [JSON.stringify] writes it. *)
Definition date_json (h : Host) (t : option Z) : value :=
  match t with
  | Some z => VStr (Date_toISOString h z)
  | None => VNull
  end.

(** A message and a chat as [importChats] stores them after it has
    read back what [exportChats] wrote: every date has gone through its
    JSON form and [new Date]. *)
Definition imported_message (h : Host) (m : ChatMessage) : value :=
  VObj [ ("id", VStr (msg_id m));
         ("role", VStr (role_name (msg_role m)));
         ("content", VStr (msg_content m));
         ("timestamp", new_Date h (date_json h (msg_timestamp m))) ].

Definition imported_chat (h : Host) (c : ChatHistory) : value :=
  VObj [ ("id", VStr (ch_id c));
         ("workspacePath", VStr (ch_workspacePath c));
         ("workspaceName", VStr (ch_workspaceName c));
         ("createdAt", new_Date h (date_json h (ch_createdAt c)));
         ("updatedAt", new_Date h (date_json h (ch_updatedAt c)));
         ("firstMessage", VStr (ch_firstMessage c));
         ("lastMessage", VStr (ch_lastMessage c));
         ("messageCount", VNum (ch_messageCount c));
         ("fileSize", VNum (ch_fileSize c));
         ("messages", arr (map (imported_message h) (ch_messages c)));
         ("tags", arr (map VStr (ch_tags c)));
         ("attachedProject",
           match ch_attachedProject c with
           | Some p => VStr p
           | None => VNull
           end) ].

(** What the import of the entries [chats] does to the index [cc], to
    the heap [hp] and to the two counters. *)
Fixpoint import_effect (h : Host) (chats : list ChatHistory)
  (cc : jsmap ref) (hp : list value) (imported skipped : Z)
  : jsmap ref * list value * Z * Z :=
  match chats with
  | [] => (cc, hp, imported, skipped)
  | c :: rest =>
      if map_has cc (VStr (ch_id c))
      then import_effect h rest cc hp imported (skipped + 1)
      else import_effect h rest
             (map_set cc (VStr (ch_id c)) (List.length hp))
             (hp ++ [imported_chat h c]) (imported + 1) skipped
  end.

(** The service apart from its index. *)
Definition same_tables (w w' : World) : Prop :=
  disk w' = disk w
  /\ chatFilePaths (service w') = chatFilePaths (service w)
  /\ fileMetaCache (service w') = fileMetaCache (service w)
  /\ _scanStats (service w') = _scanStats (service w)
  /\ _lastScanTime (service w') = _lastScanTime (service w)
  /\ _scanInProgress (service w') = _scanInProgress (service w).

(** The world after a chat object [v] has been put into the heap and
    entered into the index under [id]. *)
Definition indexed (w : World) (id v : value) : World :=
  let w1 := with_heap (heap w ++ [v]) w in
  with_service
    (with_cachedChats (map_set (cachedChats (service w1)) id (List.length (heap w)))
       (service w1)) w1.

(** The identity, role and content of a message are those of [m]. *)
Definition same_message (m : ChatMessage) (v : value) : Prop :=
  get v "id" = Ok (VStr (msg_id m))
  /\ get v "role" = Ok (VStr (role_name (msg_role m)))
  /\ get v "content" = Ok (VStr (msg_content m)).

(** The chat object [v] is the session [c]: same identity, same message
    count, and message for message the same messages in the same
    order. *)
Definition same_session (c : ChatHistory) (v : value) : Prop :=
  get v "id" = Ok (VStr (ch_id c))
  /\ get v "messageCount" = Ok (VNum (ch_messageCount c))
  /\ exists messages,
       get v "messages" = Ok (arr messages)
       /\ Forall2 same_message (ch_messages c) messages.

(** The index component of [import_effect]. *)
Definition effect_index (e : jsmap ref * list value * Z * Z) : jsmap ref :=
  fst (fst (fst e)).

(** Two sessions to export: one with two messages, one with none. *)
Definition demo_chats : list ChatHistory :=
  [ {| ch_id := "a"; ch_workspacePath := "ws1"; ch_workspaceName := "Workspace ws1";
       ch_createdAt := Some 10; ch_updatedAt := Some 20;
       ch_firstMessage := "hello"; ch_lastMessage := "hello";
       ch_messageCount := 2; ch_fileSize := 186;
       ch_messages :=
         [ {| msg_id := "m1"; msg_role := role_user; msg_content := "hello";
              msg_timestamp := Some 10 |};
           {| msg_id := "m2"; msg_role := role_assistant;
              msg_content := "hi there"; msg_timestamp := Some 11 |} ];
       ch_tags := ["GPT"]; ch_attachedProject := None |};
    {| ch_id := "b"; ch_workspacePath := "ws2"; ch_workspaceName := "Workspace ws2";
       ch_createdAt := Some 30; ch_updatedAt := None;
       ch_firstMessage := ""; ch_lastMessage := "";
       ch_messageCount := 0; ch_fileSize := 0;
       ch_messages := []; ch_tags := []; ch_attachedProject := Some "proj" |} ].

Definition demo_envelope : value :=
  envelope (time_clip 1000) (map chat_value demo_chats).

(** A host that reads the exported envelope back. *)
Definition export_host : Host :=
  Example.host [jsonify_with Example.iso demo_envelope] 1000.

Definition export_world : World := Example.world_of (Example.disk_of [] []).

(** The world after the export of [demo_chats]. *)
Definition exported_world : World :=
  snd (exportChats_json export_host (map chat_value demo_chats)
         "/tmp/export.json" export_world).

(** The file at [path] exceeds the size ceiling. *)
Definition oversize (d : Disk) (path : string) : bool :=
  match stat d path with
  | Some st => MAX_FILE_SIZE_BYTES <? size st
  | None => false
  end.

(** The number of files found oversize among the files the events
    [evs] have examined. *)
Definition large_stats (d : Disk) (evs : list event) : Z :=
  Z.of_nat
    (List.length
       (filter (fun e => match e with
                         | StatSync path => oversize d path
                         | _ => false
                         end) evs)).


(** What a scan leaves alone about an oversize file [path]: it is not
    opened for metadata extraction, no cache entry is made or changed
    for it, and no identity is newly mapped to it. *)
Definition scan_frame (path : string) (w w' : World) : Prop :=
  disk w' = disk w
  /\ (In (OpenRead path) (trace w') -> In (OpenRead path) (trace w))
  /\ map_get (fileMetaCache (service w')) (VStr path)
     = map_get (fileMetaCache (service w)) (VStr path)
  /\ (forall id, map_get (chatFilePaths (service w')) id = Some path ->
                 map_get (chatFilePaths (service w)) id = Some path).

(** The skipped-large counter has grown by the number of oversize files
    examined. *)
Definition counts_large (w w' : World) : Prop :=
  disk w' = disk w
  /\ exists evs,
       trace w' = trace w ++ evs
       /\ skippedLarge (_scanStats (service w'))
          = skippedLarge (_scanStats (service w)) + large_stats (disk w) evs.

(** A scan request is served by a scan pass: no scan is in progress and
    the short cut of the freshness window does not apply. *)
Definition runs_pass (h : Host) (forceRefresh : bool) (w : World) : bool :=
  negb (_scanInProgress (service w))
  && negb (negb forceRefresh
           && (Date_now h (ticks w) - _lastScanTime (service w) <? 30000)
           && (0 <? List.length (cachedChats (service w)))%nat).



(** The storage root [getCopilotChatStoragePath] settles on when the
    disk is [d]: the configured path when there is one and it exists,
    else [workspaceStorage] under the user-data directory. *)
Definition storage_root (h : Host) (d : Disk) : string :=
  let customPath := config_storagePath h in
  if negb (String.eqb customPath "") && exists_ d customPath then customPath
  else path_join h [getUserDataPath h; "workspaceStorage"].

(** A world in which a scan is under way. *)
Definition busy_world : World :=
  with_service (with_scanInProgress true (service scanned_world)) scanned_world.

(** A machine without any storage directory. *)
Definition bare_world : World := Example.world_of (Example.disk_of [] []).

(** The world after the exported sessions have been imported again:
    its two chats have no backing file. *)
Definition reimported_world : World :=
  snd (importChats export_host "/tmp/export.json" exported_world).

(** The fields of an object. *)
Definition fields_of (v : value) : list (string * value) :=
  match v with
  | VObj fs => fs
  | _ => []
  end.

(** What [getTopTopics] answers, read off the tables and the disk. *)
Definition topics_of (w : World) (chatId : value) (count : Z) : list (string * Z) :=
  match map_get (chatFilePaths (service w)) chatId with
  | Some filePath =>
      if String.eqb filePath "" then []
      else
        match contents (disk w) filePath with
        | Some content => extractTopicsWithCounts content count
        | None => []
        end
  | None => []
  end.

(** The chat a conversion has returned. *)
Definition converted_chat (r : result (option value) * World) : value :=
  match fst r with
  | Ok (Some chat) => chat
  | _ => VUndefined
  end.

(** [keeps] for a computation of the body of [importChats]: the world
    it leaves is [R]-related to the world it found. *)
Definition keeps_import (R : World -> World -> Prop) {A} (m : ImportM A) : Prop :=
  forall w r, R w (fst (snd (m (w, r)))).

(** What an import leaves of the sessions it finds: the disk and the
    staleness cache are as before, the heap has only grown, and every
    identity the index held is still held, by the same chat object. *)
Definition keeps_sessions (w w' : World) : Prop :=
  disk w' = disk w
  /\ fileMetaCache (service w') = fileMetaCache (service w)
  /\ (exists hp, heap w' = heap w ++ hp)
  /\ (forall id r,
        map_get (cachedChats (service w)) id = Some r ->
        map_get (cachedChats (service w')) id = Some r).

(** The file at [path] gives no document: it cannot be read, or its text
    is no JSON text. *)
Definition no_document (h : Host) (d : Disk) (path : string) : Prop :=
  match contents d path with
  | Some text => JSON_parse h text = None
  | None => True
  end.

(* ================================================================== *)
(** * Queries on the index *)
(* ================================================================== *)

(** [m.delete(k)]: the entry of [k] is taken out. *)
Definition map_delete {V} (m : jsmap V) (k : value) : jsmap V :=
  filter (fun entry => negb (same_value_zero (fst entry) k)) m.

(** [deleteChat]: [Map.prototype.delete] answers whether there was an
    entry. *)
Definition deleteChat (id : value) : M bool :=
  present <- gets (fun w => map_has (cachedChats (service w)) id) ;;
  modify_service (fun s => with_cachedChats (map_delete (cachedChats s) id) s) ;;;
  ret present.

(** The loop of [getChatsByWorkspace]; the workspace names that reach
    the map as keys are primitive values. *)
Fixpoint groupChats (chats : list ref) (grouped : jsmap (list ref))
  : M (jsmap (list ref)) :=
  match chats with
  | [] => ret grouped
  | chat :: rest =>
      v <- deref chat ;;
      key <- lift (get v "workspaceName") ;;
      let grouped1 :=
        if negb (map_has grouped key) then map_set grouped key [] else grouped in
      match map_get grouped1 key with
      | Some members => groupChats rest (map_set grouped1 key (members ++ [chat]))
      | None =>
          throw (TypeError "Cannot read properties of undefined (reading 'push')")
      end
  end.

Definition getChatsByWorkspace : M (jsmap (list ref)) :=
  chats <- gets (fun w => map_values (cachedChats (service w))) ;;
  groupChats chats [].

(** [s.toLowerCase()], a method of strings only. *)
Definition call_toLowerCase (h : Host) (v : value) : result string :=
  match v with
  | VStr s => Ok (String_toLowerCase h s)
  | VUndefined | VNull =>
      Throw (TypeError "Cannot read properties of undefined (reading 'toLowerCase')")
  | _ => Throw (TypeError "toLowerCase is not a function")
  end.

(** [s.includes(sub)]. *)
Fixpoint includes (sub s : string) : bool :=
  String.prefix sub s
  || match s with
     | EmptyString => false
     | String _ s' => includes sub s'
     end.

(** [messages.some(msg => msg.content.toLowerCase().includes(lowerQuery))]:
    the first message that matches ends the walk. *)
Fixpoint some_message (h : Host) (lowerQuery : string) (messages : list value)
  : result bool :=
  match messages with
  | [] => Ok false
  | msg :: rest =>
      rbind (get msg "content") (fun content =>
      rbind (call_toLowerCase h content) (fun lower =>
      if includes lowerQuery lower then Ok true
      else some_message h lowerQuery rest))
  end.

(** The predicate [searchChats] filters with. *)
Definition chat_matches (h : Host) (lowerQuery : string) (chat : value)
  : result bool :=
  rbind (get chat "workspaceName") (fun workspaceName =>
  rbind (call_toLowerCase h workspaceName) (fun lower =>
  if includes lowerQuery lower then Ok true
  else
    rbind (get chat "messages") (fun messages =>
    match messages with
    | VArr l _ => some_message h lowerQuery l
    | VUndefined | VNull =>
        Throw (TypeError "Cannot read properties of undefined (reading 'some')")
    | _ => Throw (TypeError "chat.messages.some is not a function")
    end))).

(** [chats.filter(f)] for a predicate that may throw. *)
Fixpoint filterM {S A} (f : A -> ST S bool) (l : list A) : ST S (list A) :=
  match l with
  | [] => ret []
  | a :: l' =>
      keep <- f a ;;
      kept <- filterM f l' ;;
      ret (if keep : bool then a :: kept else kept)
  end.

Definition searchChats (h : Host) (query : string) : M (list ref) :=
  let lowerQuery := String_toLowerCase h query in
  chats <- gets (fun w => map_values (cachedChats (service w))) ;;
  filterM (fun chat => v <- deref chat ;; lift (chat_matches h lowerQuery v)) chats.

(** The files [getGlobalWordCloud] reads: those of the chats selected,
    or all when none is selected. *)
Definition wordCloudFiles (chatIds : option (list value)) : M (list string) :=
  match chatIds with
  | Some (_ :: _ as ids) =>
      paths <- gets (fun w => chatFilePaths (service w)) ;;
      ret (flat_map
             (fun chatId =>
                match map_get paths chatId with
                | Some filePath => if String.eqb filePath "" then [] else [filePath]
                | None => []
                end) ids)
  | _ => gets (fun w => map_values (chatFilePaths (service w)))
  end.

(** [for (const topic of topics) wordCounts.set(topic.word, ...)]. *)
Definition addTopics (wordCounts topics : list (string * Z)) : list (string * Z) :=
  fold_left (fun m topic => counts_add m (fst topic) (snd topic)) topics wordCounts.

(** The loop over the files: a file that cannot be read is skipped. *)
Fixpoint cloudFiles (files : list string) (wordCounts : list (string * Z))
  : M (list (string * Z)) :=
  match files with
  | [] => ret wordCounts
  | filePath :: rest =>
      counted <- try_catch
        (content <- readFile filePath ;;
         ret (addTopics wordCounts (extractTopicsWithCounts content 100)))
        (fun _ => ret wordCounts) ;;
      cloudFiles rest counted
  end.

Definition getGlobalWordCloud (topCount : Z) (chatIds : option (list value))
  : M (list (string * Z)) :=
  files <- wordCloudFiles chatIds ;;
  wordCounts <- cloudFiles files [] ;;
  ret (slice0 topCount (sort_desc snd wordCounts)).

(** [getStoragePathDisplay]. *)
Definition getStoragePathDisplay (h : Host) : M string :=
  p <- gets (fun w => _storagePath (service w)) ;;
  if String.eqb p "" then getCopilotChatStoragePath h else ret p.

(** The workspace name of the chat at [r] is the string [name]. *)
Definition in_workspace (w : World) (name : string) (r : ref) : bool :=
  match get (chat_at w r) "workspaceName" with
  | Ok (VStr s) => String.eqb s name
  | _ => false
  end.

(** Every chat of the index has a string as its workspace name. *)
Definition named_index (w : World) : Prop :=
  forall r, In r (map_values (cachedChats (service w))) ->
            exists s, get (chat_at w r) "workspaceName" = Ok (VStr s).

(** The members a group has after [chats] have been added to it. *)
Definition group_after (before : option (list ref)) (added : list ref)
  : option (list ref) :=
  match before, added with
  | None, [] => None
  | None, _ => Some added
  | Some members, _ => Some (members ++ added)
  end.

(** [a] contains [b], letters compared without case: the lower-cased
    [a], as the runtime lower-cases, contains the lower-cased [b]. *)
Definition contains_ci (h : Host) (a b : string) : bool :=
  includes (String_toLowerCase h b) (String_toLowerCase h a).

(** The query matches the session: its workspace name or one of its
    messages contains the query, letters compared without case. *)
Definition session_matches (h : Host) (query : string) (c : ChatHistory) : bool :=
  contains_ci h (ch_workspaceName c) query
  || existsb (fun m => contains_ci h (msg_content m) query) (ch_messages c).

(** An index of two typed sessions, each chat object in the heap. *)
Definition typed_world : World :=
  let w := Example.world_of (Example.disk_of [] []) in
  with_service
    (with_cachedChats [(VStr "a", 0%nat); (VStr "b", 1%nat)] (service w))
    (with_heap (map chat_value demo_chats) w).

(** The typed session behind the address [r] of [typed_world]. *)
Definition typed_session (r : ref) : ChatHistory :=
  nth r demo_chats
    {| ch_id := ""; ch_workspacePath := ""; ch_workspaceName := "";
       ch_createdAt := None; ch_updatedAt := None;
       ch_firstMessage := ""; ch_lastMessage := "";
       ch_messageCount := 0; ch_fileSize := 0;
       ch_messages := []; ch_tags := []; ch_attachedProject := None |}.

(** A storage root that exists and holds no workspace. *)
Definition empty_root_world : World :=
  let w := Example.world_of (Example.disk_of [(Example.root, [])] []) in
  with_service (with_cachedChats [(VStr "old", 0%nat)] (service w))
    (with_heap [chat_value (typed_session 0%nat)] w).

(* ================================================================== *)
(** * Export in the format of VS Code *)
(* ================================================================== *)

Section Exporter.

Variable h : Host.

(** [d.toISOString()], a method of dates.  On an invalid date it throws
    a [RangeError]; the service handles every exception alike. *)
Definition call_toISOString (v : value) : result string :=
  match v with
  | VDate (Some t) => Ok (Date_toISOString h t)
  | VDate None => Throw (TypeError "Invalid time value")
  | VUndefined | VNull =>
      Throw (TypeError "Cannot read properties of undefined (reading 'toISOString')")
  | _ => Throw (TypeError "toISOString is not a function")
  end.

(** [generateUUID()]: the template of [generateId], filled from
    [Math.random] in the same way. *)
Definition generateUUID : M string := generateId h.

(** One message of [convertToVSCodeFormat], its properties evaluated in
    the order of the object literal. *)
Definition exportMessage (msg : value) : M value :=
  id <- lift (get msg "id") ;;
  id' <- (if truthy id then ret id else (u <- generateUUID ;; ret (VStr u))) ;;
  role <- lift (get msg "role") ;;
  content <- lift (get msg "content") ;;
  timestamp <- lift (get msg "timestamp") ;;
  stamp <- lift (call_toISOString timestamp) ;;
  ret (VObj [ ("id", id'); ("role", role); ("content", content);
              ("timestamp", VStr stamp) ]).

(** [chat.messages.map(f)] for an [f] that draws identifiers. *)
Definition call_mapM (v : value) (f : value -> M value) : M value :=
  match v with
  | VArr l _ => l' <- mapM f l ;; ret (arr l')
  | VUndefined | VNull =>
      throw (TypeError "Cannot read properties of null (reading 'map')")
  | _ => throw (TypeError "map is not a function")
  end.

Definition exportChat (chat : value) : M value :=
  id <- lift (get chat "id") ;;
  workspacePath <- lift (get chat "workspacePath") ;;
  workspaceName <- lift (get chat "workspaceName") ;;
  createdAt <- lift (get chat "createdAt") ;;
  created <- lift (call_toISOString createdAt) ;;
  updatedAt <- lift (get chat "updatedAt") ;;
  updated <- lift (call_toISOString updatedAt) ;;
  firstMessage <- lift (get chat "firstMessage") ;;
  lastMessage <- lift (get chat "lastMessage") ;;
  messageCount <- lift (get chat "messageCount") ;;
  fileSize <- lift (get chat "fileSize") ;;
  messages <- lift (get chat "messages") ;;
  converted <- call_mapM messages exportMessage ;;
  tags <- lift (get chat "tags") ;;
  attachedProject <- lift (get chat "attachedProject") ;;
  ret (VObj [ ("id", id);
              ("workspacePath", workspacePath);
              ("workspaceName", workspaceName);
              ("createdAt", VStr created);
              ("updatedAt", VStr updated);
              ("firstMessage", firstMessage);
              ("lastMessage", lastMessage);
              ("messageCount", messageCount);
              ("fileSize", fileSize);
              ("messages", converted);
              ("tags", or tags (arr []));
              ("attachedProject", or attachedProject VNull) ]).

Definition convertToVSCodeFormat (chats : list value) : M string :=
  now <- Date_now_ h ;;
  exportedAt <- lift (call_toISOString (VDate (time_clip now))) ;;
  converted <- mapM exportChat chats ;;
  ret (JSON_stringify h
         (VObj [ ("version", VStr "1.0");
                 ("exportedAt", VStr exportedAt);
                 ("sourceExtension", VStr "copilot-chat-manager");
                 ("chats", arr converted) ])).

(** [fs.promises.copyFile(src, dst)]: the text of [src] is read and
    written to [dst]. *)
Definition copyFile (src dst : string) : M unit :=
  text <- readFile src ;;
  writeFile dst text.

(** The [vscode] case of [exportChats]: a single chat whose original
    file exists is exported by copying that file; everything else goes
    through [convertToVSCodeFormat]. *)
Definition exportChats_vscode (chats : list value) (outputPath : string) : M unit :=
  copied <-
    match chats with
    | [chat] =>
        id <- lift (get chat "id") ;;
        originalPath <- gets (fun w => map_get (chatFilePaths (service w)) id) ;;
        match originalPath with
        | Some p =>
            if String.eqb p "" then ret false
            else
              present <- existsSync p ;;
              if present : bool then copyFile p outputPath ;;; ret true
              else ret false
        | None => ret false
        end
    | _ => ret false
    end ;;
  if copied : bool then ret tt
  else
    content <- convertToVSCodeFormat chats ;;
    writeFile outputPath content.

End Exporter.

(** A session whose creation date is no valid date. *)
Definition undated_chat : value :=
  VObj [ ("id", VStr "u"); ("workspacePath", VStr "ws");
         ("workspaceName", VStr "Workspace ws");
         ("createdAt", VDate None); ("updatedAt", VDate (Some 20));
         ("messages", arr []) ].

(** A native session file whose only turn has neither a text nor a
    response, and a world that has it indexed. *)
Definition mute_doc : value :=
  VObj [ ("sessionId", VStr "m1");
         ("requests", arr [ VObj [ ("response", VObj []) ] ]) ].

Definition mute_host : Host := Example.host [mute_doc] 1000.

Definition mute_world : World :=
  let w :=
    Example.world_of
      (Example.disk_of []
         [("/m1.json", Example.file_of 5 (Example.print mute_doc))]) in
  with_service
    (with_chatFilePaths [(VStr "m1", "/m1.json")]
       (with_cachedChats [(VStr "m1", 0%nat)] (service w)))
    (with_heap [VObj [ ("id", VStr "m1"); ("messages", arr []);
                       ("messageCount", VNum 2) ]] w).








(** The disk of the scanned example after the session file has grown to
    sixty million bytes. *)
Definition grown_disk : Disk :=
  Example.disk_of
    [ (Example.root, ["ws1"]);
      (sessions_dir, ["s1.json"; "notes.txt"; "big.json"]) ]
    [ (sessions_dir +++ "/s1.json",
        ({| size := 60000000; mtimeMs := 9 |}, Example.print session_doc));
      (sessions_dir +++ "/big.json",
        ({| size := 60000000; mtimeMs := 7 |}, Example.print session_doc)) ].

(** The scanned world, the session file grown since the scan. *)
Definition grown_world : World := with_disk grown_disk scanned_world.

(** The world a forced scan of [grown_world] leaves. *)
Definition rescanned_world : World :=
  snd (scanAllChatHistories scan_host true grown_world).




(* ================================================================== *)
(** * Statements *)
(* ================================================================== *)


(** ** Topic extraction *)

Lemma extractTopicsWithCounts_ranked (content : string) (count : Z) :
  extractTopicsWithCounts content count = slice0 count (rankedTopics content).
Proof. reflexivity. Qed.

Lemma slice0_all {A} (count : Z) (l : list A) :
  Z.of_nat (List.length l) <= count -> slice0 count l = l.
Proof.
  intros Hlen. unfold slice0.
  destruct (count <? 0) eqn:Hneg.
  - apply Z.ltb_lt in Hneg. lia.
  - apply firstn_all2. lia.
Qed.

Lemma slice0_incl {A} (count : Z) (l : list A) (x : A) :
  In x (slice0 count l) -> In x l.
Proof.
  assert (Hfirst : forall n (k : list A), In x (firstn n k) -> In x k).
  { intros n k Hin. rewrite <- (firstn_skipn n k).
    apply in_or_app. left. exact Hin. }
  unfold slice0. destruct (count <? 0); apply Hfirst.
Qed.

Lemma rankedTopics_promise :
  rankedTopics promise_text = [("returns", 1); ("resolves", 1)].
Proof. vm_compute. reflexivity. Qed.

Lemma rankedTopics_shader :
  rankedTopics shader_text = [("xbox", 3); ("shader", 2)].
Proof. vm_compute. reflexivity. Qed.

(** C6, as stated, fails: with the default limit of three topics the
    first text yields "returns" (and "resolves"), which are not stop
    words; only their stems "return" and "resolve" are. *)
Lemma C6_returns_is_yielded :
  ~ (forall word,
       In word ["function"; "promise"; "returns"; "resolves"; "value"] ->
       ~ In word (map fst (extractTopicsWithCounts promise_text 3))).
Proof.
  intros H. apply (H "returns").
  - simpl. auto.
  - vm_compute. auto.
Qed.

(** C6, amended.  For every limit: the first text yields none of
    "function", "promise", "value", which are in the stop set.  The
    words "returns" and "resolves" are not in the stop set, and with a
    limit of at least two the first text yields exactly those two, once
    each, and the second text yields exactly [("xbox",3); ("shader",2)]
    in that order. *)
Theorem C6_topic_examples (count : Z) :
  2 <= count ->
  (forall word, In word ["function"; "promise"; "value"] ->
     stopWords_has word = true /\
     forall limit, ~ In word (map fst (extractTopicsWithCounts promise_text limit)))
  /\ stopWords_has "returns" = false
  /\ stopWords_has "resolves" = false
  /\ extractTopicsWithCounts promise_text count = [("returns", 1); ("resolves", 1)]
  /\ extractTopicsWithCounts shader_text count = [("xbox", 3); ("shader", 2)].
Proof.
  intros Hcount. split; [ | split; [ | split; [ | split ] ] ].
  - intros word Hword. split.
    + simpl in Hword.
      destruct Hword as [<- | [<- | [<- | []]]]; vm_compute; reflexivity.
    + intros limit Hin. apply in_map_iff in Hin.
      destruct Hin as [[w' n] [Hw Hin]].
      rewrite extractTopicsWithCounts_ranked in Hin.
      apply slice0_incl in Hin. rewrite rankedTopics_promise in Hin.
      simpl in Hw, Hin, Hword. subst w'.
      destruct Hin as [Hin | [Hin | []]]; inversion Hin; subst;
        destruct Hword as [H | [H | [H | []]]]; discriminate H.
  - vm_compute. reflexivity.
  - vm_compute. reflexivity.
  - rewrite extractTopicsWithCounts_ranked, rankedTopics_promise.
    apply slice0_all. simpl. lia.
  - rewrite extractTopicsWithCounts_ranked, rankedTopics_shader.
    apply slice0_all. simpl. lia.
Qed.

Lemma C6_topic_examples_witness :
  extractTopicsWithCounts shader_text 3 = [("xbox", 3); ("shader", 2)].
Proof. apply (C6_topic_examples 3). lia. Defined.

(** ** Import: the success flag *)

(** C10 at a payload whose second entry is [null]: the first entry is
    imported, the handler of the second entry's exception throws in
    turn, and the import ends with one chat imported and indexed but
    with [success = false]. *)
Theorem C10_null_entry_import :
  let '(r, w) := importChats null_entry_host "/tmp/in.json" null_entry_world in
  r = Ok {| success := false; importedCount := 1; skippedCount := 0;
            import_errors :=
              ["Parse error: Cannot read properties of null (reading 'id')"] |}
  /\ map fst (cachedChats (service w)) = [VStr "a"].
Proof. vm_compute. split; reflexivity. Qed.

(** ** Frame conditions: what a computation leaves as it is *)


Section Keeps.

Variable R : World -> World -> Prop.
Hypothesis HR : preorder R.

Lemma keeps_ret {A} (a : A) : keeps R (ret a).
Proof. intros w. apply (pre_refl _ HR). Qed.

Lemma keeps_throw {A} (e : exn) : keeps R (@throw World A e).
Proof. intros w. apply (pre_refl _ HR). Qed.

Lemma keeps_lift {A} (r : result A) : keeps R (lift r).
Proof. intros w. apply (pre_refl _ HR). Qed.

Lemma keeps_gets {A} (f : World -> A) : keeps R (gets f).
Proof. intros w. apply (pre_refl _ HR). Qed.

Lemma keeps_bind {A B} (m : M A) (k : A -> M B) :
  keeps R m -> (forall a, keeps R (k a)) -> keeps R (bind m k).
Proof.
  intros Hm Hk w. unfold bind. specialize (Hm w).
  destruct (m w) as [[a | e] w1]; simpl in *.
  - eapply (pre_trans _ HR); [exact Hm | apply Hk].
  - exact Hm.
Qed.

Lemma keeps_try_catch {A} (m : M A) (handler : exn -> M A) :
  keeps R m -> (forall e, keeps R (handler e)) -> keeps R (try_catch m handler).
Proof.
  intros Hm Hh w. unfold try_catch. specialize (Hm w).
  destruct (m w) as [[a | e] w1]; simpl in *.
  - exact Hm.
  - eapply (pre_trans _ HR); [exact Hm | apply Hh].
Qed.


Lemma keeps_modify (f : World -> World) :
  (forall w, R w (f w)) -> keeps R (modify f).
Proof. intros Hf w. apply Hf. Qed.

Lemma keeps_Date_now (h : Host) :
  (forall w n, R w (with_ticks n w)) -> keeps R (Date_now_ h).
Proof. intros Hf w. apply Hf. Qed.

Lemma keeps_generateId (h : Host) :
  (forall w n, R w (with_draws n w)) -> keeps R (generateId h).
Proof. intros Hf w. apply Hf. Qed.

Lemma keeps_alloc (v : value) :
  (forall w hp, R w (with_heap (heap w ++ hp) w)) -> keeps R (alloc v).
Proof. intros Hf w. apply Hf. Qed.


End Keeps.

(** The composite calls are opened up to the primitive ones. *)
Ltac keeps_unfold :=
  first
    [ progress unfold existsSync | progress unfold readdirSync
    | progress unfold statSync | progress unfold readFile
    | progress unfold readPrefix | progress unfold parse
    | progress unfold log | progress unfold modify_service
    | progress unfold getCopilotChatStoragePath
    | progress unfold getWorkspaceName
    | progress unfold bump_errors | progress unfold bump_foldersScanned
    | progress unfold bump_skippedLarge | progress unfold bump_skippedCached
    | progress unfold set_chatsFound | progress unfold or_now
    | progress unfold deref | progress unfold getAllChats
    | progress unfold saveIndexToStorage ].

(** [keeps_go HR side] proves [keeps R m] by the structure of [m]; [side]
    proves that [R] holds across one primitive change of the world. *)
Ltac keeps_go HR side :=
  repeat
    (cbv beta;
     match goal with
     | |- keeps _ (bind _ _) => apply (keeps_bind _ HR); [ | intros ? ]
     | |- keeps _ (try_catch _ _) => apply (keeps_try_catch _ HR); [ | intros ? ]
     | |- keeps _ (ret _) => apply (keeps_ret _ HR)
     | |- keeps _ (throw _) => apply (keeps_throw _ HR)
     | |- keeps _ (lift _) => apply (keeps_lift _ HR)
     | |- keeps _ (gets _) => apply (keeps_gets _ HR)
     | |- keeps _ (modify _) => apply keeps_modify; intros; side
     | |- keeps _ (Date_now_ _) => apply keeps_Date_now; intros; side
     | |- keeps _ (generateId _) => apply keeps_generateId; intros; side
     | |- keeps _ (alloc _) => apply keeps_alloc; intros; side
     | |- keeps _ (if ?b then _ else _) => destruct b
     | |- keeps _ (match ?x with _ => _ end) => destruct x
     | |- keeps _ _ => keeps_unfold
     end).


Lemma preorder_both (R1 R2 : World -> World -> Prop) :
  preorder R1 -> preorder R2 -> preorder (both R1 R2).
Proof.
  intros H1 H2. split.
  - intros w. split; [apply (pre_refl _ H1) | apply (pre_refl _ H2)].
  - intros a b c [Hab1 Hab2] [Hbc1 Hbc2].
    split; [exact (pre_trans _ H1 _ _ _ Hab1 Hbc1)
           | exact (pre_trans _ H2 _ _ _ Hab2 Hbc2)].
Qed.


Lemma preorder_unchanged {X} (f : World -> X) : preorder (unchanged f).
Proof.
  split; unfold unchanged.
  - reflexivity.
  - intros a b c Hab Hbc. congruence.
Qed.


Lemma preorder_appends : preorder appends.
Proof.
  split; unfold appends.
  - intros w. exists []. rewrite app_nil_r. reflexivity.
  - intros a b c [e1 H1] [e2 H2]. exists (e1 ++ e2).
    rewrite H2, H1, app_assoc. reflexivity.
Qed.

Ltac side_appends :=
  unfold appends; simpl;
  first [ eexists; reflexivity
        | exists []; rewrite app_nil_r; reflexivity ].

Ltac side_unchanged := unfold unchanged; reflexivity.

(** ** The staleness cache *)

Lemma get_object (v : value) (k : string) :
  is_object v = true -> exists x, get v k = Ok x.
Proof.
  destruct v; simpl; try discriminate; intros _.
  - destruct (String.eqb k "length"); eauto.
  - eauto.
Qed.

Lemma try_catch_after_log {A B} (e : event) (r : M A) (K : A -> M B)
  (H : exn -> M B) (w : World) :
  try_catch (bind (log e ;;; r) K) H w
  = try_catch (bind r K) H (with_trace (trace w ++ [e]) w).
Proof. reflexivity. Qed.

(** Metadata extraction catches whatever is thrown inside it. *)
Lemma parseMetadataFast_returns h p ws sz w :
  exists x, fst (parseMetadataFast h p ws sz w) = Ok x.
Proof.
  unfold parseMetadataFast, try_catch.
  match goal with
  | |- context [match ?m w with _ => _ end] => destruct (m w) as [[x | e] w1]
  end.
  - eexists. reflexivity.
  - eexists. reflexivity.
Qed.

(** Metadata extraction begins by opening the file. *)
Lemma parseMetadataFast_opens h p ws sz w :
  exists evs, trace (snd (parseMetadataFast h p ws sz w))
              = trace w ++ OpenRead p :: evs.
Proof.
  unfold parseMetadataFast, readPrefix.
  rewrite try_catch_after_log.
  match goal with
  | |- context [try_catch ?b ?hd ?w1] =>
      assert (Hk : keeps appends (try_catch b hd))
  end.
  { pose proof preorder_appends as HR. keeps_go HR side_appends. }
  destruct (Hk (with_trace (trace w ++ [OpenRead p]) w)) as [evs Hevs].
  exists evs. rewrite Hevs. simpl. rewrite <- app_assoc. reflexivity.
Qed.


Lemma parseMetadataFast_cache_frame h p ws sz :
  keeps (both (unchanged cache_hits_of)
              (unchanged (fun w => fileMetaCache (service w))))
    (parseMetadataFast h p ws sz).
Proof.
  pose proof (preorder_both _ _ (preorder_unchanged cache_hits_of)
                (preorder_unchanged (fun w => fileMetaCache (service w)))) as HR.
  unfold parseMetadataFast.
  keeps_go HR ltac:(split; side_unchanged).
Qed.

(** C1.  A candidate whose path has a cache entry recording exactly its
    size and its modification time is served from the cache: the stored
    summary is returned, no call into the file system is made (so
    metadata extraction is not run), the heap and the cache are as
    before, and [skippedCached] has grown by one.  When there is no
    entry for the path, or the entry differs in size or in modification
    time, the call runs [parseMetadataFast] on the file, which opens it,
    and [skippedCached] stays as it is. *)
Theorem C1_staleness_cache (h : Host) (w : World) (c : Candidate) :
  (forall m,
     map_get (fileMetaCache (service w)) (VStr (filePath c)) = Some m ->
     meta_mtime m = mtimeMs (stats c) ->
     meta_size m = size (stats c) ->
     live w (meta_chat m) ->
     exists w',
       processFileFast h c w = (Ok (Some (meta_chat m)), w')
       /\ trace w' = trace w
       /\ heap w' = heap w
       /\ disk w' = disk w
       /\ fileMetaCache (service w') = fileMetaCache (service w)
       /\ skippedCached (_scanStats (service w'))
          = skippedCached (_scanStats (service w)) + 1
       /\ errors (_scanStats (service w')) = errors (_scanStats (service w)))
  /\
  ((map_get (fileMetaCache (service w)) (VStr (filePath c)) = None
    \/ exists m,
         map_get (fileMetaCache (service w)) (VStr (filePath c)) = Some m
         /\ (meta_mtime m <> mtimeMs (stats c) \/ meta_size m <> size (stats c))) ->
   exists chat evs w',
     parseMetadataFast h (filePath c) (workspaceId c) (size (stats c)) w
     = (Ok chat, w')
     /\ processFileFast_begin h c w = (Ok (Awaiting chat), w')
     /\ trace w' = trace w ++ OpenRead (filePath c) :: evs
     /\ skippedCached (_scanStats (service w'))
        = skippedCached (_scanStats (service w))).
Proof.
  split.
  - intros m Hget Hm Hs Hlive.
    destruct (get_object _ "id" Hlive) as [id Hid].
    unfold processFileFast, processFileFast_begin, bind, gets.
    rewrite Hget, Hm, Hs, !Z.eqb_refl. cbn.
    unfold deref, gets, lift. cbn. rewrite Hid. cbn.
    eexists. repeat split.
  - intros Hmiss.
    destruct (parseMetadataFast_returns h (filePath c) (workspaceId c)
                (size (stats c)) w) as [chat Hchat].
    destruct (parseMetadataFast_opens h (filePath c) (workspaceId c)
                (size (stats c)) w) as [evs Hevs].
    destruct (parseMetadataFast_cache_frame h (filePath c) (workspaceId c)
                (size (stats c)) w) as [Hhits _].
    unfold unchanged, cache_hits_of in Hhits.
    destruct (parseMetadataFast h (filePath c) (workspaceId c)
                (size (stats c)) w) as [r w'] eqn:Hrun.
    simpl in Hchat, Hevs, Hhits. subst r.
    exists chat, evs, w'. split; [reflexivity | ]. split; [ | split; assumption ].
    unfold processFileFast_begin, bind, gets.
    destruct Hmiss as [Hnone | [m [Hsome Hdiff]]].
    + rewrite Hnone. rewrite Hrun. reflexivity.
    + rewrite Hsome.
      assert (Hneq : (meta_mtime m =? mtimeMs (stats c))
                     && (meta_size m =? size (stats c)) = false).
      { apply andb_false_iff.
        destruct Hdiff as [Hd | Hd]; [left | right]; apply Z.eqb_neq; exact Hd. }
      rewrite Hneq. rewrite Hrun. reflexivity.
Qed.

Lemma C1_staleness_cache_witness :
  exists w',
    processFileFast scan_host s1_candidate scanned_world = (Ok (Some 0%nat), w')
    /\ trace w' = trace scanned_world
    /\ skippedCached (_scanStats (service w')) = 1.
Proof.
  destruct (C1_staleness_cache scan_host scanned_world s1_candidate) as [Hhit _].
  destruct (Hhit {| meta_id := VStr "s1"; meta_filePath := filePath s1_candidate;
                    meta_mtime := 5; meta_size := 186; meta_chat := 0%nat |})
    as [w' [Hrun [Htrace [_ [_ [_ [Hcount _]]]]]]];
    [ vm_compute; reflexivity | reflexivity | reflexivity
    | vm_compute; reflexivity | ].
  exists w'. split; [exact Hrun | split; [exact Htrace | exact Hcount]].
Defined.

(** ** The freshness window of the scan *)

(** C9, as stated, fails: a scan that completed and found no session
    leaves an empty index, and a second scan issued two milliseconds
    later walks the directories and opens the file again. *)
Lemma C9_empty_index_rescans :
  let w1 := snd (scanAllChatHistories scan_host false idle_world) in
  let w2 := snd (scanAllChatHistories scan_host false w1) in
  _scanInProgress (service w1) = false
  /\ _lastScanTime (service w1) = 1002
  /\ Date_now scan_host (ticks w1) - _lastScanTime (service w1) = 2
  /\ trace w2
     = trace w1 ++
       [ ExistsSync Example.root; ReaddirSync Example.root;
         ExistsSync sessions_dir; ReaddirSync sessions_dir;
         StatSync (sessions_dir +++ "/s0.json");
         OpenRead (sessions_dir +++ "/s0.json") ].
Proof. vm_compute. repeat split; reflexivity. Qed.

(** C9, amended.  When no scan is in progress, the last scan ended less
    than 30000 milliseconds before the clock is read, no refresh is
    forced and the index is not empty, a scan request returns the
    current snapshot of the index and does nothing but read the clock:
    no call into the file system is made and the service is as it
    was. *)
Theorem C9_fresh_scan_short_circuits (h : Host) (w : World) :
  _scanInProgress (service w) = false ->
  Date_now h (ticks w) - _lastScanTime (service w) < 30000 ->
  cachedChats (service w) <> [] ->
  exists w',
    scanAllChatHistories h false w
    = (Ok (map_values (cachedChats (service w))), w')
    /\ getAllChats w' = (Ok (map_values (cachedChats (service w))), w')
    /\ trace w' = trace w
    /\ service w' = service w
    /\ heap w' = heap w
    /\ disk w' = disk w.
Proof.
  intros Hidle Hfresh Hsome.
  exists (with_ticks (S (ticks w)) w).
  unfold scanAllChatHistories, bind, gets, getAllChats, Date_now_.
  rewrite Hidle. cbn.
  apply Z.ltb_lt in Hfresh. rewrite Hfresh.
  destruct (cachedChats (service w)) as [| entry rest] eqn:Hcache;
    [ contradiction | ].
  cbn. unfold gets. cbn. rewrite Hcache. repeat split.
Qed.

Lemma C9_fresh_scan_short_circuits_witness :
  exists w',
    scanAllChatHistories scan_host false scanned_world = (Ok [0%nat], w')
    /\ trace w' = trace scanned_world.
Proof.
  destruct (C9_fresh_scan_short_circuits scan_host scanned_world)
    as [w' [Hrun [_ [Htrace _]]]];
    [ reflexivity | vm_compute; reflexivity | vm_compute; discriminate | ].
  exists w'. split; [exact Hrun | exact Htrace].
Defined.

(** ** Inversion of runs *)

Lemma bind_ok {S A B} (m : ST S A) (k : A -> ST S B) s b s' :
  bind m k s = (Ok b, s') ->
  exists a s1, m s = (Ok a, s1) /\ k a s1 = (Ok b, s').
Proof.
  unfold bind. destruct (m s) as [[a | e] s1]; intros H.
  - exists a, s1. split; [reflexivity | exact H].
  - discriminate H.
Qed.

Lemma bind_assoc {S A B C} (m : ST S A) (f : A -> ST S B) (g : B -> ST S C) s :
  bind (bind m f) g s = bind m (fun a => bind (f a) g) s.
Proof. unfold bind. destruct (m s) as [[a | e] s1]; reflexivity. Qed.

Lemma lift_ok {S A} (r : result A) (s : S) a s' :
  lift r s = (Ok a, s') -> r = Ok a /\ s' = s.
Proof. unfold lift. intros H. inversion H. split; reflexivity. Qed.

Lemma ret_ok {S A} (x : A) (s : S) a s' :
  ret x s = (Ok a, s') -> a = x /\ s' = s.
Proof. unfold ret. intros H. inversion H. split; reflexivity. Qed.

Lemma gets_ok {S A} (f : S -> A) (s : S) a s' :
  gets f s = (Ok a, s') -> a = f s /\ s' = s.
Proof. unfold gets. intros H. inversion H. split; reflexivity. Qed.

Lemma alloc_ok v w r w' :
  alloc v w = (Ok r, w') ->
  r = List.length (heap w) /\ w' = with_heap (heap w ++ [v]) w.
Proof. unfold alloc. intros H. inversion H. split; reflexivity. Qed.

Lemma try_catch_returns_some {A} (m : M (option A)) (hd : exn -> M unit) w r w' :
  try_catch m (fun e => hd e ;;; ret None) w = (Ok (Some r), w') ->
  m w = (Ok (Some r), w').
Proof.
  unfold try_catch. destruct (m w) as [[a | e] w1]; intros H.
  - exact H.
  - unfold bind in H. destruct (hd e w1) as [[u | e'] w2]; discriminate H.
Qed.

Lemma try_catch_null_some {A} (m : M (option A)) w r w' :
  try_catch m (fun _ => ret None) w = (Ok (Some r), w') ->
  m w = (Ok (Some r), w').
Proof.
  unfold try_catch. destruct (m w) as [[a | e] w1]; intros H.
  - exact H.
  - discriminate H.
Qed.

Lemma keeps_run {A} R (m : M A) w r w' : keeps R m -> m w = (r, w') -> R w w'.
Proof. intros Hk Hrun. specialize (Hk w). rewrite Hrun in Hk. exact Hk. Qed.

Lemma preorder_same_store : preorder same_store.
Proof.
  split; unfold same_store.
  - intros w. split; reflexivity.
  - intros a b c [H1 H2] [H3 H4]. split; congruence.
Qed.

Lemma preorder_same_state : preorder same_state.
Proof.
  split; unfold same_state.
  - intros w. repeat split; reflexivity.
  - intros a b c [H1 [H2 H3]] [H4 [H5 H6]]. repeat split; congruence.
Qed.

Ltac side_same_store := unfold same_store; split; reflexivity.
Ltac side_same_state := unfold same_state; repeat split; reflexivity.

Lemma getWorkspaceName_store h ws : keeps same_store (getWorkspaceName h ws).
Proof. pose proof preorder_same_store as HR. keeps_go HR side_same_store. Qed.

Lemma or_now_store h v : keeps same_store (or_now h v).
Proof. pose proof preorder_same_store as HR. keeps_go HR side_same_store. Qed.

(** One step of the inversion of a run [H] that returned. *)
Ltac step H :=
  lazymatch type of H with
  | bind (lift _) _ _ = (Ok _, _) =>
      let a := fresh "a" in let w1 := fresh "w" in
      let E := fresh "E" in let Ew := fresh "Ew" in
      apply bind_ok in H; destruct H as [a [w1 [E H]]];
      apply lift_ok in E; destruct E as [E Ew]; subst w1; cbv beta in H
  | bind (gets _) _ _ = (Ok _, _) =>
      let a := fresh "a" in let w1 := fresh "w" in
      let E := fresh "E" in let Ew := fresh "Ew" in
      apply bind_ok in H; destruct H as [a [w1 [E H]]];
      apply gets_ok in E; destruct E as [E Ew]; subst w1; cbv beta in H
  | bind (or_now ?h ?v) _ _ = (Ok _, _) =>
      let a := fresh "a" in let w1 := fresh "w" in let E := fresh "E" in
      apply bind_ok in H; destruct H as [a [w1 [E H]]];
      apply (keeps_run _ _ _ _ _ (or_now_store h v)) in E; cbv beta in H
  | bind (getWorkspaceName ?h ?ws) _ _ = (Ok _, _) =>
      let a := fresh "a" in let w1 := fresh "w" in let E := fresh "E" in
      apply bind_ok in H; destruct H as [a [w1 [E H]]];
      apply (keeps_run _ _ _ _ _ (getWorkspaceName_store h ws)) in E;
      cbv beta in H
  | bind (alloc _) _ _ = (Ok _, _) =>
      let a := fresh "a" in let w1 := fresh "w" in let E := fresh "E" in
      apply bind_ok in H; destruct H as [a [w1 [E H]]];
      apply alloc_ok in E; destruct E as [? ?]; cbv beta in H
  | bind _ _ _ = (Ok _, _) =>
      let a := fresh "a" in let w1 := fresh "w" in let E := fresh "E" in
      apply bind_ok in H; destruct H as [a [w1 [E H]]]; cbv beta in H
  | (if ?b then _ else _) _ = (Ok _, _) =>
      let Hb := fresh "Hb" in destruct b eqn:Hb
  | ret _ _ = (Ok _, _) =>
      let E := fresh "E" in
      apply ret_ok in H; destruct H as [E H]
  end.

Lemma nth_fresh (hp : list value) (v : value) :
  nth (List.length hp) (hp ++ [v]) VUndefined = v.
Proof. rewrite app_nth2, Nat.sub_diag; [reflexivity | lia]. Qed.

(** ** Metadata extraction *)

Lemma read_document h p sz w data w1 :
  (content <- readPrefix p (Z.min sz (METADATA_READ_BYTES * 4)) ;;
   try_catch (parse h content)
     (fun _ => full <- readFile p ;; parse h full)) w = (Ok data, w1) ->
  extracted_document h w p sz = Some data /\ same_store w w1.
Proof.
  unfold extracted_document, readPrefix, readFile, parse, try_catch, bind, log,
    modify, gets, throw, ret, same_store.
  simpl.
  destruct (contents (disk w) p) as [text | ] eqn:Hc; [ | discriminate ].
  destruct (JSON_parse h (fill_buffer _ text)) as [d | ]; simpl.
  - intros H. inversion H. subst. repeat split.
  - rewrite Hc. destruct (JSON_parse h text) as [d | ]; simpl;
      intros H; inversion H. subst. repeat split.
Qed.

(** What a successful metadata extraction has read and built. *)
Lemma parseMetadataFast_summary h p ws sz w r w' :
  parseMetadataFast h p ws sz w = (Ok (Some r), w') ->
  exists data requests count,
    extracted_document h w p sz = Some data
    /\ get data "requests" = Ok requests
    /\ truthy requests = true
    /\ get requests "length" = Ok count
    /\ get (chat_at w' r) "messageCount" = Ok (times h count 2)
    /\ get (chat_at w' r) "messages" = Ok (arr [])
    /\ get (chat_at w' r) "fileSize" = Ok (VNum sz)
    /\ r = List.length (heap w)
    /\ heap w' = heap w ++ [chat_at w' r].
Proof.
  intros H.
  unfold parseMetadataFast in H.
  apply try_catch_returns_some in H.
  rewrite <- bind_assoc in H.
  step H. apply read_document in E. destruct E as [Hdoc Hstore].
  step H. step H; [ step H; discriminate | ].
  step H. step H; [ step H; discriminate | ].
  repeat step H.
  match goal with Hs : Some _ = Some _ |- _ => inversion Hs end.
  unfold same_store in *.
  assert (Hheap : heap w3 = heap w) by intuition congruence.
  subst. unfold chat_at. simpl. rewrite Hheap, nth_fresh.
  exists a, a0, a1. repeat split; try assumption.
  apply negb_false_iff. assumption.
Qed.

(** ** Full-content loading *)

Lemma get_total (v : value) (k : string) :
  nullish v = false -> exists x, get v k = Ok x.
Proof.
  destruct v; simpl; try discriminate; intros _; eauto;
    destruct (String.eqb k "length"); eauto.
Qed.

Lemma turnMessages_state h data request : keeps same_state (turnMessages h data request).
Proof.
  pose proof preorder_same_state as HR. unfold turnMessages.
  keeps_go HR side_same_state.
Qed.

Lemma collectMessages_state h data requests :
  keeps same_state (collectMessages h data requests).
Proof.
  pose proof preorder_same_state as HR.
  induction requests as [| request rest IH]; simpl.
  - apply (keeps_ret _ HR).
  - apply (keeps_bind _ HR); [apply turnMessages_state | intros ms].
    apply (keeps_bind _ HR); [exact IH | intros more].
    apply (keeps_ret _ HR).
Qed.

Lemma readFile_ok p w text w1 :
  readFile p w = (Ok text, w1) ->
  contents (disk w) p = Some text /\ same_state w w1.
Proof.
  unfold readFile, bind, log, modify, gets, ret, throw, same_state. simpl.
  destruct (contents (disk w) p) as [t | ]; intros H; inversion H.
  subst. repeat split.
Qed.

Lemma parse_ok h text w data w1 :
  parse h text w = (Ok data, w1) -> JSON_parse h text = Some data /\ w1 = w.
Proof.
  unfold parse, ret, throw. destruct (JSON_parse h text); intros H; inversion H.
  split; reflexivity.
Qed.

Lemma store_at_nth (hp : list value) (r : ref) (v : value) :
  (r < List.length hp)%nat -> nth r (store_at hp r v) VUndefined = v.
Proof.
  revert r. induction hp as [| x hp IH]; intros r Hr; simpl in Hr.
  - lia.
  - destruct r as [| r']; simpl; [reflexivity | apply IH; lia].
Qed.

Lemma lookup_assign_same fs k x : lookup (assign fs k x) k = x.
Proof.
  induction fs as [| [k' v'] fs IH]; simpl.
  - rewrite String.eqb_refl. reflexivity.
  - destruct (String.eqb k' k) eqn:Hk; simpl.
    + rewrite String.eqb_refl. reflexivity.
    + rewrite Hk. exact IH.
Qed.

Lemma lookup_assign_other fs k x k' :
  k' <> k -> lookup (assign fs k x) k' = lookup fs k'.
Proof.
  intros Hne. induction fs as [| [k0 v0] fs IH]; simpl.
  - assert (String.eqb k k' = false) as -> by (apply String.eqb_neq; congruence).
    reflexivity.
  - destruct (String.eqb k0 k) eqn:Hk; simpl.
    + apply String.eqb_eq in Hk. subst k0.
      assert (String.eqb k k' = false) as -> by (apply String.eqb_neq; congruence).
      reflexivity.
    + destruct (String.eqb k0 k'); [reflexivity | exact IH].
Qed.

(** Assignment to an object and the reads that follow it. *)
Lemma set_get_object v k x :
  is_object v = true ->
  exists v',
    set v k x = Ok v' /\ is_object v' = true
    /\ (k <> "length" -> get v' k = Ok x)
    /\ (forall k', k' <> k -> get v' k' = get v k').
Proof.
  destruct v; simpl; try discriminate; intros _.
  - exists (VArr elems (assign props k x)). repeat split.
    + intros Hk. simpl. apply String.eqb_neq in Hk. rewrite Hk.
      rewrite lookup_assign_same. reflexivity.
    + intros k' Hk'. simpl. destruct (String.eqb k' "length"); [reflexivity | ].
      rewrite lookup_assign_other by exact Hk'. reflexivity.
  - exists (VObj (assign fields k x)). repeat split.
    + intros _. simpl. rewrite lookup_assign_same. reflexivity.
    + intros k' Hk'. simpl. rewrite lookup_assign_other by exact Hk'. reflexivity.
Qed.

Lemma live_in_range w r : live w r -> (r < List.length (heap w))%nat.
Proof.
  unfold live. intros H.
  destruct (Nat.lt_ge_cases r (List.length (heap w))) as [Hlt | Hge]; [exact Hlt | ].
  rewrite nth_overflow in H by exact Hge. discriminate H.
Qed.

Lemma shape_absent_inv probe request :
  shape_absent probe request = true ->
  exists v, probe request = Ok v /\ truthy v = false.
Proof.
  unfold shape_absent. destruct (probe request) as [v | e]; [ | discriminate].
  intros H. exists v. split; [reflexivity | ].
  destruct (truthy v); [discriminate | reflexivity].
Qed.

Lemma no_shape_extract h request :
  no_recognized_shape request = true ->
  extractResponseText h request = Ok (VStr "") /\ nullish request = false.
Proof.
  unfold no_recognized_shape. intros H.
  apply andb_prop in H. destruct H as [H H4].
  apply andb_prop in H. destruct H as [H H3].
  apply andb_prop in H. destruct H as [H1 H2].
  apply shape_absent_inv in H1, H2, H3, H4.
  destruct H1 as [v1 [E1 T1]]. destruct H2 as [v2 [E2 T2]].
  destruct H3 as [v3 [E3 T3]]. destruct H4 as [v4 [E4 T4]].
  split.
  - unfold extractResponseText. rewrite E1. simpl. rewrite T1.
    rewrite E2. simpl. rewrite T2. rewrite E3. simpl. rewrite T3.
    rewrite E4. simpl. rewrite T4. reflexivity.
  - destruct request; try reflexivity; discriminate E1.
Qed.


(** A turn whose response matches no recognised shape contributes its
    user message, if it has a text, and nothing else. *)
Lemma turn_without_response h data request w :
  no_recognized_shape request = true ->
  nullish data = false ->
  exists ms w',
    turnMessages h data request w = (Ok ms, w')
    /\ List.length ms = (if truthy (request_text request) then 1 else 0)%nat
    /\ (forall m, In m ms ->
          get m "role" = Ok (VStr "user")
          /\ get m "content" = Ok (request_text request)).
Proof.
  intros Hshape Hdata.
  destruct (no_shape_extract h request Hshape) as [Hext Hreq].
  destruct (get_total request "message" Hreq) as [msg Hmsg].
  unfold request_text. rewrite Hmsg. simpl.
  unfold turnMessages. unfold bind at 1. unfold lift at 1. rewrite Hmsg.
  destruct (truthy (get_opt msg "text")) eqn:Htext.
  - assert (Hnn : nullish msg = false).
    { destruct msg; try reflexivity; discriminate Htext. }
    destruct (get_total msg "text" Hnn) as [t Ht].
    destruct (get_total msg "timestamp" Hnn) as [st Hst].
    destruct (get_total data "creationDate" Hdata) as [cd Hcd].
    assert (Hgo : get_opt msg "text" = t).
    { unfold get_opt. rewrite Ht. destruct msg; try discriminate Hnn; reflexivity. }
    unfold bind, lift, generateId. simpl. rewrite Ht, Hst. simpl.
    rewrite Hext. simpl.
    destruct (truthy st) eqn:Hstamp; simpl.
    + eexists _, _. split; [reflexivity | ]. split; [reflexivity | ].
      intros m [<- | []]. simpl. rewrite Hgo. split; reflexivity.
    + rewrite Hcd. simpl. unfold or_now.
      destruct (truthy cd); simpl.
      * eexists _, _. split; [reflexivity | ]. split; [reflexivity | ].
        intros m [<- | []]. simpl. rewrite Hgo. split; reflexivity.
      * eexists _, _. split; [reflexivity | ]. split; [reflexivity | ].
        intros m [<- | []]. simpl. rewrite Hgo. split; reflexivity.
  - unfold bind, lift, ret. simpl. rewrite Hext. simpl.
    eexists _, _. split; [reflexivity | ]. split; [reflexivity | ].
    intros m [].
Qed.

Lemma collectMessages_split h data pre request post w ms w' :
  collectMessages h data (pre ++ request :: post) w = (Ok ms, w') ->
  exists before turn after w1 w2,
    collectMessages h data pre w = (Ok before, w1)
    /\ turnMessages h data request w1 = (Ok turn, w2)
    /\ collectMessages h data post w2 = (Ok after, w')
    /\ ms = before ++ turn ++ after.
Proof.
  revert w ms. induction pre as [| x pre IH]; intros w ms H; simpl in H.
  - step H. step H. step H. subst.
    exists [], a, a0, w, w0. repeat split; assumption.
  - step H. step H. step H. subst.
    destruct (IH _ _ E0) as [before [turn [after [w2 [w3 [H1 [H2 [H3 Heq]]]]]]]].
    exists (a ++ before), turn, after, w2, w3. simpl. repeat split; try assumption.
    + unfold bind. rewrite E, H1. reflexivity.
    + rewrite Heq, app_assoc. reflexivity.
Qed.

Lemma bind_gets {S A B} (f : S -> A) (k : A -> ST S B) (s : S) :
  bind (gets f) k s = k (f s) s.
Proof. reflexivity. Qed.

Lemma bind_run_ok {S A B} (m : ST S A) (k : A -> ST S B) (s s1 : S) (a : A) :
  m s = (Ok a, s1) -> bind m k s = k a s1.
Proof. intros H. unfold bind. rewrite H. reflexivity. Qed.

Lemma bind_lift_ok {S A B} (a : A) (k : A -> ST S B) (s : S) :
  bind (lift (Ok a)) k s = k a s.
Proof. reflexivity. Qed.

Lemma readFile_run p w text :
  contents (disk w) p = Some text ->
  readFile p w = (Ok text, with_trace (trace w ++ [ReadFile p]) w).
Proof.
  intros H. unfold readFile, bind, log, modify, gets. simpl. rewrite H. reflexivity.
Qed.

Lemma try_catch_default_returns {A} (m : M A) (d : A) (w : World) :
  exists r w', try_catch m (fun _ => ret d) w = (Ok r, w').
Proof.
  unfold try_catch. destruct (m w) as [[x | e] w1]; eexists _, _; reflexivity.
Qed.

(** Full-content loading catches whatever is thrown inside it. *)
Lemma loadFullChat_returns h chatId w :
  exists r w', loadFullChat h chatId w = (Ok r, w').
Proof.
  unfold loadFullChat. rewrite bind_gets.
  destruct (map_get (chatFilePaths (service w)) chatId) as [p | ];
    [ | eexists _, _; reflexivity ].
  destruct (String.eqb p ""); [ eexists _, _; reflexivity | ].
  apply try_catch_default_returns.
Qed.

Lemma get_ok_not_nullish v k x : get v k = Ok x -> nullish v = false.
Proof. destruct v; simpl; intros H; try reflexivity; discriminate H. Qed.

Lemma or_now_runs h v w :
  exists t w', or_now h v w = (Ok t, w') /\ same_state w w'.
Proof.
  unfold or_now. destruct (truthy v).
  - exists v, w. split; [reflexivity | repeat split].
  - eexists _, _. split; [reflexivity | repeat split].
Qed.

Lemma generateId_runs h w :
  exists id w', generateId h w = (Ok id, w') /\ same_state w w'.
Proof. eexists _, _. split; [reflexivity | repeat split]. Qed.

Lemma same_state_trans a b c : same_state a b -> same_state b c -> same_state a c.
Proof. apply (pre_trans _ preorder_same_state). Qed.

Lemma turnMessages_outline h data request w :
  nullish data = false ->
  turn_loads h request = true ->
  exists ms w',
    turnMessages h data request w = (Ok ms, w')
    /\ same_state w w'
    /\ map message_outline ms = turn_outline h request.
Proof.
  intros Hdata Hloads. unfold turn_loads in Hloads.
  destruct (extractResponseText h request) as [text | e] eqn:Hext; [ | discriminate].
  assert (Hreq : nullish request = false).
  { destruct request; try reflexivity; discriminate Hext. }
  destruct (get_total request "message" Hreq) as [msg Hmsg].
  destruct (get_total request "responseCompleteDate" Hreq) as [completed Hdone].
  destruct (get_total data "creationDate" Hdata) as [cd Hcd].
  destruct (get_total data "lastMessageDate" Hdata) as [lmd Hlmd].
  unfold turn_outline, user_outline, assistant_outline, request_text.
  rewrite Hext, Hmsg. simpl or_else.
  assert (Huser :
    exists user w1,
      (if truthy (get_opt msg "text") then
         id <- generateId h ;;
         content <- lift (rbind (get request "message") (fun m => get m "text")) ;;
         stamp <- lift (rbind (get request "message") (fun m => get m "timestamp")) ;;
         creationDate <- (if truthy stamp then ret VUndefined
                          else lift (get data "creationDate")) ;;
         t <- (if truthy stamp then ret stamp else or_now h creationDate) ;;
         ret [message_object id "user" content (new_Date h t)]
       else ret []) w = (Ok user, w1)
      /\ same_state w w1
      /\ map message_outline user
         = (if truthy (get_opt msg "text")
            then [(Ok (VStr "user"), Ok (get_opt msg "text"))] else [])).
  { destruct (truthy (get_opt msg "text")) eqn:Htext.
    - assert (Hnn : nullish msg = false).
      { destruct msg; try reflexivity; discriminate Htext. }
      destruct (get_total msg "text" Hnn) as [t Ht].
      destruct (get_total msg "timestamp" Hnn) as [st Hst].
      assert (Hgo : get_opt msg "text" = t).
      { unfold get_opt. rewrite Ht. destruct msg; try discriminate Hnn; reflexivity. }
      rewrite Hgo, Hmsg. simpl rbind. rewrite Ht, Hst.
      unfold bind at 1. unfold generateId at 1.
      rewrite !bind_lift_ok.
      destruct (truthy st).
      + eexists _, _. split; [reflexivity | split; [repeat split | reflexivity]].
      + rewrite Hcd. rewrite bind_lift_ok.
        destruct (or_now_runs h cd (with_draws (S (draws w)) w))
          as [t' [w1 [Hnow Hsame]]].
        rewrite (bind_run_ok _ _ _ _ _ Hnow).
        eexists _, _. split; [reflexivity | split; [ | reflexivity]].
        apply (same_state_trans _ (with_draws (S (draws w)) w)); [repeat split | exact Hsame].
    - exists [], w. split; [reflexivity | split; [repeat split | reflexivity]]. }
  destruct Huser as [user [w1 [Hrun1 [Hsame1 Hout1]]]].
  assert (Hassistant :
    exists assistant w2,
      (if truthy text then
         id <- generateId h ;;
         completed <- lift (get request "responseCompleteDate") ;;
         lastMessageDate <- (if truthy completed then ret VUndefined
                             else lift (get data "lastMessageDate")) ;;
         t <- (if truthy completed then ret completed else or_now h lastMessageDate) ;;
         ret [message_object id "assistant" text (new_Date h t)]
       else ret []) w1 = (Ok assistant, w2)
      /\ same_state w1 w2
      /\ map message_outline assistant
         = (if truthy text then [(Ok (VStr "assistant"), Ok text)] else [])).
  { destruct (truthy text).
    - rewrite Hdone. unfold bind at 1. unfold generateId at 1.
      rewrite !bind_lift_ok.
      destruct (truthy completed).
      + eexists _, _. split; [reflexivity | split; [repeat split | reflexivity]].
      + rewrite Hlmd. rewrite bind_lift_ok.
        destruct (or_now_runs h lmd (with_draws (S (draws w1)) w1))
          as [t' [w2 [Hnow Hsame]]].
        rewrite (bind_run_ok _ _ _ _ _ Hnow).
        eexists _, _. split; [reflexivity | split; [ | reflexivity]].
        apply (same_state_trans _ (with_draws (S (draws w1)) w1)); [repeat split | exact Hsame].
    - exists [], w1. split; [reflexivity | split; [repeat split | reflexivity]]. }
  destruct Hassistant as [assistant [w2 [Hrun2 [Hsame2 Hout2]]]].
  exists (user ++ assistant), w2. split; [ | split ].
  - assert (Hfirst : lift (S := World) (get request "message") w = (Ok msg, w))
      by (unfold lift; rewrite Hmsg; reflexivity).
    assert (Hprobe : lift (S := World) (extractResponseText h request) w1
                     = (Ok text, w1))
      by (unfold lift; rewrite Hext; reflexivity).
    unfold turnMessages.
    rewrite (bind_run_ok _ _ _ _ _ Hfirst).
    rewrite (bind_run_ok _ _ _ _ _ Hrun1).
    rewrite (bind_run_ok _ _ _ _ _ Hprobe).
    rewrite (bind_run_ok _ _ _ _ _ Hrun2). reflexivity.
  - exact (same_state_trans _ _ _ Hsame1 Hsame2).
  - rewrite map_app, Hout1, Hout2. reflexivity.
Qed.

Lemma collectMessages_outline h data turns w :
  nullish data = false ->
  forallb (turn_loads h) turns = true ->
  exists ms w',
    collectMessages h data turns w = (Ok ms, w')
    /\ same_state w w'
    /\ map message_outline ms = flat_map (turn_outline h) turns.
Proof.
  intros Hdata. revert w.
  induction turns as [| request rest IH]; intros w Hloads; simpl.
  - exists [], w. split; [reflexivity | split; [repeat split | reflexivity]].
  - simpl in Hloads. apply andb_prop in Hloads. destruct Hloads as [Hfirst Hrest].
    destruct (turnMessages_outline h data request w Hdata Hfirst)
      as [ms [w1 [Hrun1 [Hsame1 Hout1]]]].
    destruct (IH w1 Hrest) as [more [w2 [Hrun2 [Hsame2 Hout2]]]].
    exists (ms ++ more), w2. split; [ | split ].
    + rewrite (bind_run_ok _ _ _ _ _ Hrun1), (bind_run_ok _ _ _ _ _ Hrun2).
      reflexivity.
    + exact (same_state_trans _ _ _ Hsame1 Hsame2).
    + rewrite map_app, Hout1, Hout2. reflexivity.
Qed.


(** A load whose file reads, parses and has turns the loader can read
    returns the indexed chat, having stored in it the messages of the
    turns and their number. *)
Lemma loadFullChat_loads h chatId w p text data requests turns r :
  map_get (chatFilePaths (service w)) chatId = Some p ->
  p <> "" ->
  contents (disk w) p = Some text ->
  JSON_parse h text = Some data ->
  get data "requests" = Ok requests ->
  iterate (or requests (arr [])) = Ok turns ->
  forallb (turn_loads h) turns = true ->
  map_get (cachedChats (service w)) chatId = Some r ->
  live w r ->
  exists w' w1 w2 messages,
    loadFullChat h chatId w = (Ok (Some r), w')
    /\ collectMessages h data turns w1 = (Ok messages, w2)
    /\ get (chat_at w' r) "messages" = Ok (arr messages)
    /\ get (chat_at w' r) "messageCount"
       = Ok (VNum (Z.of_nat (List.length messages)))
    /\ map message_outline messages = flat_map (turn_outline h) turns.
Proof.
  intros Hpath Hp Htext Hparse Hreq Hturns Hloads Hchat Hlive.
  pose proof (get_ok_not_nullish _ _ _ Hreq) as Hdata.
  set (w1 := with_trace (trace w ++ [ReadFile p]) w).
  destruct (collectMessages_outline h data turns w1 Hdata Hloads)
    as [messages [w2 [Hcollect [[Hheap [_ Hservice]] Hout]]]].
  assert (Hobj : is_object (nth r (heap w2) VUndefined) = true).
  { rewrite Hheap. exact Hlive. }
  assert (Hrange : (r < List.length (heap w2))%nat).
  { rewrite Hheap. apply (live_in_range w). exact Hlive. }
  destruct (set_get_object _ "messages" (arr messages) Hobj)
    as [v1 [Hset1 [Hobj1 [Hg1 _]]]].
  destruct (set_get_object _ "messageCount"
              (VNum (Z.of_nat (List.length messages))) Hobj1)
    as [v2 [Hset2 [_ [Hg2 Hother]]]].
  exists (with_heap (store_at (heap w2) r v2) w2), w1, w2, messages.
  split; [ | split; [exact Hcollect | split; [ | split; [ | exact Hout]]]].
  - unfold loadFullChat. rewrite bind_gets, Hpath.
    apply String.eqb_neq in Hp. rewrite Hp.
    unfold try_catch.
    rewrite (bind_run_ok _ _ _ _ _ (readFile_run p w text Htext)).
    fold w1.
    assert (Hp1 : parse h text w1 = (Ok data, w1))
      by (unfold parse; rewrite Hparse; reflexivity).
    rewrite (bind_run_ok _ _ _ _ _ Hp1).
    rewrite Hreq, bind_lift_ok, Hturns, bind_lift_ok.
    rewrite (bind_run_ok _ _ _ _ _ Hcollect).
    rewrite bind_gets.
    change (service w1) with (service w) in Hservice.
    rewrite Hservice, Hchat.
    unfold deref. rewrite bind_gets.
    rewrite Hset1, bind_lift_ok, Hset2, bind_lift_ok.
    reflexivity.
  - unfold chat_at. simpl. rewrite store_at_nth by exact Hrange.
    rewrite Hother by discriminate. apply Hg1. discriminate.
  - unfold chat_at. simpl. rewrite store_at_nth by exact Hrange.
    apply Hg2. discriminate.
Qed.

Lemma no_shape_loads h request :
  no_recognized_shape request = true ->
  turn_loads h request = true /\ assistant_outline h request = [].
Proof.
  intros H. destruct (no_shape_extract h request H) as [Hext _].
  unfold turn_loads, assistant_outline. rewrite Hext. split; reflexivity.
Qed.

Lemma forallb_middle {A} (f : A -> bool) (pre post : list A) (a : A) :
  forallb f pre = true -> f a = true -> forallb f post = true ->
  forallb f (pre ++ a :: post) = true.
Proof.
  intros Hpre Ha Hpost. rewrite forallb_app. simpl.
  rewrite Hpre, Ha, Hpost. reflexivity.
Qed.

(** C7.  Let the file of an indexed chat read and parse, and let one of the
    turns of its [requests] be such that none of the four probes of
    [extractResponseText] finds a value, the turns before and after it
    being turns the loader can read.  Then the full-content load returns
    the chat, and the message list it has stored in the chat is: the
    messages of the turns before, then for this turn its user message
    alone when the request has a text and nothing when it has none, and
    never an assistant message, then the messages of the turns after.
    And a full-content load returns (a chat or [null]) without throwing,
    whatever the identity, the file and the state. *)
Theorem C7_turn_without_response (h : Host) (chatId : value) (w : World)
  (p text : string) (data requests : value) (pre post : list value)
  (request : value) (r : ref) :
  map_get (chatFilePaths (service w)) chatId = Some p ->
  p <> "" ->
  contents (disk w) p = Some text ->
  JSON_parse h text = Some data ->
  get data "requests" = Ok requests ->
  iterate (or requests (arr [])) = Ok (pre ++ request :: post) ->
  no_recognized_shape request = true ->
  forallb (turn_loads h) pre = true ->
  forallb (turn_loads h) post = true ->
  map_get (cachedChats (service w)) chatId = Some r ->
  live w r ->
  (exists w' before own after,
     loadFullChat h chatId w = (Ok (Some r), w')
     /\ get (chat_at w' r) "messages" = Ok (arr (before ++ own ++ after))
     /\ map message_outline before = flat_map (turn_outline h) pre
     /\ map message_outline own
        = (if truthy (request_text request)
           then [(Ok (VStr "user"), Ok (request_text request))]
           else [])
     /\ map message_outline after = flat_map (turn_outline h) post)
  /\ (forall chatId' w0, exists res w1, loadFullChat h chatId' w0 = (Ok res, w1)).
Proof.
  intros Hpath Hp Htext Hparse Hreq Hturns Hshape Hpre Hpost Hchat Hlive.
  split; [ | intros chatId' w0; apply loadFullChat_returns ].
  pose proof (get_ok_not_nullish _ _ _ Hreq) as Hdata.
  destruct (no_shape_loads h request Hshape) as [Hown Hnone].
  destruct (loadFullChat_loads h chatId w p text data requests _ r
              Hpath Hp Htext Hparse Hreq Hturns
              (forallb_middle _ _ _ _ Hpre Hown Hpost) Hchat Hlive)
    as [w' [w1 [w2 [messages [Hrun [Hcollect [Hmessages _]]]]]]].
  apply collectMessages_split in Hcollect.
  destruct Hcollect as [before [own [after [wa [wb [Hbefore [Hturn [Hafter Heq]]]]]]]].
  destruct (collectMessages_outline h data pre w1 Hdata Hpre)
    as [ms1 [wa' [Hrun1 [_ Hout1]]]].
  rewrite Hbefore in Hrun1. inversion Hrun1. subst ms1 wa'.
  destruct (turnMessages_outline h data request wa Hdata Hown)
    as [ms2 [wb' [Hrun2 [_ Hout2]]]].
  rewrite Hturn in Hrun2. inversion Hrun2. subst ms2 wb'.
  destruct (collectMessages_outline h data post wb Hdata Hpost)
    as [ms3 [w2' [Hrun3 [_ Hout3]]]].
  rewrite Hafter in Hrun3. inversion Hrun3. subst ms3 w2'.
  exists w', before, own, after.
  split; [exact Hrun | split; [rewrite <- Heq; exact Hmessages | ]].
  split; [exact Hout1 | split; [ | exact Hout3]].
  rewrite Hout2. unfold turn_outline. rewrite Hnone, app_nil_r. reflexivity.
Qed.

(** The second turn of the example session has the text "and kubernetes"
    and no response: the load stores three messages, the last being that
    user message.  The only turn of the mute session has neither a text
    nor a response: the load stores no message. *)
Lemma C7_turn_without_response_witness :
  (exists w' before own after,
     loadFullChat scan_host (VStr "s1") scanned_world = (Ok (Some 0%nat), w')
     /\ get (chat_at w' 0%nat) "messages" = Ok (arr (before ++ own ++ after))
     /\ map message_outline before
        = [ (Ok (VStr "user"), Ok (VStr "hello docker"));
            (Ok (VStr "assistant"), Ok (VStr "use docker compose")) ]
     /\ map message_outline own = [ (Ok (VStr "user"), Ok (VStr "and kubernetes")) ]
     /\ after = [])
  /\ (exists w',
        loadFullChat mute_host (VStr "m1") mute_world = (Ok (Some 0%nat), w')
        /\ get (chat_at w' 0%nat) "messages" = Ok (arr [])).
Proof.
  split.
  - destruct (C7_turn_without_response scan_host (VStr "s1") scanned_world
                (filePath s1_candidate) (Example.print session_doc) session_doc
                (arr [ VObj [ ("message", VObj [("text", VStr "hello docker")]);
                              ("response",
                                VObj [("value", VStr "use docker compose")]) ];
                       VObj [ ("message", VObj [("text", VStr "and kubernetes")]) ] ])
                [ VObj [ ("message", VObj [("text", VStr "hello docker")]);
                         ("response", VObj [("value", VStr "use docker compose")]) ] ]
                []
                (VObj [ ("message", VObj [("text", VStr "and kubernetes")]) ])
                0%nat)
      as [[w' [before [own [after [Hrun [Hmessages [Hbefore [Hown Hafter]]]]]]]] _];
      try (vm_compute; reflexivity).
    + vm_compute. discriminate.
    + exists w', before, own, after.
      split; [exact Hrun | split; [exact Hmessages | ]].
      split; [exact Hbefore | split; [exact Hown | ]].
      destruct after; [reflexivity | discriminate Hafter].
  - destruct (C7_turn_without_response mute_host (VStr "m1") mute_world
                "/m1.json" (Example.print mute_doc) mute_doc
                (arr [ VObj [ ("response", VObj []) ] ])
                [] [] (VObj [ ("response", VObj []) ]) 0%nat)
      as [[w' [before [own [after [Hrun [Hmessages [Hbefore [Hown Hafter]]]]]]]] _];
      try (vm_compute; reflexivity).
    + vm_compute. discriminate.
    + exists w'. split; [exact Hrun | ].
      destruct before; [ | discriminate Hbefore].
      destruct own; [ | discriminate Hown].
      destruct after; [ | discriminate Hafter].
      exact Hmessages.
Defined.

(** What a successful load from the file has read and stored. *)
Lemma loadFullChat_overwrites h chatId w r w' p :
  map_get (chatFilePaths (service w)) chatId = Some p ->
  p <> "" ->
  index_live w ->
  loadFullChat h chatId w = (Ok (Some r), w') ->
  exists text data requests turns messages w1 w2,
    contents (disk w) p = Some text
    /\ JSON_parse h text = Some data
    /\ get data "requests" = Ok requests
    /\ iterate (or requests (arr [])) = Ok turns
    /\ collectMessages h data turns w1 = (Ok messages, w2)
    /\ map_get (cachedChats (service w)) chatId = Some r
    /\ get (chat_at w' r) "messages" = Ok (arr messages)
    /\ get (chat_at w' r) "messageCount"
       = Ok (VNum (Z.of_nat (List.length messages))).
Proof.
  intros Hpath Hp Hlive H.
  unfold loadFullChat in H. step H. rewrite Hpath in E. subst a.
  apply String.eqb_neq in Hp. rewrite Hp in H.
  apply try_catch_null_some in H.
  step H. apply readFile_ok in E. destruct E as [Htext Hst1].
  step H. apply parse_ok in E. destruct E as [Hdata ->].
  step H. step H. step H.
  pose proof (keeps_run _ _ _ _ _ (collectMessages_state h _ _) E1) as Hst2.
  step H.
  destruct Hst1 as [Hh1 [Hd1 Hs1]]. destruct Hst2 as [Hh2 [Hd2 Hs2]].
  rewrite Hs2, Hs1 in E2. subst a4.
  destruct (map_get (cachedChats (service w)) chatId) as [chat | ] eqn:Hfound;
    [ | step H; discriminate ].
  specialize (Hlive _ _ Hfound).
  assert (Hrange : (chat < List.length (heap w1))%nat).
  { rewrite Hh2, Hh1. apply live_in_range. exact Hlive. }
  unfold live in Hlive. rewrite <- Hh1, <- Hh2 in Hlive.
  unfold deref in H. step H. subst a4.
  destruct (set_get_object _ "messages" (arr a3) Hlive) as [v1 [Hset1 [Hobj1 [Hg1 _]]]].
  step H. rewrite Hset1 in E2. inversion E2. subst a4.
  destruct (set_get_object _ "messageCount"
              (VNum (Z.of_nat (List.length a3))) Hobj1) as [v2 [Hset2 [_ [Hg2 Hother]]]].
  step H. rewrite Hset2 in E3. inversion E3. subst a4.
  unfold store, bind, modify, ret in H. simpl in H. inversion H. subst.
  exists a, a0, a1, a2, a3, w0, w1. repeat split; try assumption.
  - unfold chat_at. simpl. rewrite store_at_nth by exact Hrange.
    rewrite Hother by discriminate. apply Hg1. discriminate.
  - unfold chat_at. simpl. rewrite store_at_nth by exact Hrange.
    apply Hg2. discriminate.
Qed.

(** C8.  A summary that metadata extraction produces records as its
    message count twice the number of entries of the [requests] array
    of the document it read.  A full-content load of a chat with a
    backing file that returns the chat has stored, in the summary the
    index holds for that identity, the messages the turns of the file
    produced and their exact number.  And the load of an indexed chat
    whose file reads, parses and has turns the loader can read does
    return the chat, with the messages of the turns, in order, as its
    message list and their number as its message count. *)
Theorem C8_two_tier_message_count (h : Host) (w : World) :
  (forall p ws sz r w',
     parseMetadataFast h p ws sz w = (Ok (Some r), w') ->
     exists data requests,
       extracted_document h w p sz = Some data
       /\ get data "requests" = Ok requests
       /\ forall turns props,
            requests = VArr turns props ->
            get (chat_at w' r) "messageCount"
            = Ok (VNum (Z.of_nat (List.length turns) * 2)))
  /\
  (forall chatId p r w',
     map_get (chatFilePaths (service w)) chatId = Some p ->
     p <> "" ->
     index_live w ->
     loadFullChat h chatId w = (Ok (Some r), w') ->
     exists text data requests turns messages w1 w2,
       contents (disk w) p = Some text
       /\ JSON_parse h text = Some data
       /\ get data "requests" = Ok requests
       /\ iterate (or requests (arr [])) = Ok turns
       /\ collectMessages h data turns w1 = (Ok messages, w2)
       /\ map_get (cachedChats (service w)) chatId = Some r
       /\ get (chat_at w' r) "messages" = Ok (arr messages)
       /\ get (chat_at w' r) "messageCount"
          = Ok (VNum (Z.of_nat (List.length messages))))
  /\
  (forall chatId p text data requests turns r,
     map_get (chatFilePaths (service w)) chatId = Some p ->
     p <> "" ->
     contents (disk w) p = Some text ->
     JSON_parse h text = Some data ->
     get data "requests" = Ok requests ->
     iterate (or requests (arr [])) = Ok turns ->
     forallb (turn_loads h) turns = true ->
     map_get (cachedChats (service w)) chatId = Some r ->
     live w r ->
     exists w' messages,
       loadFullChat h chatId w = (Ok (Some r), w')
       /\ get (chat_at w' r) "messages" = Ok (arr messages)
       /\ get (chat_at w' r) "messageCount"
          = Ok (VNum (Z.of_nat (List.length messages)))
       /\ map message_outline messages = flat_map (turn_outline h) turns).
Proof.
  split; [ | split ].
  - intros p ws sz r w' H.
    destruct (parseMetadataFast_summary h p ws sz w r w' H)
      as [data [requests [count [Hdoc [Hreq [_ [Hlen [Hcount _]]]]]]]].
    exists data, requests. split; [exact Hdoc | split; [exact Hreq | ]].
    intros turns props ->. simpl in Hlen. inversion Hlen. subst count.
    exact Hcount.
  - intros chatId p r w'. apply loadFullChat_overwrites.
  - intros chatId p text data requests turns r
      Hpath Hp Htext Hparse Hreq Hturns Hloads Hchat Hlive.
    destruct (loadFullChat_loads h chatId w p text data requests turns r
                Hpath Hp Htext Hparse Hreq Hturns Hloads Hchat Hlive)
      as [w' [w1 [w2 [messages [Hrun [_ [Hmessages [Hcount Hout]]]]]]]].
    exists w', messages. repeat split; assumption.
Qed.

Lemma scanned_world_live : index_live scanned_world.
Proof.
  intros id r H.
  change (cachedChats (service scanned_world)) with [(VStr "s1", 0%nat)] in H.
  unfold map_get, same_value_zero in H.
  destruct id; try discriminate H.
  destruct (String.eqb "s1" s); inversion H.
  vm_compute. reflexivity.
Qed.

(** The example session has two turns and three messages: the scan
    records the estimate 4, and the load replaces it by 3. *)
Lemma C8_two_tier_message_count_witness :
  get (chat_at
         (snd (parseMetadataFast scan_host (filePath s1_candidate) "ws1" 186
                 scan_world)) 0%nat)
    "messageCount" = Ok (VNum 4)
  /\ get (chat_at scanned_world 0%nat) "messageCount" = Ok (VNum 4)
  /\ (exists messages : list value,
        get (chat_at (snd (loadFullChat scan_host (VStr "s1") scanned_world)) 0%nat)
          "messageCount" = Ok (VNum (Z.of_nat (List.length messages))))
  /\ (exists w' messages,
        loadFullChat scan_host (VStr "s1") scanned_world = (Ok (Some 0%nat), w')
        /\ get (chat_at w' 0%nat) "messages" = Ok (arr messages)
        /\ get (chat_at w' 0%nat) "messageCount" = Ok (VNum 3)
        /\ map message_outline messages
           = [ (Ok (VStr "user"), Ok (VStr "hello docker"));
               (Ok (VStr "assistant"), Ok (VStr "use docker compose"));
               (Ok (VStr "user"), Ok (VStr "and kubernetes")) ]).
Proof.
  split; [ | split; [ vm_compute; reflexivity | split ] ].
  - destruct (C8_two_tier_message_count scan_host scan_world) as [Ha _].
    assert (Hrun :
      parseMetadataFast scan_host (filePath s1_candidate) "ws1" 186 scan_world
      = (Ok (Some 0%nat),
         snd (parseMetadataFast scan_host (filePath s1_candidate) "ws1" 186
                scan_world))).
    { rewrite (surjective_pairing
                 (parseMetadataFast scan_host (filePath s1_candidate) "ws1" 186
                    scan_world)) at 1.
      f_equal; vm_compute; reflexivity. }
    destruct (Ha _ _ _ _ _ Hrun) as [data [requests [Hdoc [Hreq Hcount]]]].
    vm_compute in Hdoc. inversion Hdoc. subst data.
    vm_compute in Hreq. inversion Hreq. subst requests.
    exact (Hcount _ _ eq_refl).
  - destruct (C8_two_tier_message_count scan_host scanned_world) as [_ [Hb _]].
    assert (Hrun :
      loadFullChat scan_host (VStr "s1") scanned_world
      = (Ok (Some 0%nat), snd (loadFullChat scan_host (VStr "s1") scanned_world))).
    { rewrite (surjective_pairing
                 (loadFullChat scan_host (VStr "s1") scanned_world)) at 1.
      f_equal; vm_compute; reflexivity. }
    destruct (Hb (VStr "s1") (filePath s1_candidate) 0%nat
                (snd (loadFullChat scan_host (VStr "s1") scanned_world))) as
      [text [data [requests [turns [messages [w1 [w2 H]]]]]]];
      [ vm_compute; reflexivity | vm_compute; discriminate
      | exact scanned_world_live | exact Hrun | ].
    exists messages. apply H.
  - destruct (C8_two_tier_message_count scan_host scanned_world) as [_ [_ Hc]].
    destruct (Hc (VStr "s1") (filePath s1_candidate) (Example.print session_doc)
                session_doc
                (arr [ VObj [ ("message", VObj [("text", VStr "hello docker")]);
                              ("response",
                                VObj [("value", VStr "use docker compose")]) ];
                       VObj [ ("message", VObj [("text", VStr "and kubernetes")]) ] ])
                [ VObj [ ("message", VObj [("text", VStr "hello docker")]);
                         ("response", VObj [("value", VStr "use docker compose")]) ];
                  VObj [ ("message", VObj [("text", VStr "and kubernetes")]) ] ]
                0%nat)
      as [w' [messages [Hrun [Hmessages [Hcount Hout]]]]];
      try (vm_compute; reflexivity).
    + vm_compute. discriminate.
    + exists w', messages.
      split; [exact Hrun | split; [exact Hmessages | split; [ | exact Hout]]].
      rewrite Hcount. rewrite <- (length_map message_outline), Hout. reflexivity.
Defined.

(** ** Deep search *)

Section SortDesc.

Context {A : Type} (key : A -> Z).

Lemma insert_desc_perm (x : A) (l : list A) :
  Permutation (insert_desc key x l) (x :: l).
Proof.
  induction l as [| y l IH]; simpl.
  - apply Permutation_refl.
  - destruct (key x <=? key y).
    + apply Permutation_trans with (y :: x :: l).
      * apply perm_skip. exact IH.
      * apply perm_swap.
    + apply Permutation_refl.
Qed.

Lemma insert_desc_sorted (x : A) (l : list A) :
  StronglySorted (desc key) l -> StronglySorted (desc key) (insert_desc key x l).
Proof.
  induction l as [| y l IH]; intros Hs; simpl.
  - constructor; [constructor | constructor].
  - inversion Hs as [| ? ? Hl Hy]. subst.
    destruct (key x <=? key y) eqn:Hle.
    + constructor; [apply IH; exact Hl | ].
      apply Z.leb_le in Hle.
      eapply Permutation_Forall; [apply Permutation_sym, insert_desc_perm | ].
      constructor; [exact Hle | exact Hy].
    + apply Z.leb_gt in Hle. constructor; [exact Hs | ].
      constructor; [unfold desc; lia | ].
      eapply Forall_impl; [ | exact Hy]. unfold desc. intros a Ha. lia.
Qed.

Lemma sort_desc_from_perm (l acc : list A) :
  Permutation (fold_left (fun acc x => insert_desc key x acc) l acc) (acc ++ l).
Proof.
  revert acc. induction l as [| x l IH]; intros acc; simpl.
  - rewrite app_nil_r. apply Permutation_refl.
  - eapply Permutation_trans; [apply IH | ].
    eapply Permutation_trans;
      [apply Permutation_app_tail; apply insert_desc_perm | ].
    simpl. apply Permutation_middle.
Qed.

Lemma sort_desc_from_sorted (l acc : list A) :
  StronglySorted (desc key) acc ->
  StronglySorted (desc key) (fold_left (fun acc x => insert_desc key x acc) l acc).
Proof.
  revert acc. induction l as [| x l IH]; intros acc Hs; simpl.
  - exact Hs.
  - apply IH, insert_desc_sorted, Hs.
Qed.

Lemma sort_desc_perm (l : list A) : Permutation (sort_desc key l) l.
Proof. unfold sort_desc. apply (sort_desc_from_perm l []). Qed.

Lemma sort_desc_sorted (l : list A) : StronglySorted (desc key) (sort_desc key l).
Proof. unfold sort_desc. apply sort_desc_from_sorted. constructor. Qed.

End SortDesc.

Lemma counts_get_set_same wc k c : counts_get (counts_set wc k c) k = Some c.
Proof.
  induction wc as [| [t c'] wc IH]; simpl.
  - rewrite String.eqb_refl. reflexivity.
  - destruct (String.eqb t k) eqn:Hk; simpl; rewrite Hk; [reflexivity | exact IH].
Qed.

Lemma counts_get_set_other wc k c k' :
  k' <> k -> counts_get (counts_set wc k c) k' = counts_get wc k'.
Proof.
  intros Hne. induction wc as [| [t c'] wc IH]; simpl.
  - assert (String.eqb k k' = false) as -> by (apply String.eqb_neq; congruence).
    reflexivity.
  - destruct (String.eqb t k) eqn:Hk; simpl.
    + apply String.eqb_eq in Hk. subst t.
      assert (String.eqb k k' = false) as -> by (apply String.eqb_neq; congruence).
      reflexivity.
    + destruct (String.eqb t k'); [reflexivity | exact IH].
Qed.

(** After the counting loop every term has its own count, and the
    total is the sum of the counts. *)
Lemma countTerms_spec h content searchTerms wordCounts totalMatches :
  (forall k c, counts_get wordCounts k = Some c ->
               c = Z.of_nat (case_insensitive_count h k content)) ->
  let '(wc, total) := countTerms h content searchTerms wordCounts totalMatches in
  total = totalMatches + Z.of_nat (total_occurrences h searchTerms content)
  /\ (forall k c, counts_get wc k = Some c ->
                  c = Z.of_nat (case_insensitive_count h k content))
  /\ (forall k, counts_get wordCounts k <> None -> counts_get wc k <> None)
  /\ (forall term, In term searchTerms -> counts_get wc term <> None).
Proof.
  revert wordCounts totalMatches.
  induction searchTerms as [| term rest IH]; intros wordCounts totalMatches Hok; simpl.
  - split; [lia | split; [exact Hok | split; [auto | intros term []]]].
  - specialize (IH (counts_set wordCounts term (occurrences h term content))
                  (totalMatches + occurrences h term content)).
    destruct (countTerms h content rest _ _) as [wc total].
    destruct IH as [Htotal [Hok' [Hkeep Hall]]].
    { intros k c Hget. destruct (string_dec k term) as [-> | Hne].
      - rewrite counts_get_set_same in Hget. inversion Hget. reflexivity.
      - rewrite counts_get_set_other in Hget by exact Hne. apply Hok. exact Hget. }
    split; [ | split; [ | split ] ].
    + rewrite Htotal. unfold occurrences, case_insensitive_count. lia.
    + exact Hok'.
    + intros k Hk. apply Hkeep. destruct (string_dec k term) as [-> | Hne].
      * rewrite counts_get_set_same. discriminate.
      * rewrite counts_get_set_other by exact Hne. exact Hk.
    + intros t [<- | Hin].
      * apply Hkeep. rewrite counts_get_set_same. discriminate.
      * apply Hall. exact Hin.
Qed.

Lemma positive_count (n : nat) : (0 <? Z.of_nat n) = true <-> (0 < n)%nat.
Proof. rewrite Z.ltb_lt. lia. Qed.

Lemma searchContent_spec h searchTerms m content :
  let '(wc, total, matches) := searchContent h searchTerms m content in
  total = total_matches h searchTerms m content
  /\ (matches = true <-> search_matches h searchTerms m content).
Proof.
  unfold searchContent.
  pose proof (countTerms_spec h content searchTerms [] 0) as Hc.
  destruct m; simpl.
  - destruct (countTerms h content searchTerms [] 0) as [wc total].
    destruct Hc as [Htotal _]; [ intros k c H; discriminate H | ].
    simpl in Htotal. subst total. split; [reflexivity | ].
    apply positive_count.
  - destruct (countTerms h content searchTerms [] 0) as [wc total].
    destruct Hc as [Htotal [Hok [_ Hall]]]; [ intros k c H; discriminate H | ].
    simpl in Htotal. subst total. split; [reflexivity | ].
    rewrite forallb_forall. split; intros H term Hin.
    + specialize (H term Hin). unfold counted_positive in H.
      destruct (counts_get wc term) as [c | ] eqn:Hget; [ | discriminate H].
      rewrite (Hok _ _ Hget) in H. apply positive_count. exact H.
    + unfold counted_positive.
      destruct (counts_get wc term) as [c | ] eqn:Hget.
      * rewrite (Hok _ _ Hget). apply positive_count. apply H. exact Hin.
      * exfalso. apply (Hall term Hin). exact Hget.
  - split; [reflexivity | apply positive_count].
Qed.

Lemma searchEntry_run h searchTerms m chatId filePath w :
  exists w',
    searchEntry h searchTerms m chatId filePath w
    = (Ok (entry_results h searchTerms m w (chatId, filePath)), w')
    /\ same_state w w'.
Proof.
  unfold searchEntry, entry_results, readFile, try_catch, bind, log, modify,
    gets, ret, throw, same_state.
  simpl.
  destruct (contents (disk w) filePath) as [content | ].
  - destruct (searchContent h searchTerms m content) as [[wc total] matches].
    destruct matches; simpl.
    + destruct (map_get (cachedChats (service w)) chatId);
        eexists; repeat split.
    + eexists; repeat split.
  - eexists; repeat split.
Qed.

Lemma entry_results_same_state h searchTerms m w w' entry :
  same_state w w' ->
  entry_results h searchTerms m w' entry = entry_results h searchTerms m w entry.
Proof.
  intros [_ [Hd Hs]]. unfold entry_results. rewrite Hd, Hs. reflexivity.
Qed.

Lemma searchEntries_run h searchTerms m entries w :
  exists w',
    searchEntries h searchTerms m entries w
    = (Ok (flat_map (entry_results h searchTerms m w) entries), w')
    /\ same_state w w'.
Proof.
  revert w. induction entries as [| [chatId filePath] rest IH]; intros w; simpl.
  - exists w. split; [reflexivity | apply (pre_refl _ preorder_same_state)].
  - destruct (searchEntry_run h searchTerms m chatId filePath w) as [w1 [H1 Hs1]].
    destruct (IH w1) as [w2 [H2 Hs2]].
    exists w2. split.
    + unfold bind. rewrite H1, H2. unfold ret. f_equal. f_equal. f_equal.
      apply flat_map_ext. intros entry.
      apply entry_results_same_state. exact Hs1.
    + exact (pre_trans _ preorder_same_state _ _ _ Hs1 Hs2).
Qed.

(** C3.  Whatever the runtime's lower-casing and its matching of a literal
    without case are, [deepSearch] returns a list of results, sorted by
    descending total match count, such that for every entry of the
    identity-to-path table whose identity is indexed and whose file can be
    read, the results hold an element for that chat and that file exactly
    when: mode [any] and the sum of the per-term case-insensitive
    occurrence counts is positive; mode [all] and every term's count is
    positive; mode [exact] and the count of the terms joined by single
    spaces is positive.  The total a result reports is that sum, or in
    mode [exact] the count of the phrase.  The count of a term is the
    number of matches the runtime finds in the text of the file for the
    lower-cased term, taken as a literal, under the flags [gi]. *)
Theorem C3_deep_search (h : Host) (searchTerms : list string) (m : mode)
  (w : World) :
  exists results w',
    deepSearch h searchTerms m w = (Ok results, w')
    /\ StronglySorted (desc sr_totalMatches) results
    /\ (forall chatId filePath chat content,
          In (chatId, filePath) (chatFilePaths (service w)) ->
          map_get (cachedChats (service w)) chatId = Some chat ->
          contents (disk w) filePath = Some content ->
          ((exists res,
              In res results /\ sr_chat res = chat /\ sr_filePath res = filePath)
           <-> search_matches h searchTerms m content))
    /\ (forall res, In res results ->
          exists content,
            contents (disk w) (sr_filePath res) = Some content
            /\ sr_totalMatches res = total_matches h searchTerms m content).
Proof.
  destruct (searchEntries_run h searchTerms m (chatFilePaths (service w)) w)
    as [w' [Hrun _]].
  exists (sort_desc sr_totalMatches
            (flat_map (entry_results h searchTerms m w) (chatFilePaths (service w)))), w'.
  split; [ | split; [ | split ] ].
  - unfold deepSearch. rewrite bind_gets. unfold bind. rewrite Hrun. reflexivity.
  - apply sort_desc_sorted.
  - intros chatId filePath chat content Hentry Hchat Hcontent.
    pose proof (searchContent_spec h searchTerms m content) as Hspec.
    split.
    + intros [res [Hin [Hc Hp]]].
      apply (Permutation_in _ (sort_desc_perm sr_totalMatches _)) in Hin.
      apply in_flat_map in Hin. destruct Hin as [[id' p'] [_ Hres]].
      unfold entry_results in Hres.
      destruct (contents (disk w) p') as [content' | ] eqn:Hc'; [ | destruct Hres].
      destruct (searchContent h searchTerms m content') as [[wc total] matches] eqn:Hsc.
      destruct matches; [ | destruct Hres].
      destruct (map_get (cachedChats (service w)) id'); [ | destruct Hres].
      destruct Hres as [<- | []]. simpl in Hp. subst p'.
      rewrite Hcontent in Hc'. inversion Hc'. subst content'.
      rewrite Hsc in Hspec. apply Hspec. reflexivity.
    + intros Hmatch.
      destruct (searchContent h searchTerms m content) as [[wc total] matches] eqn:Hsc.
      destruct Hspec as [_ Hiff]. apply Hiff in Hmatch. subst matches.
      exists {| sr_chat := chat; sr_wordCounts := wc;
                sr_totalMatches := total; sr_filePath := filePath |}.
      split; [ | split; reflexivity ].
      apply (Permutation_in _ (Permutation_sym (sort_desc_perm sr_totalMatches _))).
      apply in_flat_map. exists (chatId, filePath). split; [exact Hentry | ].
      unfold entry_results. rewrite Hcontent, Hsc, Hchat. left. reflexivity.
  - intros res Hin.
    apply (Permutation_in _ (sort_desc_perm sr_totalMatches _)) in Hin.
    apply in_flat_map in Hin. destruct Hin as [[id' p'] [_ Hres]].
    unfold entry_results in Hres.
    destruct (contents (disk w) p') as [content' | ] eqn:Hc'; [ | destruct Hres].
    pose proof (searchContent_spec h searchTerms m content') as Hspec.
    destruct (searchContent h searchTerms m content') as [[wc total] matches] eqn:Hsc.
    destruct matches; [ | destruct Hres].
    destruct (map_get (cachedChats (service w)) id'); [ | destruct Hres].
    destruct Hres as [<- | []]. simpl. exists content'.
    split; [exact Hc' | apply Hspec].
Qed.

(** On the scanned example, whose one indexed file reads "hello docker",
    "use docker compose" and "and kubernetes": the terms "Docker" and
    "kubernetes" in mode [all] return the session with the total 3; the
    terms "docker" and "zebra" do not return it in mode [all]; the phrase
    "docker compose" returns it with the total 1 and the phrase
    "compose docker" does not. *)
Lemma C3_deep_search_witness :
  (exists results w',
     deepSearch scan_host ["Docker"; "kubernetes"] mode_all scanned_world
     = (Ok results, w')
     /\ (exists res,
           In res results /\ sr_chat res = 0%nat
           /\ sr_filePath res = filePath s1_candidate)
     /\ (forall res, In res results ->
           sr_filePath res = filePath s1_candidate -> sr_totalMatches res = 3))
  /\ (exists results w',
        deepSearch scan_host ["docker"; "zebra"] mode_all scanned_world
        = (Ok results, w')
        /\ ~ (exists res,
                In res results /\ sr_chat res = 0%nat
                /\ sr_filePath res = filePath s1_candidate))
  /\ (exists results w',
        deepSearch scan_host ["docker"; "compose"] mode_exact scanned_world
        = (Ok results, w')
        /\ (exists res,
              In res results /\ sr_chat res = 0%nat
              /\ sr_filePath res = filePath s1_candidate)
        /\ (forall res, In res results ->
              sr_filePath res = filePath s1_candidate -> sr_totalMatches res = 1))
  /\ (exists results w',
        deepSearch scan_host ["compose"; "docker"] mode_exact scanned_world
        = (Ok results, w')
        /\ ~ (exists res,
                In res results /\ sr_chat res = 0%nat
                /\ sr_filePath res = filePath s1_candidate)).
Proof.
  assert (Hentry : In (VStr "s1", filePath s1_candidate)
                      (chatFilePaths (service scanned_world)))
    by (vm_compute; left; reflexivity).
  assert (Hchat : map_get (cachedChats (service scanned_world)) (VStr "s1")
                  = Some 0%nat)
    by (vm_compute; reflexivity).
  assert (Hcontent : contents (disk scanned_world) (filePath s1_candidate)
                     = Some (Example.print session_doc))
    by (vm_compute; reflexivity).
  split; [ | split; [ | split ] ].
  - destruct (C3_deep_search scan_host ["Docker"; "kubernetes"] mode_all
                scanned_world) as [results [w' [Hrun [_ [Hiff Htotal]]]]].
    exists results, w'. split; [exact Hrun | split].
    + apply (Hiff _ _ _ _ Hentry Hchat Hcontent).
      intros term [<- | [<- | []]]; vm_compute; lia.
    + intros res Hin Hpath. destruct (Htotal res Hin) as [content [Hc Ht]].
      rewrite Hpath, Hcontent in Hc. inversion Hc. subst content.
      rewrite Ht. vm_compute. reflexivity.
  - destruct (C3_deep_search scan_host ["docker"; "zebra"] mode_all
                scanned_world) as [results [w' [Hrun [_ [Hiff _]]]]].
    exists results, w'. split; [exact Hrun | ].
    intros Hres. apply (Hiff _ _ _ _ Hentry Hchat Hcontent) in Hres.
    specialize (Hres "zebra" (or_intror (or_introl eq_refl))).
    vm_compute in Hres. lia.
  - destruct (C3_deep_search scan_host ["docker"; "compose"] mode_exact
                scanned_world) as [results [w' [Hrun [_ [Hiff Htotal]]]]].
    exists results, w'. split; [exact Hrun | split].
    + apply (Hiff _ _ _ _ Hentry Hchat Hcontent). vm_compute. lia.
    + intros res Hin Hpath. destruct (Htotal res Hin) as [content [Hc Ht]].
      rewrite Hpath, Hcontent in Hc. inversion Hc. subst content.
      rewrite Ht. vm_compute. reflexivity.
  - destruct (C3_deep_search scan_host ["compose"; "docker"] mode_exact
                scanned_world) as [results [w' [Hrun [_ [Hiff _]]]]].
    exists results, w'. split; [exact Hrun | ].
    intros Hres. apply (Hiff _ _ _ _ Hentry Hchat Hcontent) in Hres.
    vm_compute in Hres. lia.
Defined.

(** ** Export and import *)

Lemma jsonify_strings iso (l : list string) :
  map (jsonify_with iso) (map VStr l) = map VStr l.
Proof. induction l as [| s l IH]; simpl; [reflexivity | rewrite IH; reflexivity]. Qed.

Lemma jsonify_message h m :
  jsonify h (message_value m)
  = VObj [ ("id", VStr (msg_id m));
           ("role", VStr (role_name (msg_role m)));
           ("content", VStr (msg_content m));
           ("timestamp", date_json h (msg_timestamp m)) ].
Proof.
  unfold message_value, jsonify, date_json. simpl.
  destruct (msg_timestamp m); reflexivity.
Qed.

Lemma jsonify_chat h c :
  jsonify h (chat_value c)
  = VObj [ ("id", VStr (ch_id c));
           ("workspacePath", VStr (ch_workspacePath c));
           ("workspaceName", VStr (ch_workspaceName c));
           ("createdAt", date_json h (ch_createdAt c));
           ("updatedAt", date_json h (ch_updatedAt c));
           ("firstMessage", VStr (ch_firstMessage c));
           ("lastMessage", VStr (ch_lastMessage c));
           ("messageCount", VNum (ch_messageCount c));
           ("fileSize", VNum (ch_fileSize c));
           ("messages", arr (map (fun m => jsonify h (message_value m)) (ch_messages c)));
           ("tags", arr (map VStr (ch_tags c)));
           ("attachedProject",
             match ch_attachedProject c with
             | Some p => VStr p
             | None => VNull
             end) ].
Proof.
  unfold chat_value, jsonify, date_json, arr. simpl.
  rewrite map_map, jsonify_strings.
  destruct (ch_createdAt c), (ch_updatedAt c), (ch_attachedProject c); reflexivity.
Qed.

Lemma revive_exported_message h m :
  revive_message h (jsonify h (message_value m)) = Ok (imported_message h m).
Proof. rewrite jsonify_message. reflexivity. Qed.

Lemma revive_messages h (ms : list ChatMessage) :
  map_result (revive_message h) (map (fun m => jsonify h (message_value m)) ms)
  = Ok (map (imported_message h) ms).
Proof.
  induction ms as [| m ms IH]; [reflexivity | ].
  cbn [map map_result]. rewrite revive_exported_message. cbn [rbind].
  rewrite IH. reflexivity.
Qed.

Lemma revive_exported_chat h c :
  revive_chat h (jsonify h (chat_value c)) true = Ok (imported_chat h c).
Proof.
  rewrite jsonify_chat. unfold revive_chat.
  cbn [get set lookup assign String.eqb Ascii.eqb Bool.eqb rbind].
  cbn [or truthy arr call_map]. rewrite revive_messages. reflexivity.
Qed.

Lemma index_new_run v id w :
  get v "id" = Ok id ->
  index_new v w = (Ok (List.length (heap w)), indexed w id v).
Proof.
  intros Hid. unfold index_new, bind, lift. rewrite Hid. reflexivity.
Qed.

Lemma get_id_exported h c : get (jsonify h (chat_value c)) "id" = Ok (VStr (ch_id c)).
Proof. rewrite jsonify_chat. reflexivity. Qed.

Lemma importEntry_exported h c w r :
  importEntry h (jsonify h (chat_value c)) (w, r)
  = if map_has (cachedChats (service w)) (VStr (ch_id c))
    then (Ok tt,
          (w, {| success := success r; importedCount := importedCount r;
                 skippedCount := skippedCount r + 1;
                 import_errors := import_errors r |}))
    else (Ok tt,
          (indexed w (VStr (ch_id c)) (imported_chat h c),
           {| success := success r; importedCount := importedCount r + 1;
              skippedCount := skippedCount r;
              import_errors := import_errors r |})).
Proof.
  unfold importEntry, try_catch.
  unfold bind at 1. unfold lift at 1. rewrite get_id_exported.
  unfold bind at 1. unfold liftW at 1, cachedChats_has, gets.
  destruct (map_has (cachedChats (service w)) (VStr (ch_id c))).
  - reflexivity.
  - unfold bind at 1. unfold lift at 1. rewrite revive_exported_chat.
    unfold bind at 1. unfold liftW.
    rewrite (index_new_run _ (VStr (ch_id c))) by reflexivity.
    reflexivity.
Qed.

Lemma importEntries_exported h (chats : list ChatHistory) :
  forall w r,
  exists w' r',
    importEntries h (map (fun c => jsonify h (chat_value c)) chats) (w, r)
    = (Ok tt, (w', r'))
    /\ (cachedChats (service w'), heap w', importedCount r', skippedCount r')
       = import_effect h chats (cachedChats (service w)) (heap w)
           (importedCount r) (skippedCount r)
    /\ same_tables w w'
    /\ trace w' = trace w
    /\ success r' = success r
    /\ import_errors r' = import_errors r.
Proof.
  induction chats as [| c rest IH]; intros w r.
  - exists w, r. simpl. unfold same_tables. repeat split; reflexivity.
  - cbn [map importEntries]. unfold bind. rewrite importEntry_exported.
    cbn [import_effect].
    destruct (map_has (cachedChats (service w)) (VStr (ch_id c))).
    + match goal with
      | |- context [importEntries h _ (w, ?r1)] =>
          destruct (IH w r1) as [w' [r' [Hrun [Heff [Hsame [Htrace [Hs He]]]]]]]
      end.
      exists w', r'. rewrite Hrun. simpl in Heff, Hs, He.
      split; [reflexivity | ]. split; [exact Heff | ].
      split; [exact Hsame | ]. repeat split; assumption.
    + match goal with
      | |- context [importEntries h _ (?w1, ?r1)] =>
          destruct (IH w1 r1) as [w' [r' [Hrun [Heff [Hsame [Htrace [Hs He]]]]]]]
      end.
      exists w', r'. rewrite Hrun. simpl in Heff, Hs, He, Htrace.
      split; [reflexivity | ]. split; [exact Heff | ].
      split; [ | repeat split; assumption ].
      unfold same_tables in *. simpl in Hsame. exact Hsame.
Qed.

Lemma jsonify_envelope h t chats :
  jsonify h (envelope t (map chat_value chats))
  = VObj [ ("version", VStr "1.0");
           ("exportedAt", date_json h t);
           ("sourceExtension", VStr "copilot-chat-manager");
           ("chats", arr (map (fun c => jsonify h (chat_value c)) chats)) ].
Proof.
  unfold envelope, jsonify, date_json, arr. simpl. rewrite map_map.
  destruct t; reflexivity.
Qed.


Lemma bind_liftW {A B} (m : M A) (k : A -> ImportM B) (w : World) (r : ImportResult) :
  bind (liftW m) k (w, r)
  = match m w with
    | (Ok a, w') => k a (w', r)
    | (Throw e, w') => (Throw e, (w', r))
    end.
Proof. unfold bind, liftW. destruct (m w) as [[a | e] w']; reflexivity. Qed.


Lemma importDocument_exported h path w r text t chats :
  contents (disk w) path = Some text ->
  JSON_parse h text = Some (jsonify h (envelope t (map chat_value chats))) ->
  importDocument h path (w, r)
  = (entries <- lift (Ok (map (fun c => jsonify h (chat_value c)) chats)) ;;
     importEntries h entries ;;; ret true)
      (with_trace (trace w ++ [ReadFile path]) w, r).
Proof.
  intros Htext Hparse. unfold importDocument.
  rewrite bind_liftW, (readFile_run _ _ _ Htext). cbv beta iota.
  rewrite bind_liftW. unfold parse. rewrite Hparse. unfold ret at 1. cbv beta iota.
  rewrite jsonify_envelope.
  cbn [get lookup String.eqb Ascii.eqb Bool.eqb]. rewrite bind_lift_ok.
  cbn [truthy isArray arr andb iterate]. reflexivity.
Qed.

(** The import of an export payload, entry by entry. *)
Lemma importChats_exported h path w text t chats :
  contents (disk w) path = Some text ->
  JSON_parse h text = Some (jsonify h (envelope t (map chat_value chats))) ->
  exists w' imported skipped,
    importChats h path w
    = (Ok {| success := (0 <? imported) || (0 <? skipped);
             importedCount := imported; skippedCount := skipped;
             import_errors := [] |}, w')
    /\ (cachedChats (service w'), heap w', imported, skipped)
       = import_effect h chats (cachedChats (service w)) (heap w) 0 0
    /\ same_tables w w'.
Proof.
  intros Htext Hparse.
  destruct (importEntries_exported h chats
              (with_trace (trace w ++ [ReadFile path]) w) initial_result)
    as [w' [r' [Hrun [Heff [Hsame [_ [Hs He]]]]]]].
  exists w', (importedCount r'), (skippedCount r').
  split; [ | split; [exact Heff | exact Hsame] ].
  unfold importChats, try_catch.
  unfold bind at 1.
  rewrite (importDocument_exported h path w initial_result text t chats Htext Hparse).
  rewrite bind_lift_ok. unfold bind at 1. rewrite Hrun.
  unfold ret, set_success, modify.
  destruct r' as [s i k e]. simpl in He. subst e. reflexivity.
Qed.

Lemma same_value_zero_str k s :
  same_value_zero k (VStr s) = true -> k = VStr s.
Proof.
  destruct k; simpl; try discriminate. intros H.
  apply String.eqb_eq in H. subst. reflexivity.
Qed.

Lemma map_has_set_same {V} (m : jsmap V) s v :
  map_has (map_set m (VStr s) v) (VStr s) = true.
Proof.
  unfold map_has. induction m as [| [k0 v0] m IH]; simpl.
  - rewrite String.eqb_refl. reflexivity.
  - destruct (same_value_zero k0 (VStr s)) eqn:Hk; simpl; rewrite Hk;
      [reflexivity | exact IH].
Qed.

Lemma map_get_set_other {V} (m : jsmap V) s v s' :
  s' <> s -> map_get (map_set m (VStr s) v) (VStr s') = map_get m (VStr s').
Proof.
  intros Hne. induction m as [| [k0 v0] m IH]; simpl.
  - assert (String.eqb s s' = false) as -> by (apply String.eqb_neq; congruence).
    reflexivity.
  - destruct (same_value_zero k0 (VStr s)) eqn:Hk; simpl.
    + apply same_value_zero_str in Hk. subst k0. simpl.
      assert (String.eqb s s' = false) as -> by (apply String.eqb_neq; congruence).
      reflexivity.
    + destruct (same_value_zero k0 (VStr s')); [reflexivity | exact IH].
Qed.

Lemma map_has_set_keeps {V} (m : jsmap V) s v s' :
  map_has m (VStr s') = true -> map_has (map_set m (VStr s) v) (VStr s') = true.
Proof.
  intros H. destruct (string_dec s' s) as [-> | Hne].
  - apply map_has_set_same.
  - unfold map_has in *. rewrite map_get_set_other by exact Hne. exact H.
Qed.

Lemma map_set_absent {V} (m : jsmap V) k v :
  map_has m k = false -> map_set m k v = m ++ [(k, v)].
Proof.
  unfold map_has. induction m as [| [k0 v0] m IH]; simpl; intros H.
  - reflexivity.
  - destruct (same_value_zero k0 k); [discriminate H | ].
    rewrite IH by exact H. reflexivity.
Qed.

Lemma map_has_app_one {V} (m : jsmap V) s v s' :
  s' <> s -> map_has (m ++ [(VStr s, v)]) (VStr s') = map_has m (VStr s').
Proof.
  intros Hne. unfold map_has. induction m as [| [k0 v0] m IH]; simpl.
  - assert (String.eqb s s' = false) as -> by (apply String.eqb_neq; congruence).
    reflexivity.
  - destruct (same_value_zero k0 (VStr s')); [reflexivity | exact IH].
Qed.

Lemma import_effect_keeps h chats : forall cc hp i k s,
  map_has cc (VStr s) = true ->
  map_has (effect_index (import_effect h chats cc hp i k)) (VStr s) = true.
Proof.
  induction chats as [| c rest IH]; intros cc hp i k s Hs; simpl.
  - exact Hs.
  - destruct (map_has cc (VStr (ch_id c))).
    + apply IH. exact Hs.
    + apply IH. apply map_has_set_keeps. exact Hs.
Qed.

(** After an import every entry's identity is in the index. *)
Lemma import_effect_present h chats : forall cc hp i k c,
  In c chats ->
  map_has (effect_index (import_effect h chats cc hp i k)) (VStr (ch_id c)) = true.
Proof.
  induction chats as [| c0 rest IH]; intros cc hp i k c Hin; simpl.
  - destruct Hin.
  - destruct Hin as [-> | Hin].
    + destruct (map_has cc (VStr (ch_id c))) eqn:Hhas.
      * apply import_effect_keeps. exact Hhas.
      * apply import_effect_keeps. apply map_has_set_same.
    + destruct (map_has cc (VStr (ch_id c0))); apply IH; exact Hin.
Qed.

(** Entries whose identities are all in the index are all skipped. *)
Lemma import_effect_all_present h chats : forall cc hp i k,
  (forall c, In c chats -> map_has cc (VStr (ch_id c)) = true) ->
  import_effect h chats cc hp i k = (cc, hp, i, k + Z.of_nat (List.length chats)).
Proof.
  induction chats as [| c rest IH]; intros cc hp i k Hall.
  - simpl. rewrite Z.add_0_r. reflexivity.
  - cbn [import_effect]. rewrite (Hall c) by (left; reflexivity).
    rewrite IH by (intros c' Hc'; apply Hall; right; exact Hc').
    f_equal. rewrite length_cons. lia.
Qed.

(** Entries with pairwise distinct identities none of which is in the
    index are all imported, in order, at consecutive addresses. *)
Lemma import_effect_all_new h chats : forall cc hp i k,
  NoDup (map ch_id chats) ->
  (forall c, In c chats -> map_has cc (VStr (ch_id c)) = false) ->
  import_effect h chats cc hp i k
  = (cc ++ combine (map (fun c => VStr (ch_id c)) chats)
             (seq (List.length hp) (List.length chats)),
     hp ++ map (imported_chat h) chats,
     i + Z.of_nat (List.length chats), k).
Proof.
  induction chats as [| c rest IH]; intros cc hp i k Hnd Hnew.
  - simpl. rewrite !app_nil_r, Z.add_0_r. reflexivity.
  - cbn [import_effect]. rewrite (Hnew c) by (left; reflexivity).
    rewrite map_set_absent by (apply Hnew; left; reflexivity).
    inversion Hnd as [| ? ? Hnotin Hnd']. subst.
    rewrite IH.
    + rewrite length_app. simpl.
      rewrite <- !app_assoc. simpl.
      replace (List.length hp + 1)%nat with (S (List.length hp)) by lia.
      f_equal. f_equal. lia.
    + exact Hnd'.
    + intros c' Hc'. rewrite map_has_app_one.
      * apply Hnew. right. exact Hc'.
      * intros Heq. apply Hnotin. rewrite <- Heq. apply in_map. exact Hc'.
Qed.

Lemma exportChats_json_writes h chats out w w1 :
  exportChats_json h chats out w = (Ok tt, w1) ->
  contents (disk w1) out
  = Some (JSON_stringify h (envelope (time_clip (Date_now h (ticks w))) chats)).
Proof.
  unfold exportChats_json, writeFile, Date_now_, bind, log, modify, gets, throw.
  simpl. destruct (writable (disk w) out); intros H; inversion H.
  simpl. rewrite String.eqb_refl. reflexivity.
Qed.

Lemma imported_messages_same h (ms : list ChatMessage) :
  Forall2 same_message ms (map (imported_message h) ms).
Proof.
  induction ms as [| m ms IH]; simpl; constructor.
  - unfold same_message. repeat split; reflexivity.
  - exact IH.
Qed.

Lemma imported_chat_same h c : same_session c (imported_chat h c).
Proof.
  unfold same_session. split; [reflexivity | split; [reflexivity | ]].
  exists (map (imported_message h) (ch_messages c)).
  split; [reflexivity | apply imported_messages_same].
Qed.

Lemma imported_sessions h chats : forall pre,
  Forall2
    (fun c entry =>
       fst entry = VStr (ch_id c)
       /\ nth (snd entry) (pre ++ map (imported_chat h) chats) VUndefined
          = imported_chat h c)
    chats
    (combine (map (fun c => VStr (ch_id c)) chats)
       (seq (List.length pre) (List.length chats))).
Proof.
  induction chats as [| c rest IH]; intros pre; simpl; constructor.
  - split; [reflexivity | ]. simpl. apply nth_middle.
  - specialize (IH (pre ++ [imported_chat h c])).
    rewrite length_app in IH. simpl in IH.
    replace (List.length pre + 1)%nat with (S (List.length pre)) in IH by lia.
    rewrite <- app_assoc in IH. exact IH.
Qed.

(** C4.  Let [exportChats], in the native JSON format, write the
    sessions [chats] (pairwise distinct identities, messages attached)
    to a file, and let the runtime read the written text back as the
    JSON form of the envelope.  Importing that file into an empty index
    imports every entry: the index then holds as many sessions as were
    exported, in the same order, and each has the identity, the message
    count and, in the same order, the messages (identity, role, content)
    of the session it was exported from. *)
Theorem C4_export_import_round_trip (h : Host) (chats : list ChatHistory)
  (out : string) (w w1 w2 : World) :
  NoDup (map ch_id chats) ->
  exportChats_json h (map chat_value chats) out w = (Ok tt, w1) ->
  JSON_parse h
    (JSON_stringify h
       (envelope (time_clip (Date_now h (ticks w))) (map chat_value chats)))
  = Some (jsonify h
            (envelope (time_clip (Date_now h (ticks w))) (map chat_value chats))) ->
  disk w2 = disk w1 ->
  cachedChats (service w2) = [] ->
  exists w3,
    importChats h out w2
    = (Ok {| success := 0 <? Z.of_nat (List.length chats);
             importedCount := Z.of_nat (List.length chats);
             skippedCount := 0; import_errors := [] |}, w3)
    /\ List.length (cachedChats (service w3)) = List.length chats
    /\ Forall2
         (fun c entry =>
            fst entry = VStr (ch_id c)
            /\ same_session c (chat_at w3 (snd entry)))
         chats (cachedChats (service w3)).
Proof.
  intros Hnd Hexport Hround Hdisk Hempty.
  apply exportChats_json_writes in Hexport. rewrite <- Hdisk in Hexport.
  destruct (importChats_exported h out w2 _ _ chats Hexport Hround)
    as [w3 [imported [skipped [Hrun [Heff _]]]]].
  rewrite Hempty in Heff.
  rewrite import_effect_all_new in Heff;
    [ | exact Hnd | intros c _; reflexivity ].
  inversion Heff as [[Hcc Hhp Hi Hk]]. subst imported skipped.
  exists w3. split; [ | split ].
  - rewrite Hrun. simpl. rewrite orb_false_r. reflexivity.
  - rewrite Hcc. simpl. rewrite length_combine, length_map, length_seq.
    apply Nat.min_id.
  - rewrite Hcc. simpl.
    eapply Forall2_impl; [ | apply (imported_sessions h chats (heap w2)) ].
    intros c entry [Hkey Hnth]. split; [exact Hkey | ].
    unfold chat_at. rewrite Hhp.
    match goal with
    | |- same_session c ?v =>
        replace v with (imported_chat h c) by (symmetry; exact Hnth)
    end.
    apply imported_chat_same.
Qed.

(** C5.  Let a file hold an export payload, that is, let the runtime
    read its text as the JSON form of an envelope of sessions.  After a
    first import of the file into any index, a second import of the same
    file imports nothing, counts every entry as skipped, records no
    error and leaves the index and the heap as the first import left
    them. *)
Theorem C5_import_idempotent (h : Host) (path text : string) (t : option Z)
  (chats : list ChatHistory) (w : World) :
  contents (disk w) path = Some text ->
  JSON_parse h text = Some (jsonify h (envelope t (map chat_value chats))) ->
  exists r1 w1 r2 w2,
    importChats h path w = (Ok r1, w1)
    /\ importChats h path w1 = (Ok r2, w2)
    /\ importedCount r2 = 0
    /\ skippedCount r2 = Z.of_nat (List.length chats)
    /\ import_errors r2 = []
    /\ cachedChats (service w2) = cachedChats (service w1)
    /\ heap w2 = heap w1.
Proof.
  intros Htext Hparse.
  destruct (importChats_exported h path w text t chats Htext Hparse)
    as [w1 [i1 [k1 [Hrun1 [Heff1 Hsame1]]]]].
  assert (Htext1 : contents (disk w1) path = Some text).
  { destruct Hsame1 as [Hd _]. rewrite Hd. exact Htext. }
  destruct (importChats_exported h path w1 text t chats Htext1 Hparse)
    as [w2 [i2 [k2 [Hrun2 [Heff2 _]]]]].
  rewrite import_effect_all_present in Heff2.
  - inversion Heff2 as [[Hcc Hhp Hi Hk]].
    eexists _, w1, _, w2. split; [exact Hrun1 | ]. split; [exact Hrun2 | ].
    simpl. repeat split; congruence.
  - intros c Hc.
    pose proof (import_effect_present h chats (cachedChats (service w)) (heap w)
                  0 0 c Hc) as Hpresent.
    rewrite <- Heff1 in Hpresent. exact Hpresent.
Qed.

Lemma C4_export_import_round_trip_witness :
  exists w3,
    importChats export_host "/tmp/export.json" exported_world
    = (Ok {| success := 0 <? Z.of_nat (List.length demo_chats);
             importedCount := Z.of_nat (List.length demo_chats);
             skippedCount := 0; import_errors := [] |}, w3)
    /\ List.length (cachedChats (service w3)) = List.length demo_chats.
Proof.
  destruct (C4_export_import_round_trip export_host demo_chats "/tmp/export.json"
              export_world exported_world exported_world)
    as [w3 [Hrun [Hlen _]]].
  - repeat constructor; simpl; intuition discriminate.
  - unfold exported_world.
    rewrite (surjective_pairing
               (exportChats_json export_host (map chat_value demo_chats)
                  "/tmp/export.json" export_world)) at 1.
    f_equal; vm_compute; reflexivity.
  - vm_compute. reflexivity.
  - reflexivity.
  - vm_compute. reflexivity.
  - exists w3. split; [exact Hrun | exact Hlen].
Defined.

Lemma C5_import_idempotent_witness :
  exists r1 w1 r2 w2,
    importChats export_host "/tmp/export.json" exported_world = (Ok r1, w1)
    /\ importChats export_host "/tmp/export.json" w1 = (Ok r2, w2)
    /\ importedCount r2 = 0
    /\ skippedCount r2 = 2
    /\ cachedChats (service w2) = cachedChats (service w1).
Proof.
  destruct (C5_import_idempotent export_host "/tmp/export.json"
              (JSON_stringify export_host demo_envelope) (time_clip 1000)
              demo_chats exported_world)
    as [r1 [w1 [r2 [w2 [H1 [H2 [Hi [Hk [_ [Hcc _]]]]]]]]]].
  - vm_compute. reflexivity.
  - vm_compute. reflexivity.
  - exists r1, w1, r2, w2. repeat split; assumption.
Defined.

(** ** The size ceiling *)

Lemma preorder_scan_frame path : preorder (scan_frame path).
Proof.
  split; unfold scan_frame.
  - intros w. repeat split; auto.
  - intros a b c [Hd1 [Ht1 [Hc1 Hp1]]] [Hd2 [Ht2 [Hc2 Hp2]]].
    repeat split; try congruence; auto.
Qed.

Lemma large_stats_app d e1 e2 :
  large_stats d (e1 ++ e2) = large_stats d e1 + large_stats d e2.
Proof. unfold large_stats. rewrite filter_app, length_app. lia. Qed.

Lemma preorder_counts_large : preorder counts_large.
Proof.
  split; unfold counts_large.
  - intros w. split; [reflexivity | ]. exists []. rewrite app_nil_r.
    split; [reflexivity | ]. unfold large_stats. simpl. lia.
  - intros a b c [Hd1 [e1 [Ht1 Hc1]]] [Hd2 [e2 [Ht2 Hc2]]].
    split; [congruence | ]. exists (e1 ++ e2).
    split; [rewrite Ht2, Ht1, app_assoc; reflexivity | ].
    rewrite large_stats_app, Hc2, Hc1, Hd1. lia.
Qed.


(** One primitive change of the world, for [scan_frame]: an event other
    than the opening of [path], or a change of the service that leaves
    the two tables as they are. *)
Ltac side_scan_frame :=
  unfold scan_frame; simpl;
  split; [reflexivity | ];
  split; [ first [ tauto
                 | let Hin := fresh "Hin" in
                   let Heq := fresh "Heq" in
                   intros Hin; apply in_app_or in Hin;
                   destruct Hin as [Hin | [Heq | []]];
                   [ exact Hin | first [discriminate Heq | inversion Heq; congruence] ] ]
         | ];
  split; [ reflexivity | tauto ].

Ltac side_counts_large :=
  unfold counts_large; simpl;
  split; [reflexivity | ];
  first [ exists []; rewrite app_nil_r; split; [reflexivity | unfold large_stats; simpl; lia]
        | eexists; split; [reflexivity | unfold large_stats; simpl; lia] ].

Lemma getWorkspaceName_frame h path ws : keeps (scan_frame path) (getWorkspaceName h ws).
Proof. pose proof (preorder_scan_frame path) as HR. keeps_go HR side_scan_frame. Qed.

Lemma getWorkspaceName_counts h ws : keeps counts_large (getWorkspaceName h ws).
Proof. pose proof preorder_counts_large as HR. keeps_go HR side_counts_large. Qed.








Lemma in_combine_fst {A B} (l : list A) (l' : list B) a b :
  In (a, b) (combine l l') -> In a l.
Proof. apply in_combine_l. Qed.





Lemma keeps_weaken {A} (R R' : World -> World -> Prop) (m : M A) :
  (forall w w', R w w' -> R' w w') -> keeps R m -> keeps R' m.
Proof. intros Himp Hk w. apply Himp, Hk. Qed.






















Lemma getCopilotChatStoragePath_returns h w :
  exists p w', getCopilotChatStoragePath h w = (Ok p, w').
Proof.
  unfold getCopilotChatStoragePath, existsSync, bind, log, modify_service,
    modify, gets, ret.
  destruct (String.eqb (config_storagePath h) ""); simpl.
  - eexists _, _. reflexivity.
  - destruct (exists_ (disk w) (config_storagePath h)); eexists _, _; reflexivity.
Qed.



(** ** The index after a pass that completes *)







































(** The entry of the identity-to-path table outlives the index entry:
    after the forced scan of the grown example a full-content load and a
    deep search return nothing for the file, and both still read it. *)
Lemma rescan_leaves_the_path_entry :
  ~ In (ReadFile (sessions_dir +++ "/s1.json")) (trace rescanned_world)
  /\ In (ReadFile (sessions_dir +++ "/s1.json"))
       (trace (snd (loadFullChat scan_host (VStr "s1") rescanned_world)))
  /\ In (ReadFile (sessions_dir +++ "/s1.json"))
       (trace (snd (deepSearch scan_host ["docker"] mode_any rescanned_world))).
Proof.
  split; [ | split ].
  - vm_compute. intuition discriminate.
  - vm_compute. repeat first [left; reflexivity | right].
  - vm_compute. repeat first [left; reflexivity | right].
Qed.

(** ** The scan as a whole *)

Lemma scanPass_returns h p w :
  exists chats w',
    scanPass h p w = (Ok chats, w') /\ _scanInProgress (service w') = false.
Proof.
  unfold scanPass, try_finally, try_catch.
  match goal with
  | |- context [match ?m w with _ => _ end] => destruct (m w) as [[x | e] w1]
  end.
  - eexists _, _. split; reflexivity.
  - eexists _, _. split; reflexivity.
Qed.

(** X1.  A scan request always returns a list of chats: whatever is thrown
    while the directories are walked or the files are processed is
    caught inside it. *)
Theorem scanAllChatHistories_never_throws (h : Host) (forceRefresh : bool) (w : World) :
  exists chats w', scanAllChatHistories h forceRefresh w = (Ok chats, w').
Proof.
  unfold scanAllChatHistories.
  rewrite bind_gets.
  destruct (_scanInProgress (service w)).
  - eexists _, _. reflexivity.
  - unfold bind at 1. unfold Date_now_ at 1. rewrite !bind_gets.
    match goal with |- context [if ?b then _ else _] => destruct b end.
    + eexists _, _. reflexivity.
    + unfold bind at 1. unfold modify_service at 1, modify at 1.
      unfold bind at 1. unfold Date_now_ at 1.
      unfold bind at 1.
      match goal with
      | |- context [getCopilotChatStoragePath h ?w0] =>
          destruct (getCopilotChatStoragePath_returns h w0) as [p [w2 Hp]];
          rewrite Hp
      end.
      unfold bind at 1. unfold modify_service at 1, modify at 1.
      match goal with
      | |- context [scanPass h p ?w0] =>
          destruct (scanPass_returns h p w0) as [chats [w3 [Hrun _]]]
      end.
      eexists _, _. exact Hrun.
Qed.

(** X2.  The in-progress flag is released: after a scan request the flag
    reads as it read before.  A request that finds it set does not touch
    it; a request that finds it clear leaves it clear, also when the scan
    pass has failed. *)
Theorem scanAllChatHistories_releases_flag (h : Host) (forceRefresh : bool) (w : World) :
  _scanInProgress (service (snd (scanAllChatHistories h forceRefresh w)))
  = _scanInProgress (service w).
Proof.
  unfold scanAllChatHistories.
  rewrite bind_gets.
  destruct (_scanInProgress (service w)) eqn:Hbusy.
  - simpl. exact Hbusy.
  - unfold bind at 1. unfold Date_now_ at 1. rewrite !bind_gets.
    match goal with |- context [if ?b then _ else _] => destruct b end.
    + simpl. exact Hbusy.
    + unfold bind at 1. unfold modify_service at 1, modify at 1.
      unfold bind at 1. unfold Date_now_ at 1.
      unfold bind at 1.
      match goal with
      | |- context [getCopilotChatStoragePath h ?w0] =>
          destruct (getCopilotChatStoragePath_returns h w0) as [p [w2 Hp]];
          rewrite Hp
      end.
      unfold bind at 1. unfold modify_service at 1, modify at 1.
      match goal with
      | |- context [scanPass h p ?w0] =>
          destruct (scanPass_returns h p w0) as [chats [w3 [Hrun Hflag]]]
      end.
      rewrite Hrun. exact Hflag.
Qed.

(** X3.  A scan request issued while a scan is in progress returns the
    current snapshot of the index at once: the clock is not read, the
    file system is not called and nothing changes. *)
Theorem scan_in_progress_returns_snapshot (h : Host) (forceRefresh : bool) (w : World) :
  _scanInProgress (service w) = true ->
  scanAllChatHistories h forceRefresh w
  = (Ok (map_values (cachedChats (service w))), w).
Proof.
  intros Hbusy. unfold scanAllChatHistories. rewrite bind_gets, Hbusy.
  reflexivity.
Qed.

Lemma scan_in_progress_returns_snapshot_witness :
  scanAllChatHistories scan_host true busy_world
  = (Ok (map_values (cachedChats (service busy_world))), busy_world).
Proof.
  apply (scan_in_progress_returns_snapshot scan_host true busy_world).
  reflexivity.
Defined.

(** X4.  When the storage root does not exist, a scan pass returns the empty
    list and ends there: the index, the identity-to-path table and the
    staleness cache keep what they held, the time of the last scan is not
    advanced and nothing is saved; the counters have been reset and the
    root has been recorded. *)
Theorem scan_without_storage_root (h : Host) (forceRefresh : bool) (w : World) :
  runs_pass h forceRefresh w = true ->
  exists_ (disk w) (storage_root h (disk w)) = false ->
  exists w',
    scanAllChatHistories h forceRefresh w = (Ok [], w')
    /\ cachedChats (service w') = cachedChats (service w)
    /\ chatFilePaths (service w') = chatFilePaths (service w)
    /\ fileMetaCache (service w') = fileMetaCache (service w)
    /\ _lastScanTime (service w') = _lastScanTime (service w)
    /\ _scanStats (service w') = zero_stats
    /\ _scanInProgress (service w') = false
    /\ _storagePath (service w') = storage_root h (disk w)
    /\ globalState w' = globalState w
    /\ heap w' = heap w
    /\ disk w' = disk w.
Proof.
  unfold runs_pass, storage_root. intros Hpass Hroot.
  apply andb_prop in Hpass. destruct Hpass as [Hidle Hstale].
  apply negb_true_iff in Hidle. apply negb_true_iff in Hstale.
  unfold scanAllChatHistories.
  rewrite bind_gets, Hidle.
  unfold bind at 1. unfold Date_now_ at 1. rewrite !bind_gets.
  cbn [disk service with_ticks ticks].
  rewrite Hstale.
  unfold getCopilotChatStoragePath, scanPass, scanAttempt, try_finally, try_catch,
    existsSync,
    modify_service, Date_now_, log, bind, modify, gets, ret.
  cbn.
  destruct (String.eqb (config_storagePath h) "") eqn:Hcustom; cbn in Hroot |- *.
  - rewrite Hroot. cbn. eexists. repeat split.
  - destruct (exists_ (disk w) (config_storagePath h)) eqn:Hex; cbn in Hroot |- *.
    + rewrite Hroot in Hex. discriminate Hex.
    + rewrite Hroot. cbn. eexists. repeat split.
Qed.

Lemma scan_without_storage_root_witness :
  exists w',
    scanAllChatHistories scan_host false bare_world = (Ok [], w')
    /\ trace w' = [ExistsSync Example.root].
Proof.
  destruct (scan_without_storage_root scan_host false bare_world)
    as [w' [Hrun _]];
    [ vm_compute; reflexivity | vm_compute; reflexivity | ].
  exists w'. split; [exact Hrun | ].
  replace w' with (snd (scanAllChatHistories scan_host false bare_world))
    by (rewrite Hrun; reflexivity).
  vm_compute. reflexivity.
Defined.

(** ** The staleness cache across two calls *)

Lemma map_get_set_same_str {V} (m : jsmap V) (s : string) (v : V) :
  map_get (map_set m (VStr s) v) (VStr s) = Some v.
Proof.
  induction m as [| [k x] m IH]; simpl.
  - rewrite String.eqb_refl. reflexivity.
  - destruct (same_value_zero k (VStr s)) eqn:Hk; simpl; rewrite Hk.
    + reflexivity.
    + exact IH.
Qed.

(** X5.  A file that has been processed to a summary is in the staleness
    cache under exactly the size and modification time it was processed
    with, and processing it again with the same size and time is a cache
    hit: the same summary is returned and no call into the file system is
    made. *)
Theorem processFileFast_then_hit (h : Host) (c : Candidate) (w w' : World) (r : ref) :
  processFileFast h c w = (Ok (Some r), w') ->
  (exists m,
     map_get (fileMetaCache (service w')) (VStr (filePath c)) = Some m
     /\ meta_chat m = r
     /\ meta_mtime m = mtimeMs (stats c)
     /\ meta_size m = size (stats c))
  /\ exists w'',
       processFileFast h c w' = (Ok (Some r), w'')
       /\ trace w'' = trace w'
       /\ heap w'' = heap w'
       /\ skippedCached (_scanStats (service w''))
          = skippedCached (_scanStats (service w')) + 1.
Proof.
  intros Hrun.
  assert (Hhit : forall m,
    map_get (fileMetaCache (service w')) (VStr (filePath c)) = Some m ->
    meta_chat m = r -> meta_mtime m = mtimeMs (stats c) ->
    meta_size m = size (stats c) ->
    (exists id, get (nth r (heap w') VUndefined) "id" = Ok id) ->
    exists w'',
      processFileFast h c w' = (Ok (Some r), w'')
      /\ trace w'' = trace w' /\ heap w'' = heap w'
      /\ skippedCached (_scanStats (service w''))
         = skippedCached (_scanStats (service w')) + 1).
  { intros m Hget Hchat Hm Hs [id Hid].
    unfold processFileFast, processFileFast_begin, bind, gets.
    rewrite Hget, Hm, Hs, !Z.eqb_refl. cbn.
    unfold deref, gets, lift. cbn. rewrite Hchat, Hid. cbn.
    eexists. repeat split. }
  unfold processFileFast in Hrun.
  apply bind_ok in Hrun. destruct Hrun as [p [w1 [Hbegin Hresume]]].
  unfold processFileFast_begin in Hbegin. rewrite bind_gets in Hbegin.
  assert (Hmiss :
    (chat <- parseMetadataFast h (filePath c) (workspaceId c) (size (stats c)) ;;
     ret (Awaiting chat)) w = (Ok p, w1) ->
    (exists m,
       map_get (fileMetaCache (service w')) (VStr (filePath c)) = Some m
       /\ meta_chat m = r /\ meta_mtime m = mtimeMs (stats c)
       /\ meta_size m = size (stats c))
    /\ exists id, get (nth r (heap w') VUndefined) "id" = Ok id).
  { intros Hparse.
    apply bind_ok in Hparse. destruct Hparse as [chat [w2 [_ Hret]]].
    apply ret_ok in Hret. destruct Hret as [Hp Hw]. subst p w2.
    destruct chat as [chat | ]; simpl in Hresume.
    - unfold deref in Hresume. rewrite bind_gets in Hresume.
      destruct (get (nth chat (heap w1) VUndefined) "id") as [id | e] eqn:Hid;
        [ | discriminate Hresume ].
      unfold bind, lift, modify_service, modify, ret in Hresume.
      inversion Hresume. subst r w'. clear Hresume.
      split.
      + eexists. split; [ cbn; apply map_get_set_same_str | repeat split ].
      + exists id. cbn. exact Hid.
    - inversion Hresume. }
  destruct (map_get (fileMetaCache (service w)) (VStr (filePath c)))
    as [m | ] eqn:Hcached.
  - destruct ((meta_mtime m =? mtimeMs (stats c)) && (meta_size m =? size (stats c)))
      eqn:Hfresh.
    + apply andb_prop in Hfresh. destruct Hfresh as [Hm Hs].
      apply Z.eqb_eq in Hm. apply Z.eqb_eq in Hs.
      unfold bump_skippedCached, deref, modify_service, bind, modify, gets, lift, ret
        in Hbegin.
      cbn in Hbegin.
      destruct (get (nth (meta_chat m) (heap w) VUndefined) "id") as [id | e] eqn:Hid;
        [ | discriminate Hbegin ].
      inversion Hbegin. subst p w1. clear Hbegin.
      simpl in Hresume. inversion Hresume. subst r w'. clear Hresume.
      split.
      * exists m. cbn. repeat split; assumption.
      * apply (Hhit m);
          [ cbn; exact Hcached | reflexivity | assumption | assumption
          | exists id; cbn; exact Hid ].
    + destruct (Hmiss Hbegin) as [[m0 [H0 [H1 [H2 H3]]]] Hid].
      split; [exists m0; repeat split; assumption | ].
      apply (Hhit m0 H0 H1 H2 H3 Hid).
  - destruct (Hmiss Hbegin) as [[m0 [H0 [H1 [H2 H3]]]] Hid].
    split; [exists m0; repeat split; assumption | ].
    apply (Hhit m0 H0 H1 H2 H3 Hid).
Qed.

Lemma processFileFast_then_hit_witness :
  exists w'',
    processFileFast scan_host s1_candidate
      (snd (processFileFast scan_host s1_candidate scan_world))
    = (Ok (Some 0%nat), w'')
    /\ trace w'' = trace (snd (processFileFast scan_host s1_candidate scan_world)).
Proof.
  destruct (processFileFast_then_hit scan_host s1_candidate scan_world
              (snd (processFileFast scan_host s1_candidate scan_world)) 0%nat)
    as [_ [w'' [Hrun [Htrace _]]]];
    [ vm_compute; reflexivity | ].
  exists w''. split; [exact Hrun | exact Htrace].
Defined.

(** ** Loading and reloading *)

(** X6.  A full-content load of an identity that has no backing path reads
    nothing: it answers with what the index holds for the identity, and
    the world is as it was. *)
Theorem loadFullChat_without_path (h : Host) (chatId : value) (w : World) :
  map_get (chatFilePaths (service w)) chatId = None ->
  loadFullChat h chatId w = (Ok (map_get (cachedChats (service w)) chatId), w).
Proof.
  intros Hnone. unfold loadFullChat. rewrite bind_gets, Hnone. reflexivity.
Qed.

Lemma loadFullChat_without_path_witness :
  loadFullChat export_host (VStr "a") reimported_world
  = (Ok (map_get (cachedChats (service reimported_world)) (VStr "a")),
     reimported_world).
Proof.
  apply (loadFullChat_without_path export_host (VStr "a") reimported_world).
  vm_compute. reflexivity.
Defined.

Lemma loadFullChat_tables h chatId :
  keeps (both (unchanged service) (unchanged disk)) (loadFullChat h chatId).
Proof.
  pose proof (preorder_both _ _ (preorder_unchanged service)
                (preorder_unchanged disk)) as HR.
  unfold loadFullChat, store.
  keeps_go HR ltac:(split; side_unchanged).
  all: eapply keeps_weaken; [ | apply collectMessages_state ].
  all: intros wa wb [_ [Hd Hs]]; split; unfold unchanged; assumption.
Qed.

(** X7.  A full-content load never throws, and whatever it does it does to
    the chat object: the index, the identity-to-path table, the staleness
    cache, the counters and the disk are as before. *)
Theorem loadFullChat_changes_no_table (h : Host) (chatId : value) (w : World) :
  exists r w',
    loadFullChat h chatId w = (Ok r, w')
    /\ service w' = service w
    /\ disk w' = disk w.
Proof.
  destruct (loadFullChat_returns h chatId w) as [r [w' Hrun]].
  exists r, w'. split; [exact Hrun | ].
  destruct (keeps_run _ _ _ _ _ (loadFullChat_tables h chatId) Hrun) as [Hs Hd].
  split; assumption.
Qed.

(** X8.  Reloading a chat that has no backing path (an imported chat) reads
    nothing and empties the chat: the chat is returned with no messages,
    while its message count still says what it said. *)
Theorem reloadChatFromDisk_without_path (h : Host) (id : value) (w : World)
  (r : ref) (fs : list (string * value)) :
  map_get (chatFilePaths (service w)) id = None ->
  map_get (cachedChats (service w)) id = Some r ->
  chat_at w r = VObj fs ->
  exists w',
    reloadChatFromDisk h id w = (Ok (Some r), w')
    /\ chat_at w' r = VObj (assign fs "messages" (arr []))
    /\ get (chat_at w' r) "messages" = Ok (arr [])
    /\ get (chat_at w' r) "messageCount" = Ok (lookup fs "messageCount")
    /\ trace w' = trace w
    /\ disk w' = disk w
    /\ service w' = service w.
Proof.
  intros Hpath Hchat Hobj.
  assert (Hrange : (r < List.length (heap w))%nat).
  { destruct (Nat.lt_ge_cases r (List.length (heap w))) as [Hlt | Hge];
      [exact Hlt | ].
    unfold chat_at in Hobj. rewrite nth_overflow in Hobj by exact Hge.
    discriminate Hobj. }
  unfold chat_at in Hobj.
  unfold reloadChatFromDisk, loadFullChat, deref, store, bind, gets, lift, modify, ret.
  rewrite Hchat, Hobj. cbn [set service with_heap]. rewrite Hpath.
  cbn [service with_heap]. rewrite Hchat.
  eexists. split; [reflexivity | ].
  unfold chat_at. cbn [heap with_heap trace disk service].
  rewrite store_at_nth by exact Hrange.
  split; [reflexivity | ].
  split; [ simpl; rewrite lookup_assign_same; reflexivity | ].
  split; [ simpl; rewrite lookup_assign_other by discriminate; reflexivity | ].
  repeat split.
Qed.

Lemma reloadChatFromDisk_without_path_witness :
  exists w',
    reloadChatFromDisk export_host (VStr "a") reimported_world = (Ok (Some 0%nat), w')
    /\ get (chat_at w' 0%nat) "messages" = Ok (arr [])
    /\ get (chat_at w' 0%nat) "messageCount"
       = Ok (lookup (fields_of (chat_at reimported_world 0%nat)) "messageCount").
Proof.
  destruct (reloadChatFromDisk_without_path export_host (VStr "a") reimported_world
              0%nat (fields_of (chat_at reimported_world 0%nat)))
    as [w' [Hrun [_ [Hmessages [Hcount _]]]]];
    [ vm_compute; reflexivity | vm_compute; reflexivity
    | vm_compute; reflexivity | ].
  exists w'. split; [exact Hrun | split; [exact Hmessages | exact Hcount]].
Defined.

(** ** Topics of one chat *)

(** X9.  [getTopTopics] never throws and changes nothing but the trace: an
    identity without a backing path and a file that cannot be read give
    the empty list, else the answer is the topic extraction of the text
    of the file. *)
Theorem getTopTopics_reads_only (chatId : value) (count : Z) (w : World) :
  exists w',
    getTopTopics chatId count w = (Ok (topics_of w chatId count), w')
    /\ same_state w w'
    /\ (map_get (chatFilePaths (service w)) chatId = None -> w' = w).
Proof.
  unfold getTopTopics, topics_of. rewrite bind_gets.
  destruct (map_get (chatFilePaths (service w)) chatId) as [p | ].
  - destruct (String.eqb p "").
    + exists w. split; [reflexivity | ]. split; [repeat split | discriminate].
    + unfold try_catch, readFile, log, bind, modify, gets, ret, throw. cbn.
      destruct (contents (disk w) p); cbn;
        (eexists; split; [reflexivity | ];
         split; [repeat split | discriminate]).
  - exists w. split; [reflexivity | ]. split; [repeat split | reflexivity].
Qed.

Lemma getTopTopics_reads_only_witness :
  exists w',
    getTopTopics (VStr "s1") 3 scanned_world
    = (Ok (topics_of scanned_world (VStr "s1") 3), w')
    /\ same_state scanned_world w'.
Proof.
  destruct (getTopTopics_reads_only (VStr "s1") 3 scanned_world)
    as [w' [Hrun [Hsame _]]].
  exists w'. split; [exact Hrun | exact Hsame].
Defined.

(** ** Topic extraction in general *)

Lemma counts_add_fst (m : list (string * Z)) (word : string) (n : Z) (x : string) :
  In x (map fst (counts_add m word n)) -> x = word \/ In x (map fst m).
Proof.
  induction m as [| [w0 c] m IH]; simpl.
  - intros [H | []]. left. symmetry. exact H.
  - destruct (String.eqb w0 word); simpl.
    + intros H. right. exact H.
    + intros [H | H]; [right; left; exact H | ].
      destruct (IH H) as [Hx | Hx]; [left; exact Hx | right; right; exact Hx].
Qed.

Lemma counts_add_topics (m : list (string * Z)) (word : string) :
  topic_word word = true ->
  Forall (fun p => topic_word (fst p) = true /\ 1 <= snd p) m ->
  NoDup (map fst m) ->
  Forall (fun p => topic_word (fst p) = true /\ 1 <= snd p) (counts_add m word 1)
  /\ NoDup (map fst (counts_add m word 1)).
Proof.
  intros Hword. induction m as [| [w0 c] m IH]; intros Hall Hnodup; simpl.
  - split.
    + constructor; [split; [exact Hword | simpl; lia] | constructor].
    + constructor; [intros [] | constructor].
  - inversion Hall as [| ? ? [Hw0 Hc] Hrest]. subst.
    inversion Hnodup as [| ? ? Hnotin Hnodup']. subst.
    simpl in Hw0, Hc.
    destruct (String.eqb w0 word) eqn:Heq.
    + split.
      * constructor; [ | exact Hrest ].
        split; [exact Hw0 | simpl; destruct (c =? 0); lia].
      * simpl. constructor; assumption.
    + destruct (IH Hrest Hnodup') as [Hall' Hnodup''].
      split.
      * constructor; [split; assumption | exact Hall'].
      * simpl. constructor; [ | exact Hnodup'' ].
        intros Hin. apply counts_add_fst in Hin.
        destruct Hin as [Hx | Hx]; [ | exact (Hnotin Hx) ].
        subst w0. rewrite String.eqb_refl in Heq. discriminate Heq.
Qed.

Lemma counted_topics (words : list string) (m : list (string * Z)) :
  Forall (fun p => topic_word (fst p) = true /\ 1 <= snd p) m ->
  NoDup (map fst m) ->
  let counted :=
    fold_left (fun m word => if topic_word word then counts_add m word 1 else m)
      words m in
  Forall (fun p => topic_word (fst p) = true /\ 1 <= snd p) counted
  /\ NoDup (map fst counted).
Proof.
  revert m. induction words as [| word words IH]; intros m Hall Hnodup; simpl.
  - split; assumption.
  - destruct (topic_word word) eqn:Hword.
    + destruct (counts_add_topics m word Hword Hall Hnodup) as [Hall' Hnodup'].
      apply IH; assumption.
    + apply IH; assumption.
Qed.

Lemma NoDup_firstn {A} (n : nat) (l : list A) : NoDup l -> NoDup (firstn n l).
Proof.
  revert n. induction l as [| x l IH]; intros n Hnodup.
  - rewrite firstn_nil. constructor.
  - destruct n as [| n]; simpl; [constructor | ].
    inversion Hnodup as [| ? ? Hnotin Hnodup']. subst.
    constructor; [ | apply IH; exact Hnodup' ].
    intros Hin. apply Hnotin.
    rewrite <- (firstn_skipn n l). apply in_or_app. left. exact Hin.
Qed.

Lemma StronglySorted_firstn {A} (R : A -> A -> Prop) (n : nat) (l : list A) :
  StronglySorted R l -> StronglySorted R (firstn n l).
Proof.
  revert n. induction l as [| x l IH]; intros n Hsorted.
  - rewrite firstn_nil. constructor.
  - destruct n as [| n]; simpl; [constructor | ].
    inversion Hsorted as [| ? ? Hrest Hhead]. subst.
    constructor; [apply IH; exact Hrest | ].
    apply Forall_forall. intros y Hin.
    rewrite Forall_forall in Hhead. apply Hhead.
    rewrite <- (firstn_skipn n l). apply in_or_app. left. exact Hin.
Qed.

Lemma slice0_firstn {A} (count : Z) (l : list A) :
  exists n, slice0 count l = firstn n l.
Proof. unfold slice0. destruct (count <? 0); eexists; reflexivity. Qed.

(** X10.  Whatever the text and the limit: every word topic extraction yields
    has passed the filter (it is no stop word and has at least four
    characters) and is yielded once, with a count of at least one; the
    words come by descending count; and a limit that is not negative
    bounds their number. *)
Theorem extractTopicsWithCounts_yields_topics (content : string) (count : Z) :
  (forall word n,
     In (word, n) (extractTopicsWithCounts content count) ->
     topic_word word = true
     /\ stopWords_has word = false
     /\ (4 <= String.length word)%nat
     /\ 1 <= n)
  /\ NoDup (map fst (extractTopicsWithCounts content count))
  /\ StronglySorted (desc snd) (extractTopicsWithCounts content count)
  /\ (0 <= count ->
      Z.of_nat (List.length (extractTopicsWithCounts content count)) <= count).
Proof.
  rewrite extractTopicsWithCounts_ranked.
  destruct (counted_topics (match_words 0 false (Text.toLowerCase content)) [])
    as [Hall Hnodup]; [constructor | constructor | ].
  fold (rankedTopics content) in *.
  assert (Hperm : Permutation (rankedTopics content)
            (fold_left
               (fun m word => if topic_word word then counts_add m word 1 else m)
               (match_words 0 false (Text.toLowerCase content)) [])).
  { unfold rankedTopics. apply sort_desc_perm. }
  split; [ | split; [ | split ] ].
  - intros word n Hin. apply slice0_incl in Hin.
    apply (Permutation_in _ Hperm) in Hin.
    rewrite Forall_forall in Hall. destruct (Hall _ Hin) as [Htopic Hn].
    simpl in Htopic, Hn.
    split; [exact Htopic | ].
    unfold topic_word in Htopic.
    repeat (apply andb_prop in Htopic; destruct Htopic as [Htopic ?]).
    split; [apply negb_true_iff; exact Htopic | ].
    split; [apply Nat.leb_le; assumption | exact Hn].
  - destruct (slice0_firstn count (rankedTopics content)) as [k Hk].
    rewrite Hk, <- firstn_map. apply NoDup_firstn.
    apply (Permutation_NoDup (Permutation_sym (Permutation_map fst Hperm))).
    exact Hnodup.
  - destruct (slice0_firstn count (rankedTopics content)) as [k Hk].
    rewrite Hk. apply StronglySorted_firstn.
    unfold rankedTopics. apply sort_desc_sorted.
  - intros Hcount. unfold slice0.
    destruct (count <? 0) eqn:Hneg; [apply Z.ltb_lt in Hneg; lia | ].
    rewrite length_firstn. lia.
Qed.

Lemma extractTopicsWithCounts_yields_topics_witness :
  Z.of_nat (List.length (extractTopicsWithCounts shader_text 1)) <= 1.
Proof.
  destruct (extractTopicsWithCounts_yields_topics shader_text 1)
    as [_ [_ [_ Hbound]]].
  apply Hbound. lia.
Defined.

(** ** Previews *)

Lemma length_substring_0 (n : nat) (s : string) :
  String.length (String.substring 0 n s) = Nat.min n (String.length s).
Proof.
  revert n. induction s as [| c s IH]; intros n; simpl.
  - destruct n; reflexivity.
  - destruct n as [| n]; simpl; [reflexivity | ]. rewrite IH. reflexivity.
Qed.

Lemma length_append (a b : string) :
  String.length (a +++ b) = (String.length a + String.length b)%nat.
Proof. induction a as [| c a IH]; simpl; [reflexivity | rewrite IH; reflexivity]. Qed.

(** X11.  The preview of a text: a text of at most [maxLength] characters is
    its own preview; a longer one is cut to its first [maxLength]
    characters, and three dots are put behind them.  So a preview has at
    most [maxLength + 3] characters. *)
Theorem truncateText_preview (h : Host) (s : string) (maxLength : Z) :
  0 <= maxLength ->
  exists r,
    truncateText h (VStr s) maxLength = Ok (VStr r)
    /\ Z.of_nat (String.length r) <= maxLength + 3
    /\ (Z.of_nat (String.length s) <= maxLength -> r = s)
    /\ (maxLength < Z.of_nat (String.length s) ->
        r = String.substring 0 (Z.to_nat maxLength) s +++ "..."
        /\ Z.of_nat (String.length r) = maxLength + 3).
Proof.
  intros Hmax. unfold truncateText.
  destruct (truthy (VStr s)) eqn:Htruthy; simpl in Htruthy |- *.
  - unfold le_number. simpl.
    destruct (Z.of_nat (String.length s) <=? maxLength) eqn:Hshort.
    + apply Z.leb_le in Hshort. exists s.
      split; [reflexivity | ]. split; [lia | ]. split; [reflexivity | lia].
    + apply Z.leb_gt in Hshort. simpl. eexists. split; [reflexivity | ].
      assert (Hlen : Z.of_nat
                (String.length (String.substring 0 (Z.to_nat maxLength) s +++ "..."))
              = maxLength + 3).
      { rewrite length_append, length_substring_0. simpl. lia. }
      split; [lia | ]. split; [lia | ]. intros _. split; [reflexivity | exact Hlen].
  - apply negb_false_iff in Htruthy. apply String.eqb_eq in Htruthy. subst s.
    exists "". split; [reflexivity | ]. split; [simpl; lia | ].
    split; [reflexivity | simpl; lia].
Qed.

Lemma truncateText_preview_witness :
  exists r,
    truncateText scan_host (VStr "hello docker") 5 = Ok (VStr r)
    /\ r = "hello...".
Proof.
  destruct (truncateText_preview scan_host "hello docker" 5) as [r [Hrun [_ [_ Hcut]]]];
    [ lia | ].
  exists r. split; [exact Hrun | ].
  destruct Hcut as [Hr _]; [ simpl; lia | ]. exact Hr.
Defined.

(** ** Conversion of a native session *)

Lemma convertNativeCopilotChat_frame h data p :
  keeps (both (unchanged service) (both (unchanged disk) (unchanged heap)))
    (convertNativeCopilotChat h data p).
Proof.
  pose proof (preorder_both _ _ (preorder_unchanged service)
                (preorder_both _ _ (preorder_unchanged disk)
                   (preorder_unchanged heap))) as HR.
  unfold convertNativeCopilotChat.
  keeps_go HR ltac:(split; [ | split ]; side_unchanged).
  all: eapply keeps_weaken; [ | apply collectMessages_state ].
  all: intros wa wb [Hh [Hd Hs]]; split; [ | split ]; unfold unchanged; assumption.
Qed.

(** X12.  The conversion of a native session never throws and changes neither
    the service nor the disk nor the heap: a document it cannot convert
    gives no chat. *)
Theorem convertNativeCopilotChat_never_throws (h : Host) (data : value)
  (filePath : string) (w : World) :
  exists r w',
    convertNativeCopilotChat h data filePath w = (Ok r, w')
    /\ service w' = service w
    /\ disk w' = disk w
    /\ heap w' = heap w.
Proof.
  assert (Hret : exists r w',
            convertNativeCopilotChat h data filePath w = (Ok r, w')).
  { unfold convertNativeCopilotChat. apply try_catch_default_returns. }
  destruct Hret as [r [w' Hrun]].
  exists r, w'. split; [exact Hrun | ].
  destruct (keeps_run _ _ _ _ _ (convertNativeCopilotChat_frame h data filePath) Hrun)
    as [Hs [Hd Hh]].
  repeat split; assumption.
Qed.

(** X13.  A chat converted from a native session carries the messages its
    turns have produced and, as its message count, their exact number;
    its file size is zero. *)
Theorem convertNativeCopilotChat_counts_messages (h : Host) (data : value)
  (filePath : string) (w w' : World) (chat : value) :
  convertNativeCopilotChat h data filePath w = (Ok (Some chat), w') ->
  exists requests turns messages w1,
    get data "requests" = Ok requests
    /\ iterate requests = Ok turns
    /\ collectMessages h data turns w = (Ok messages, w1)
    /\ get chat "messages" = Ok (arr messages)
    /\ get chat "messageCount" = Ok (VNum (Z.of_nat (List.length messages)))
    /\ get chat "fileSize" = Ok (VNum 0).
Proof.
  intros H. unfold convertNativeCopilotChat in H.
  apply try_catch_null_some in H.
  step H. step H; [ step H; discriminate | ].
  step H. step H; [ step H; discriminate | ].
  step H. step H.
  match goal with
  | Hc : collectMessages _ _ _ _ = (Ok ?ms, ?w1) |- _ =>
      rename Hc into Hcollect
  end.
  repeat step H.
  match goal with Hs : Some _ = Some _ |- _ => inversion Hs end.
  subst. eexists _, _, _, _.
  split; [eassumption | ]. split; [eassumption | ].
  split; [exact Hcollect | ]. repeat split.
Qed.

Lemma convertNativeCopilotChat_counts_messages_witness :
  get (converted_chat
         (convertNativeCopilotChat scan_host session_doc
            (sessions_dir +++ "/s1.json") scan_world)) "fileSize"
  = Ok (VNum 0).
Proof.
  destruct (convertNativeCopilotChat_counts_messages scan_host session_doc
              (sessions_dir +++ "/s1.json") scan_world
              (snd (convertNativeCopilotChat scan_host session_doc
                      (sessions_dir +++ "/s1.json") scan_world))
              (converted_chat
                 (convertNativeCopilotChat scan_host session_doc
                    (sessions_dir +++ "/s1.json") scan_world)))
    as [requests [turns [messages [w1 [_ [_ [_ [_ [_ Hsize]]]]]]]]];
    [ vm_compute; reflexivity | exact Hsize ].
Defined.

(** ** Import: what it leaves alone *)

Lemma preorder_keeps_sessions : preorder keeps_sessions.
Proof.
  split; unfold keeps_sessions.
  - intros w. split; [reflexivity | ]. split; [reflexivity | ].
    split; [exists []; rewrite app_nil_r; reflexivity | auto].
  - intros a b c [Hd1 [Hf1 [[hp1 Hh1] Hi1]]] [Hd2 [Hf2 [[hp2 Hh2] Hi2]]].
    split; [congruence | ]. split; [congruence | ].
    split; [exists (hp1 ++ hp2); rewrite Hh2, Hh1, app_assoc; reflexivity | ].
    intros id r Hget. apply Hi2, Hi1, Hget.
Qed.

Section KeepsImport.

Variable R : World -> World -> Prop.
Hypothesis HR : preorder R.

Lemma keeps_import_ret {A} (a : A) : keeps_import R (ret a).
Proof. intros w r. apply (pre_refl _ HR). Qed.

Lemma keeps_import_lift {A} (x : result A) : keeps_import R (lift x).
Proof. intros w r. apply (pre_refl _ HR). Qed.

Lemma keeps_import_result (f : ImportResult -> ImportResult) :
  keeps_import R (modify (fun '(w, r) => (w, f r))).
Proof. intros w r. apply (pre_refl _ HR). Qed.

Lemma keeps_import_liftW {A} (m : M A) : keeps R m -> keeps_import R (liftW m).
Proof.
  intros Hm w r. unfold liftW. specialize (Hm w).
  destruct (m w) as [x w']. exact Hm.
Qed.

Lemma keeps_import_bind {A B} (m : ImportM A) (k : A -> ImportM B) :
  keeps_import R m -> (forall a, keeps_import R (k a)) -> keeps_import R (bind m k).
Proof.
  intros Hm Hk w r. unfold bind. specialize (Hm w r).
  destruct (m (w, r)) as [[a | e] [w1 r1]]; simpl in *.
  - eapply (pre_trans _ HR); [exact Hm | apply Hk].
  - exact Hm.
Qed.

Lemma keeps_import_bind_at {A B} (m : ImportM A) (k : A -> ImportM B) w r :
  R w (fst (snd (m (w, r)))) -> (forall a, keeps_import R (k a)) ->
  R w (fst (snd (bind m k (w, r)))).
Proof.
  intros Hm Hk. unfold bind.
  destruct (m (w, r)) as [[a | e] [w1 r1]]; simpl in *.
  - eapply (pre_trans _ HR); [exact Hm | apply Hk].
  - exact Hm.
Qed.

Lemma keeps_import_try_catch {A} (m : ImportM A) (handler : exn -> ImportM A) :
  keeps_import R m -> (forall e, keeps_import R (handler e)) ->
  keeps_import R (try_catch m handler).
Proof.
  intros Hm Hh w r. unfold try_catch. specialize (Hm w r).
  destruct (m (w, r)) as [[a | e] [w1 r1]]; simpl in *.
  - exact Hm.
  - eapply (pre_trans _ HR); [exact Hm | apply Hh].
Qed.

End KeepsImport.

Lemma get_after_set (v v' : value) (k k' : string) (x : value) :
  set v k x = Ok v' -> k' <> k -> get v' k' = get v k'.
Proof.
  intros Hset Hk. destruct v; simpl in Hset; inversion Hset; subst; simpl.
  - reflexivity.
  - destruct (String.eqb k' "length"); [reflexivity | ].
    rewrite lookup_assign_other by exact Hk. reflexivity.
  - rewrite lookup_assign_other by exact Hk. reflexivity.
Qed.

Lemma revive_chat_id h chat b revived :
  revive_chat h chat b = Ok revived -> get revived "id" = get chat "id".
Proof.
  unfold revive_chat, rbind. intros H.
  destruct (get chat "createdAt") as [createdAt | ]; [ | discriminate H ].
  destruct (set chat "createdAt" (new_Date h createdAt)) as [chat1 | ] eqn:H1;
    [ | discriminate H ].
  destruct (get chat1 "updatedAt") as [updatedAt | ]; [ | discriminate H ].
  destruct (set chat1 "updatedAt" (new_Date h updatedAt)) as [chat2 | ] eqn:H2;
    [ | discriminate H ].
  destruct (get chat2 "messages") as [messages | ]; [ | discriminate H ].
  destruct (call_map _ _) as [revived' | ]; [ | discriminate H ].
  rewrite (get_after_set _ _ _ "id" _ H) by discriminate.
  rewrite (get_after_set _ _ _ "id" _ H2) by discriminate.
  apply (get_after_set _ _ _ "id" _ H1). discriminate.
Qed.

Lemma map_get_app_some {V} (m : jsmap V) (k : value) (v : V) (extra : jsmap V) :
  map_get m k = Some v -> map_get (m ++ extra) k = Some v.
Proof.
  induction m as [| [k' x] m IH]; simpl; [discriminate | ].
  destruct (same_value_zero k' k); [auto | exact IH].
Qed.

(** An identity that is not in the index is entered without touching
    the entries that are. *)
Lemma index_new_guarded v id w :
  get v "id" = Ok id ->
  map_has (cachedChats (service w)) id = false ->
  keeps_sessions w (snd (index_new v w)).
Proof.
  intros Hid Hnew. rewrite (index_new_run v id w Hid). unfold indexed, keeps_sessions.
  cbn [snd disk heap service with_heap with_service fileMetaCache cachedChats
       with_cachedChats].
  split; [reflexivity | ]. split; [reflexivity | ].
  split; [eexists; reflexivity | ].
  intros id' r Hget. rewrite (map_set_absent _ _ _ Hnew).
  apply map_get_app_some. exact Hget.
Qed.

Lemma keeps_sessions_paths w (f : jsmap string -> jsmap string) :
  keeps_sessions w
    (with_service (with_chatFilePaths (f (chatFilePaths (service w))) (service w)) w).
Proof.
  unfold keeps_sessions. simpl.
  split; [reflexivity | ]. split; [reflexivity | ].
  split; [exists []; rewrite app_nil_r; reflexivity | auto].
Qed.

(** The guarded entry of one chat, as the branches of the import make
    it: [present] is what the index has answered for [id]. *)
Lemma guarded_entry_keeps h (chat : value) (id : value) (b : bool)
  (after : ImportM unit) w r :
  get chat "id" = Ok id ->
  keeps_import keeps_sessions after ->
  keeps_sessions w
    (fst (snd
       ((if map_has (cachedChats (service w)) id then count_skipped
         else
           revived <- lift (revive_chat h chat b) ;;
           liftW (index_new revived) ;;;
           after) (w, r)))).
Proof.
  intros Hid Hafter.
  pose proof preorder_keeps_sessions as HR.
  destruct (map_has (cachedChats (service w)) id) eqn:Hhas.
  - apply (pre_refl _ HR).
  - destruct (revive_chat h chat b) as [revived | e] eqn:Hrevive.
    + rewrite bind_lift_ok. rewrite bind_liftW.
      assert (Hid' : get revived "id" = Ok id).
      { rewrite (revive_chat_id _ _ _ _ Hrevive). exact Hid. }
      pose proof (index_new_guarded revived id w Hid' Hhas) as Hnew.
      destruct (index_new revived w) as [[x | e] w1]; simpl in Hnew.
      * eapply (pre_trans _ HR); [exact Hnew | apply Hafter].
      * exact Hnew.
    + apply (pre_refl _ HR).
Qed.

Lemma importEntry_keeps h chat : keeps_import keeps_sessions (importEntry h chat).
Proof.
  pose proof preorder_keeps_sessions as HR.
  unfold importEntry.
  apply (keeps_import_try_catch _ HR).
  - intros w r. destruct (get chat "id") as [id | e] eqn:Hid.
    + rewrite bind_lift_ok. unfold cachedChats_has. rewrite bind_liftW.
      unfold gets.
      apply (guarded_entry_keeps h chat id true count_imported w r Hid).
      apply (keeps_import_result _ HR).
    + apply (pre_refl _ HR).
  - intros e. apply (keeps_import_bind _ HR); [apply (keeps_import_lift _ HR) | ].
    intros id. apply (keeps_import_result _ HR).
Qed.

Lemma importEntries_keeps h chats : keeps_import keeps_sessions (importEntries h chats).
Proof.
  pose proof preorder_keeps_sessions as HR.
  induction chats as [| chat rest IH]; simpl.
  - apply (keeps_import_ret _ HR).
  - apply (keeps_import_bind _ HR); [apply importEntry_keeps | intros _; exact IH].
Qed.

Lemma convertNativeCopilotChat_sessions h data p :
  keeps keeps_sessions (convertNativeCopilotChat h data p).
Proof.
  eapply keeps_weaken; [ | apply convertNativeCopilotChat_frame ].
  intros w w' [Hs [Hd Hh]]. unfold unchanged in *. unfold keeps_sessions.
  rewrite Hs, Hd, Hh.
  split; [reflexivity | ]. split; [reflexivity | ].
  split; [exists []; rewrite app_nil_r; reflexivity | auto].
Qed.

Lemma readFile_sessions p : keeps keeps_sessions (readFile p).
Proof.
  intros w. unfold readFile, log, bind, modify, gets. simpl.
  destruct (contents (disk w) p); simpl; unfold keeps_sessions; simpl;
    (split; [reflexivity | ]; split; [reflexivity | ];
     split; [exists []; rewrite app_nil_r; reflexivity | auto]).
Qed.

Lemma importDocument_keeps h filePath :
  keeps_import keeps_sessions (importDocument h filePath).
Proof.
  pose proof preorder_keeps_sessions as HR.
  unfold importDocument.
  apply (keeps_import_bind _ HR);
    [apply keeps_import_liftW, readFile_sessions | intros content].
  apply (keeps_import_bind _ HR).
  { apply keeps_import_liftW. unfold parse.
    destruct (JSON_parse h content); [apply (keeps_ret _ HR) | apply (keeps_throw _ HR)]. }
  intros data.
  apply (keeps_import_bind _ HR); [apply (keeps_import_lift _ HR) | intros chats].
  destruct (truthy chats && isArray chats).
  { apply (keeps_import_bind _ HR); [apply (keeps_import_lift _ HR) | intros entries].
    apply (keeps_import_bind _ HR); [apply importEntries_keeps | intros _].
    apply (keeps_import_ret _ HR). }
  intros w r. destruct (get data "id") as [id | e] eqn:Hid;
    [ rewrite bind_lift_ok | apply (pre_refl _ HR) ].
  revert w r.
  apply (keeps_import_bind _ HR); [apply (keeps_import_lift _ HR) | intros messages].
  destruct (truthy id && truthy messages && isArray messages).
  { intros w r. unfold cachedChats_has. rewrite bind_liftW. unfold gets.
    apply (keeps_import_bind_at _ HR);
      [ | intros _; apply (keeps_import_ret _ HR) ].
    apply (guarded_entry_keeps h data id false count_imported w r Hid).
    apply (keeps_import_result _ HR). }
  apply (keeps_import_bind _ HR); [apply (keeps_import_lift _ HR) | intros sessionId].
  apply (keeps_import_bind _ HR); [apply (keeps_import_lift _ HR) | intros requests].
  destruct (truthy sessionId && truthy requests).
  - apply (keeps_import_bind _ HR);
      [ apply keeps_import_liftW, convertNativeCopilotChat_sessions
      | intros converted ].
    apply (keeps_import_bind _ HR); [ | intros _; apply (keeps_import_ret _ HR) ].
    destruct converted as [chat | ]; [ | apply (keeps_import_result _ HR) ].
    intros w r. destruct (get chat "id") as [id' | e] eqn:Hid';
      [ rewrite bind_lift_ok | apply (pre_refl _ HR) ].
    unfold cachedChats_has. rewrite bind_liftW. unfold gets.
    destruct (map_has (cachedChats (service w)) id') eqn:Hhas;
      [ apply (pre_refl _ HR) | ].
    rewrite bind_liftW.
    pose proof (index_new_guarded chat id' w Hid' Hhas) as Hnew.
    destruct (index_new chat w) as [[x | e] w1]; simpl in Hnew; [ | exact Hnew ].
    rewrite bind_liftW. unfold modify_service, modify.
    eapply (pre_trans _ HR); [exact Hnew | ].
    apply (keeps_sessions_paths w1 (fun paths => map_set paths id' filePath)).
  - apply (keeps_import_bind _ HR); [apply (keeps_import_lift _ HR) | intros names].
    apply (keeps_import_bind _ HR); [ | intros _; apply (keeps_import_ret _ HR) ].
    apply (keeps_import_result _ HR).
Qed.

(** X14.  Whatever the file holds, an import writes nothing to the disk,
    leaves the staleness cache as it is, and takes nothing from the
    index: every identity the index held before is still held after, by
    the same chat object, and the objects in the heap are the objects
    that were there, new ones behind them. *)
Theorem importChats_keeps_sessions (h : Host) (filePath : string) (w : World) :
  disk (snd (importChats h filePath w)) = disk w
  /\ fileMetaCache (service (snd (importChats h filePath w)))
     = fileMetaCache (service w)
  /\ (exists hp, heap (snd (importChats h filePath w)) = heap w ++ hp)
  /\ (forall id r,
        map_get (cachedChats (service w)) id = Some r ->
        map_get (cachedChats (service (snd (importChats h filePath w)))) id = Some r).
Proof.
  pose proof preorder_keeps_sessions as HR.
  assert (Hbody : keeps_import keeps_sessions
            (try_catch
               (finished <- importDocument h filePath ;;
                if finished : bool then set_success else ret tt)
               (fun error => push_error ("Parse error: " +++ message error)))).
  { apply (keeps_import_try_catch _ HR).
    - apply (keeps_import_bind _ HR); [apply importDocument_keeps | intros finished].
      destruct finished; [apply (keeps_import_result _ HR) | apply (keeps_import_ret _ HR)].
    - intros e. apply (keeps_import_result _ HR). }
  specialize (Hbody w initial_result).
  unfold importChats.
  destruct (try_catch _ _ (w, initial_result)) as [x [w' r]].
  exact Hbody.
Qed.

Lemma importChats_keeps_sessions_witness :
  map_get
    (cachedChats
       (service (snd (importChats export_host "/tmp/export.json" reimported_world))))
    (VStr "a")
  = Some 0%nat.
Proof.
  destruct (importChats_keeps_sessions export_host "/tmp/export.json" reimported_world)
    as [_ [_ [_ Hindex]]].
  apply Hindex. vm_compute. reflexivity.
Defined.

(** X15.  An import of a file that cannot be read, or whose text is no JSON
    text, reports failure with one error and no count, and changes
    nothing but the trace. *)
Theorem importChats_without_document (h : Host) (filePath : string) (w : World) :
  no_document h (disk w) filePath ->
  exists msg,
    importChats h filePath w
    = (Ok {| success := false; importedCount := 0; skippedCount := 0;
             import_errors := ["Parse error: " +++ msg] |},
       with_trace (trace w ++ [ReadFile filePath]) w).
Proof.
  unfold no_document, importChats, importDocument, try_catch.
  intros Hdoc. rewrite bind_assoc, bind_liftW.
  unfold readFile, log, bind, modify, gets, ret, throw, push_error. cbn.
  destruct (contents (disk w) filePath) as [text | ]; cbn.
  - unfold liftW, parse. rewrite Hdoc. cbn. eexists. reflexivity.
  - eexists. reflexivity.
Qed.

Lemma importChats_without_document_witness :
  exists msg,
    importChats scan_host "/nowhere.json" scan_world
    = (Ok {| success := false; importedCount := 0; skippedCount := 0;
             import_errors := ["Parse error: " +++ msg] |},
       with_trace (trace scan_world ++ [ReadFile "/nowhere.json"]) scan_world).
Proof.
  apply (importChats_without_document scan_host "/nowhere.json" scan_world).
  vm_compute. exact I.
Defined.

(** ** Deep search: what it reads and what it can find *)

(** X16.  A deep search never throws and changes neither the service nor the
    heap nor the disk; every result it returns is for an identity that
    has a backing path and is in the index, so a chat that was deleted
    from the index, or imported without a file, is never found. *)
Theorem deepSearch_reads_only (h : Host) (searchTerms : list string) (m : mode) (w : World) :
  exists results w',
    deepSearch h searchTerms m w = (Ok results, w')
    /\ same_state w w'
    /\ (forall res, In res results ->
          exists chatId,
            In (chatId, sr_filePath res) (chatFilePaths (service w))
            /\ map_get (cachedChats (service w)) chatId = Some (sr_chat res)).
Proof.
  destruct (searchEntries_run h searchTerms m (chatFilePaths (service w)) w)
    as [w' [Hrun Hsame]].
  exists (sort_desc sr_totalMatches
            (flat_map (entry_results h searchTerms m w) (chatFilePaths (service w)))), w'.
  split; [ | split; [exact Hsame | ] ].
  - unfold deepSearch. rewrite bind_gets. unfold bind. rewrite Hrun. reflexivity.
  - intros res Hin.
    apply (Permutation_in _ (sort_desc_perm sr_totalMatches _)) in Hin.
    apply in_flat_map in Hin. destruct Hin as [[chatId p] [Hentry Hres]].
    unfold entry_results in Hres.
    destruct (contents (disk w) p) as [content | ]; [ | destruct Hres ].
    destruct (searchContent h searchTerms m content) as [[wc total] matches].
    destruct matches; [ | destruct Hres ].
    destruct (map_get (cachedChats (service w)) chatId) as [c | ] eqn:Hchat;
      [ | destruct Hres ].
    destruct Hres as [<- | []]. simpl.
    exists chatId. split; [exact Hentry | exact Hchat].
Qed.

Lemma deepSearch_reads_only_witness :
  exists results w',
    deepSearch scan_host ["docker"] mode_any scanned_world = (Ok results, w')
    /\ same_state scanned_world w'.
Proof.
  destruct (deepSearch_reads_only scan_host ["docker"] mode_any scanned_world)
    as [results [w' [Hrun [Hsame _]]]].
  exists results, w'. split; [exact Hrun | exact Hsame].
Defined.

Lemma flat_map_nil {A B} (f : A -> list B) (l : list A) :
  (forall a, In a l -> f a = []) -> flat_map f l = [].
Proof.
  induction l as [| a l IH]; intros Hf; simpl; [reflexivity | ].
  rewrite (Hf a) by (left; reflexivity). simpl.
  apply IH. intros b Hb. apply Hf. right. exact Hb.
Qed.

(** X17.  A deep search for no terms: in mode [any] nothing is found; in mode
    [all] every indexed chat whose file can be read is found, with no
    match to its name, since every one of no terms occurs. *)
Theorem deepSearch_without_terms (h : Host) (w : World) :
  (exists w', deepSearch h [] mode_any w = (Ok [], w'))
  /\ (forall chatId filePath chat content,
        In (chatId, filePath) (chatFilePaths (service w)) ->
        map_get (cachedChats (service w)) chatId = Some chat ->
        contents (disk w) filePath = Some content ->
        exists results w',
          deepSearch h [] mode_all w = (Ok results, w')
          /\ In {| sr_chat := chat; sr_wordCounts := []; sr_totalMatches := 0;
                   sr_filePath := filePath |} results).
Proof.
  split.
  - destruct (searchEntries_run h [] mode_any (chatFilePaths (service w)) w)
      as [w' [Hrun _]].
    exists w'. unfold deepSearch. rewrite bind_gets. unfold bind. rewrite Hrun.
    rewrite flat_map_nil; [reflexivity | ].
    intros [chatId p] _. unfold entry_results.
    destruct (contents (disk w) p); reflexivity.
  - intros chatId filePath chat content Hentry Hchat Hcontent.
    destruct (searchEntries_run h [] mode_all (chatFilePaths (service w)) w)
      as [w' [Hrun _]].
    eexists _, w'. split.
    + unfold deepSearch. rewrite bind_gets. unfold bind. rewrite Hrun. reflexivity.
    + apply (Permutation_in _ (Permutation_sym (sort_desc_perm sr_totalMatches _))).
      apply in_flat_map. exists (chatId, filePath). split; [exact Hentry | ].
      unfold entry_results. rewrite Hcontent. simpl. rewrite Hchat.
      left. reflexivity.
Qed.

Lemma deepSearch_without_terms_witness :
  exists results w',
    deepSearch scan_host [] mode_all scanned_world = (Ok results, w')
    /\ In {| sr_chat := 0%nat; sr_wordCounts := []; sr_totalMatches := 0;
             sr_filePath := sessions_dir +++ "/s1.json" |} results.
Proof.
  destruct (deepSearch_without_terms scan_host scanned_world) as [_ Hall].
  apply (Hall (VStr "s1") (sessions_dir +++ "/s1.json") 0%nat
           (Example.print session_doc));
    [ vm_compute; left; reflexivity | vm_compute; reflexivity
    | vm_compute; reflexivity ].
Defined.

(** ** The storage root and the name of a workspace *)


(** X18.  [getCopilotChatStoragePath] never throws: it answers with the
    configured path when there is one and it exists, else with
    [workspaceStorage] under the user-data directory; it records its
    answer in [_storagePath], asks the disk only about a configured path,
    and changes nothing else. *)
Theorem getCopilotChatStoragePath_resolves (h : Host) (w : World) :
  exists w',
    getCopilotChatStoragePath h w = (Ok (storage_root h (disk w)), w')
    /\ _storagePath (service w') = storage_root h (disk w)
    /\ trace w'
       = trace w ++ (if String.eqb (config_storagePath h) "" then []
                     else [ExistsSync (config_storagePath h)])
    /\ same_store w w'
    /\ same_tables w w'
    /\ cachedChats (service w') = cachedChats (service w).
Proof.
  unfold getCopilotChatStoragePath, storage_root, existsSync, modify_service, log,
    bind, modify, gets, ret, same_store, same_tables.
  destruct (String.eqb (config_storagePath h) "") eqn:Hcustom; cbn.
  - eexists. split; [reflexivity | ]. cbn. rewrite app_nil_r. repeat split.
  - destruct (exists_ (disk w) (config_storagePath h)); cbn;
      (eexists; split; [reflexivity | ]; cbn; repeat split).
Qed.

(** X19.  [getWorkspaceName] never throws; when the workspace has no
    [workspace.json] under the storage root, the name is the word
    [Workspace] and the first eight characters of the identifier. *)
Theorem getWorkspaceName_falls_back (h : Host) (workspaceId : string) (w : World) :
  (exists name w', getWorkspaceName h workspaceId w = (Ok name, w'))
  /\ (exists_ (disk w)
        (path_join h [storage_root h (disk w); workspaceId; "workspace.json"]) = false ->
      fst (getWorkspaceName h workspaceId w)
      = Ok ("Workspace " +++ String.substring 0 8 workspaceId)).
Proof.
  split.
  - unfold getWorkspaceName.
    match goal with
    | |- context [try_catch ?b _] =>
        destruct (try_catch_default_returns b None w) as [r [w1 Hr]]
    end.
    unfold bind at 1. rewrite Hr. destruct r; eexists _, _; reflexivity.
  - intros Hnone.
    destruct (getCopilotChatStoragePath_returns h w) as [p [w1 Hp]].
    assert (Hroot : p = storage_root h (disk w) /\ disk w1 = disk w).
    { revert Hp.
      unfold getCopilotChatStoragePath, storage_root, existsSync, modify_service, log,
        bind, modify, gets, ret.
      destruct (String.eqb (config_storagePath h) ""); cbn.
      - intros H. inversion H. split; reflexivity.
      - destruct (exists_ (disk w) (config_storagePath h)); cbn;
          intros H; inversion H; split; reflexivity. }
    destruct Hroot as [-> Hdisk].
    unfold getWorkspaceName. unfold bind at 1. unfold try_catch.
    rewrite (bind_run_ok _ _ _ _ _ Hp).
    unfold existsSync, log, bind, modify, gets, ret. cbn.
    rewrite Hdisk, Hnone. reflexivity.
Qed.

Lemma getWorkspaceName_falls_back_witness :
  fst (getWorkspaceName scan_host "0123456789abcdef" scan_world)
  = Ok ("Workspace " +++ String.substring 0 8 "0123456789abcdef").
Proof.
  destruct (getWorkspaceName_falls_back scan_host "0123456789abcdef" scan_world)
    as [_ Hfall].
  apply Hfall. vm_compute. reflexivity.
Defined.

(** ** Deleting a chat *)

Lemma same_value_zero_unique (k a b : value) :
  same_value_zero k a = true -> same_value_zero k b = true -> a = b.
Proof.
  destruct k, a; simpl; try discriminate; destruct b; simpl; try discriminate;
    intros Ha Hb; try reflexivity.
  - apply Bool.eqb_prop in Ha. apply Bool.eqb_prop in Hb. congruence.
  - apply Z.eqb_eq in Ha. apply Z.eqb_eq in Hb. congruence.
  - apply String.eqb_eq in Ha. apply String.eqb_eq in Hb. congruence.
Qed.

Lemma map_get_delete_same {V} (m : jsmap V) (k : value) :
  map_get (map_delete m k) k = None.
Proof.
  induction m as [| [k' v] m IH]; simpl; [reflexivity | ].
  destruct (same_value_zero k' k) eqn:Hk; simpl.
  - exact IH.
  - rewrite Hk. exact IH.
Qed.

Lemma map_get_delete_other {V} (m : jsmap V) (k k' : value) :
  k' <> k -> map_get (map_delete m k) k' = map_get m k'.
Proof.
  intros Hneq. induction m as [| [k0 v] m IH]; simpl; [reflexivity | ].
  destruct (same_value_zero k0 k) eqn:Hk; simpl.
  - destruct (same_value_zero k0 k') eqn:Hk'; [ | exact IH ].
    exfalso. apply Hneq. exact (same_value_zero_unique k0 k' k Hk' Hk).
  - destruct (same_value_zero k0 k'); [reflexivity | exact IH].
Qed.

(** X20.  [deleteChat] answers whether the index held the identity, and takes
    the identity out of the index and does nothing else: every other
    identity is held as before, and the identity-to-path table, the
    staleness cache, the heap and the disk (so the file of the chat) are
    as they were. *)
Theorem deleteChat_forgets_the_index_entry (id : value) (w : World) :
  exists w',
    deleteChat id w = (Ok (map_has (cachedChats (service w)) id), w')
    /\ map_get (cachedChats (service w')) id = None
    /\ (forall id', id' <> id ->
          map_get (cachedChats (service w')) id'
          = map_get (cachedChats (service w)) id')
    /\ same_tables w w'
    /\ same_store w w'
    /\ trace w' = trace w.
Proof.
  unfold deleteChat, modify_service, bind, gets, modify, ret.
  eexists. split; [reflexivity | ].
  cbn [service with_service cachedChats with_cachedChats].
  split; [apply map_get_delete_same | ].
  split; [intros id' Hneq; apply map_get_delete_other; exact Hneq | ].
  unfold same_tables, same_store. simpl. repeat split.
Qed.

(** ** Chats by workspace *)

Lemma group_after_cons (before : option (list ref)) (r : ref) (added : list ref) :
  group_after
    (Some (match before with Some members => members | None => [] end ++ [r])) added
  = group_after before (r :: added).
Proof.
  destruct before as [members | ]; simpl.
  - rewrite <- app_assoc. reflexivity.
  - reflexivity.
Qed.

Lemma groupChats_run (chats : list ref) :
  forall (grouped : jsmap (list ref)) (w : World),
    (forall r, In r chats ->
               exists s, get (chat_at w r) "workspaceName" = Ok (VStr s)) ->
    exists groups,
      groupChats chats grouped w = (Ok groups, w)
      /\ forall name,
           map_get groups (VStr name)
           = group_after (map_get grouped (VStr name))
               (filter (in_workspace w name) chats).
Proof.
  induction chats as [| chat rest IH]; intros grouped w Hnamed.
  - exists grouped. split; [reflexivity | ].
    intros name. simpl. destruct (map_get grouped (VStr name)); simpl.
    + rewrite app_nil_r. reflexivity.
    + reflexivity.
  - destruct (Hnamed chat (or_introl eq_refl)) as [s Hs].
    simpl groupChats. unfold deref. rewrite bind_gets.
    fold (chat_at w chat). rewrite Hs, bind_lift_ok.
    set (members := match map_get grouped (VStr s) with
                    | Some ms => ms
                    | None => []
                    end).
    assert (Hmembers :
      map_get (if negb (map_has grouped (VStr s))
               then map_set grouped (VStr s) [] else grouped) (VStr s)
      = Some members).
    { unfold map_has, members.
      destruct (map_get grouped (VStr s)) as [ms | ] eqn:Hget; simpl.
      - exact Hget.
      - apply map_get_set_same_str. }
    rewrite Hmembers.
    destruct (IH (map_set (if negb (map_has grouped (VStr s))
                           then map_set grouped (VStr s) [] else grouped)
                    (VStr s) (members ++ [chat])) w)
      as [groups [Hrun Hgroups]].
    { intros r Hr. apply Hnamed. right. exact Hr. }
    exists groups. split; [exact Hrun | ].
    intros name. rewrite Hgroups. simpl filter.
    unfold in_workspace at 2. rewrite Hs.
    destruct (String.eqb s name) eqn:Hname.
    + apply String.eqb_eq in Hname. subst name.
      rewrite map_get_set_same_str. unfold members. apply group_after_cons.
    + apply String.eqb_neq in Hname.
      rewrite map_get_set_other by congruence.
      unfold map_has. destruct (map_get grouped (VStr s)); simpl.
      * reflexivity.
      * rewrite map_get_set_other by congruence. reflexivity.
Qed.

(** X21.  When every chat of the index has a string as its workspace name,
    [getChatsByWorkspace] returns and changes nothing, and for every
    name: the group of the name is the list, in the order of the index,
    of the chats with that workspace name, and there is no group for a
    name that no chat has. *)
Theorem getChatsByWorkspace_groups (w : World) :
  named_index w ->
  exists groups,
    getChatsByWorkspace w = (Ok groups, w)
    /\ forall name,
         map_get groups (VStr name)
         = group_after None
             (filter (in_workspace w name) (map_values (cachedChats (service w)))).
Proof.
  intros Hnamed. unfold getChatsByWorkspace. rewrite bind_gets.
  destruct (groupChats_run (map_values (cachedChats (service w))) [] w Hnamed)
    as [groups [Hrun Hgroups]].
  exists groups. split; [exact Hrun | exact Hgroups].
Qed.

Lemma getChatsByWorkspace_groups_witness :
  exists groups,
    getChatsByWorkspace typed_world = (Ok groups, typed_world)
    /\ map_get groups (VStr "Workspace ws2") = Some [1%nat].
Proof.
  destruct (getChatsByWorkspace_groups typed_world) as [groups [Hrun Hgroups]].
  - intros r [<- | [<- | []]]; eexists; vm_compute; reflexivity.
  - exists groups. split; [exact Hrun | ].
    rewrite Hgroups. vm_compute. reflexivity.
Defined.

(** ** Search by text *)

Lemma some_message_typed (h : Host) (query : string)
  (messages : list ChatMessage) :
  some_message h (String_toLowerCase h query) (map message_value messages)
  = Ok (existsb (fun m => contains_ci h (msg_content m) query) messages).
Proof.
  induction messages as [| m rest IH]; simpl; [reflexivity | ].
  unfold contains_ci at 1.
  destruct (includes (String_toLowerCase h query)
              (String_toLowerCase h (msg_content m))); simpl.
  - reflexivity.
  - exact IH.
Qed.

Lemma chat_matches_typed (h : Host) (query : string) (c : ChatHistory) :
  chat_matches h (String_toLowerCase h query) (chat_value c)
  = Ok (session_matches h query c).
Proof.
  unfold chat_matches, session_matches. simpl.
  unfold contains_ci at 1.
  destruct (includes (String_toLowerCase h query)
              (String_toLowerCase h (ch_workspaceName c))); simpl.
  - reflexivity.
  - apply some_message_typed.
Qed.

Lemma filterM_typed (h : Host) (query : string) (w : World)
  (typed : ref -> ChatHistory) (chats : list ref) :
  (forall r, In r chats -> chat_at w r = chat_value (typed r)) ->
  filterM (fun chat => v <- deref chat ;;
                       lift (chat_matches h (String_toLowerCase h query) v)) chats w
  = (Ok (filter (fun r => session_matches h query (typed r)) chats), w).
Proof.
  induction chats as [| r rest IH]; intros Htyped; simpl.
  - reflexivity.
  - assert (Hfirst :
      (v <- deref r ;; lift (chat_matches h (String_toLowerCase h query) v)) w
      = (Ok (session_matches h query (typed r)), w)).
    { unfold deref. rewrite bind_gets. fold (chat_at w r).
      rewrite (Htyped r (or_introl eq_refl)), chat_matches_typed. reflexivity. }
    rewrite (bind_run_ok _ _ _ _ _ Hfirst).
    rewrite (bind_run_ok _ _ _ _ _
               (IH (fun r' Hr' => Htyped r' (or_intror Hr')))).
    unfold ret. destruct (session_matches h query (typed r)); reflexivity.
Qed.

(** X22.  On an index of well-typed sessions [searchChats] returns and changes
    nothing, and what it returns are, in the order of the index, the
    chats whose workspace name or one of whose messages contains the
    query, letters compared without case: the lower-cased name or
    content, as the runtime lower-cases, contains the lower-cased
    query. *)
Theorem searchChats_selects (h : Host) (query : string) (w : World)
  (typed : ref -> ChatHistory) :
  (forall r, In r (map_values (cachedChats (service w))) ->
             chat_at w r = chat_value (typed r)) ->
  searchChats h query w
  = (Ok (filter (fun r => session_matches h query (typed r))
           (map_values (cachedChats (service w)))), w).
Proof.
  intros Htyped. unfold searchChats. rewrite bind_gets.
  apply filterM_typed. exact Htyped.
Qed.

(** Of the two sessions of the example the query "HI THERE" selects the
    first, whose second message is "hi there", and the query "zebra"
    selects none. *)
Lemma searchChats_selects_witness :
  searchChats scan_host "HI THERE" typed_world = (Ok [0%nat], typed_world)
  /\ searchChats scan_host "zebra" typed_world = (Ok [], typed_world).
Proof.
  split.
  - rewrite (searchChats_selects scan_host "HI THERE" typed_world typed_session).
    + vm_compute. reflexivity.
    + intros r [<- | [<- | []]]; reflexivity.
  - rewrite (searchChats_selects scan_host "zebra" typed_world typed_session).
    + vm_compute. reflexivity.
    + intros r [<- | [<- | []]]; reflexivity.
Defined.

(** ** The word cloud *)

Lemma counts_add_nodup (m : list (string * Z)) (word : string) (n : Z) :
  NoDup (map fst m) -> NoDup (map fst (counts_add m word n)).
Proof.
  induction m as [| [w0 c] m IH]; intros Hnodup; simpl.
  - constructor; [intros [] | constructor].
  - inversion Hnodup as [| ? ? Hnotin Hnodup']. subst.
    destruct (String.eqb w0 word) eqn:Heq; simpl.
    + constructor; assumption.
    + constructor; [ | apply IH; exact Hnodup' ].
      intros Hin. apply counts_add_fst in Hin.
      destruct Hin as [Hx | Hx]; [ | exact (Hnotin Hx) ].
      subst w0. rewrite String.eqb_refl in Heq. discriminate Heq.
Qed.

Lemma addTopics_nodup (topics wordCounts : list (string * Z)) :
  NoDup (map fst wordCounts) -> NoDup (map fst (addTopics wordCounts topics)).
Proof.
  unfold addTopics. revert wordCounts.
  induction topics as [| topic rest IH]; intros wordCounts Hnodup; simpl.
  - exact Hnodup.
  - apply IH. apply counts_add_nodup. exact Hnodup.
Qed.

Lemma cloudFiles_run (files : list string) :
  forall (wordCounts : list (string * Z)) (w : World),
    exists counted w',
      cloudFiles files wordCounts w = (Ok counted, w')
      /\ same_state w w'
      /\ (NoDup (map fst wordCounts) -> NoDup (map fst counted)).
Proof.
  induction files as [| filePath rest IH]; intros wordCounts w.
  - exists wordCounts, w. split; [reflexivity | ]. split; [repeat split | auto].
  - simpl.
    assert (Hfile : exists counted w1,
      try_catch
        (content <- readFile filePath ;;
         ret (addTopics wordCounts (extractTopicsWithCounts content 100)))
        (fun _ => ret wordCounts) w = (Ok counted, w1)
      /\ same_state w w1
      /\ (NoDup (map fst wordCounts) -> NoDup (map fst counted))).
    { unfold try_catch, readFile, log, bind, modify, gets, ret, throw. cbn.
      destruct (contents (disk w) filePath) as [content | ]; cbn;
        eexists _, _; (split; [reflexivity | ]); (split; [repeat split | ]).
      - apply addTopics_nodup.
      - auto. }
    destruct Hfile as [counted [w1 [Hrun [Hsame Hnodup]]]].
    destruct (IH counted w1) as [counted' [w' [Hrun' [Hsame' Hnodup']]]].
    exists counted', w'. split; [ | split ].
    + rewrite (bind_run_ok _ _ _ _ _ Hrun). exact Hrun'.
    + exact (pre_trans _ preorder_same_state _ _ _ Hsame Hsame').
    + auto.
Qed.

(** X23.  The word cloud never throws and changes neither the service nor the
    heap nor the disk; its words are distinct and come by descending
    count; a limit that is not negative bounds their number; and an empty
    selection of chats is no selection: the cloud is then that of all
    files. *)
Theorem getGlobalWordCloud_ranked (topCount : Z) (chatIds : option (list value))
  (w : World) :
  (exists cloud w',
     getGlobalWordCloud topCount chatIds w = (Ok cloud, w')
     /\ same_state w w'
     /\ NoDup (map fst cloud)
     /\ StronglySorted (desc snd) cloud
     /\ (0 <= topCount -> Z.of_nat (List.length cloud) <= topCount))
  /\ getGlobalWordCloud topCount (Some []) w = getGlobalWordCloud topCount None w.
Proof.
  split; [ | reflexivity ].
  assert (Hfiles : exists files, wordCloudFiles chatIds w = (Ok files, w)).
  { destruct chatIds as [[| id ids] | ]; eexists; reflexivity. }
  destruct Hfiles as [files Hfiles].
  destruct (cloudFiles_run files [] w) as [counted [w' [Hrun [Hsame Hnodup]]]].
  exists (slice0 topCount (sort_desc snd counted)), w'.
  split; [ | split; [exact Hsame | split; [ | split ] ] ].
  - unfold getGlobalWordCloud.
    rewrite (bind_run_ok _ _ _ _ _ Hfiles), (bind_run_ok _ _ _ _ _ Hrun).
    reflexivity.
  - destruct (slice0_firstn topCount (sort_desc snd counted)) as [k Hk].
    rewrite Hk, <- firstn_map. apply NoDup_firstn.
    apply (Permutation_NoDup
             (Permutation_sym (Permutation_map fst (sort_desc_perm snd counted)))).
    apply Hnodup. constructor.
  - destruct (slice0_firstn topCount (sort_desc snd counted)) as [k Hk].
    rewrite Hk. apply StronglySorted_firstn. apply sort_desc_sorted.
  - intros Hcount. unfold slice0.
    destruct (topCount <? 0) eqn:Hneg; [apply Z.ltb_lt in Hneg; lia | ].
    rewrite length_firstn. lia.
Qed.

Lemma getGlobalWordCloud_ranked_witness :
  exists cloud w',
    getGlobalWordCloud 2 None scanned_world = (Ok cloud, w')
    /\ Z.of_nat (List.length cloud) <= 2.
Proof.
  destruct (getGlobalWordCloud_ranked 2 None scanned_world)
    as [[cloud [w' [Hrun [_ [_ [_ Hbound]]]]]] _].
  exists cloud, w'. split; [exact Hrun | apply Hbound; lia].
Defined.

(** ** The storage path shown *)

(** X24.  Once a storage root has been settled on, [getStoragePathDisplay]
    shows it without asking the disk or the configuration again; on a
    service that has settled on none it settles on one. *)
Theorem getStoragePathDisplay_shows_the_root (h : Host) (w : World) :
  (_storagePath (service w) = "" ->
   getStoragePathDisplay h w = getCopilotChatStoragePath h w)
  /\ (storage_root h (disk w) <> "" ->
      getStoragePathDisplay h (snd (getCopilotChatStoragePath h w))
      = (Ok (storage_root h (disk w)), snd (getCopilotChatStoragePath h w))).
Proof.
  split.
  - intros Hempty. unfold getStoragePathDisplay. rewrite bind_gets, Hempty.
    reflexivity.
  - intros Hroot.
    destruct (getCopilotChatStoragePath_returns h w) as [p [w1 Hp]].
    assert (Hrec : _storagePath (service w1) = storage_root h (disk w)).
    { revert Hp.
      unfold getCopilotChatStoragePath, storage_root, existsSync, modify_service, log,
        bind, modify, gets, ret.
      destruct (String.eqb (config_storagePath h) ""); cbn.
      - intros H. inversion H. reflexivity.
      - destruct (exists_ (disk w) (config_storagePath h)); cbn;
          intros H; inversion H; reflexivity. }
    rewrite Hp. simpl snd.
    unfold getStoragePathDisplay. rewrite bind_gets, Hrec.
    apply String.eqb_neq in Hroot. rewrite Hroot. reflexivity.
Qed.

Lemma getStoragePathDisplay_shows_the_root_witness :
  getStoragePathDisplay scan_host (snd (getCopilotChatStoragePath scan_host scan_world))
  = (Ok (storage_root scan_host (disk scan_world)),
     snd (getCopilotChatStoragePath scan_host scan_world)).
Proof.
  destruct (getStoragePathDisplay_shows_the_root scan_host scan_world) as [_ Hshown].
  apply Hshown. vm_compute. discriminate.
Defined.

(** ** The exact count and the estimate *)

Lemma turnMessages_at_most_two h data request w ms w' :
  turnMessages h data request w = (Ok ms, w') ->
  exists user assistant,
    ms = user ++ assistant
    /\ (List.length user <= 1)%nat
    /\ (List.length assistant <= 1)%nat
    /\ Forall (fun m => get m "role" = Ok (VStr "user")) user
    /\ Forall (fun m => get m "role" = Ok (VStr "assistant")) assistant.
Proof.
  intros H. unfold turnMessages in H.
  step H.
  apply bind_ok in H. destruct H as [user [w1 [Huser H]]].
  step H.
  apply bind_ok in H. destruct H as [assistant [w2 [Hassistant H]]].
  apply ret_ok in H. destruct H as [Hms _]. subst ms.
  exists user, assistant. split; [reflexivity | ].
  assert (Hu : (List.length user <= 1)%nat
               /\ Forall (fun m => get m "role" = Ok (VStr "user")) user).
  { destruct (truthy (get_opt a "text")).
    - repeat step Huser; subst; (split; [simpl; lia | repeat constructor]).
    - apply ret_ok in Huser. destruct Huser as [-> _].
      split; [simpl; lia | constructor]. }
  assert (Ha : (List.length assistant <= 1)%nat
               /\ Forall (fun m => get m "role" = Ok (VStr "assistant")) assistant).
  { destruct (truthy a0).
    - repeat step Hassistant; subst; (split; [simpl; lia | repeat constructor]).
    - apply ret_ok in Hassistant. destruct Hassistant as [-> _].
      split; [simpl; lia | constructor]. }
  destruct Hu as [Hu1 Hu2]. destruct Ha as [Ha1 Ha2].
  repeat split; assumption.
Qed.

Lemma collectMessages_at_most_two_each h data turns :
  forall w ms w',
    collectMessages h data turns w = (Ok ms, w') ->
    (List.length ms <= 2 * List.length turns)%nat.
Proof.
  induction turns as [| request rest IH]; intros w ms w' H; simpl in H.
  - apply ret_ok in H. destruct H as [-> _]. simpl. lia.
  - apply bind_ok in H. destruct H as [turn [w1 [Hturn H]]].
    apply bind_ok in H. destruct H as [more [w2 [Hmore H]]].
    apply ret_ok in H. destruct H as [-> _].
    apply turnMessages_at_most_two in Hturn.
    destruct Hturn as [user [assistant [-> [Hu [Ha _]]]]].
    apply IH in Hmore. rewrite !length_app. simpl. lia.
Qed.

(** X25.  The exact count never exceeds the estimate: a full-content load
    that returns the chat has stored as its message count a number that is
    at most twice the number of turns of the file, which is what metadata
    extraction records for a document with that many turns. *)
Theorem full_count_within_estimate (h : Host) (chatId : value) (w w' : World)
  (r : ref) (p : string) :
  map_get (chatFilePaths (service w)) chatId = Some p ->
  p <> "" ->
  index_live w ->
  loadFullChat h chatId w = (Ok (Some r), w') ->
  exists text data requests turns n,
    contents (disk w) p = Some text
    /\ JSON_parse h text = Some data
    /\ get data "requests" = Ok requests
    /\ iterate (or requests (arr [])) = Ok turns
    /\ get (chat_at w' r) "messageCount" = Ok (VNum n)
    /\ 0 <= n <= Z.of_nat (List.length turns) * 2.
Proof.
  intros Hpath Hp Hlive Hrun.
  destruct (loadFullChat_overwrites h chatId w r w' p Hpath Hp Hlive Hrun)
    as [text [data [requests [turns [messages [w1 [w2
         [Htext [Hdata [Hreq [Hturns [Hcollect [_ [_ Hcount]]]]]]]]]]]]]].
  exists text, data, requests, turns, (Z.of_nat (List.length messages)).
  repeat (split; [assumption | ]).
  apply collectMessages_at_most_two_each in Hcollect. lia.
Qed.

Lemma full_count_within_estimate_witness :
  exists n,
    get (chat_at (snd (loadFullChat scan_host (VStr "s1") scanned_world)) 0%nat)
      "messageCount" = Ok (VNum n)
    /\ 0 <= n <= 4.
Proof.
  destruct (full_count_within_estimate scan_host (VStr "s1") scanned_world
              (snd (loadFullChat scan_host (VStr "s1") scanned_world)) 0%nat
              (sessions_dir +++ "/s1.json"))
    as [text [data [requests [turns [n [_ [Hdata [Hreq [Hturns [Hcount Hn]]]]]]]]]].
  - vm_compute. reflexivity.
  - intros Hp. vm_compute in Hp. discriminate Hp.
  - exact scanned_world_live.
  - vm_compute. reflexivity.
  - exists n. split; [exact Hcount | ].
    vm_compute in Hcount. inversion Hcount. subst n. lia.
Defined.

(** ** Files that give no summary *)

(** X26.  Metadata extraction on a file that gives no document (it cannot be
    read, or neither its first 16 KiB nor its whole text is JSON) returns
    no summary and counts one error; on a document without requests it
    returns no summary and counts no error.  Neither allocates a chat. *)
Theorem parseMetadataFast_without_summary (h : Host) (p ws : string) (sz : Z)
  (w : World) :
  (extracted_document h w p sz = None ->
   exists w',
     parseMetadataFast h p ws sz w = (Ok None, w')
     /\ errors (_scanStats (service w')) = errors (_scanStats (service w)) + 1
     /\ heap w' = heap w)
  /\ (forall data requests,
        extracted_document h w p sz = Some data ->
        get data "requests" = Ok requests ->
        truthy requests = false \/ get requests "length" = Ok (VNum 0) ->
        exists w',
          parseMetadataFast h p ws sz w = (Ok None, w')
          /\ errors (_scanStats (service w')) = errors (_scanStats (service w))
          /\ heap w' = heap w).
Proof.
  split.
  - unfold extracted_document, parseMetadataFast, try_catch, readPrefix, readFile,
      parse, bump_errors, modify_service, log, bind, modify, gets, ret, throw.
    cbn.
    destruct (contents (disk w) p) as [text | ] eqn:Hc; cbn.
    + destruct (JSON_parse h (fill_buffer _ text)) as [d | ]; [discriminate | ].
      cbn. rewrite Hc. cbn. intros Hnone. rewrite Hnone. cbn.
      eexists. repeat split.
    + intros _. eexists. repeat split.
  - intros data requests Hdoc Hreq Hempty.
    unfold extracted_document in Hdoc.
    unfold parseMetadataFast, try_catch, readPrefix, readFile,
      parse, bump_errors, modify_service, log, bind, modify, gets, ret, throw, lift.
    cbn.
    destruct (contents (disk w) p) as [text | ] eqn:Hc; [ | discriminate Hdoc ].
    cbn.
    destruct (JSON_parse h (fill_buffer _ text)) as [d | ] eqn:Hprefix; cbn.
    + inversion Hdoc. subst d. rewrite Hreq.
      destruct Hempty as [Hfalsy | Hzero].
      * rewrite Hfalsy. cbn. eexists. repeat split.
      * destruct (truthy requests); cbn; [ | eexists; repeat split ].
        rewrite Hzero. cbn. eexists. repeat split.
    + rewrite Hc. cbn. rewrite Hdoc. cbn. rewrite Hreq.
      destruct Hempty as [Hfalsy | Hzero].
      * rewrite Hfalsy. cbn. eexists. repeat split.
      * destruct (truthy requests); cbn; [ | eexists; repeat split ].
        rewrite Hzero. cbn. eexists. repeat split.
Qed.

Lemma parseMetadataFast_without_summary_witness :
  exists w',
    parseMetadataFast scan_host (sessions_dir +++ "/s0.json") "ws1" 37 idle_world
    = (Ok None, w')
    /\ errors (_scanStats (service w')) = errors (_scanStats (service idle_world)).
Proof.
  destruct (parseMetadataFast_without_summary scan_host
              (sessions_dir +++ "/s0.json") "ws1" 37 idle_world) as [_ Hempty].
  destruct (Hempty empty_doc (arr [])) as [w' [Hrun [Herrors _]]];
    [ vm_compute; reflexivity | reflexivity | right; reflexivity | ].
  exists w'. split; [exact Hrun | exact Herrors].
Defined.

(** ** A storage root without workspaces *)

(** X27.  A scan pass over a storage root that exists and holds no workspace
    directory returns the empty list and, unlike a pass that finds no
    root, empties the index; it records the time, resets the counters and
    saves the staleness cache, which it leaves as it is, like the
    identity-to-path table. *)
Theorem scan_of_empty_root (h : Host) (forceRefresh : bool) (w : World) :
  runs_pass h forceRefresh w = true ->
  exists_ (disk w) (storage_root h (disk w)) = true ->
  readdir (disk w) (storage_root h (disk w)) = Some [] ->
  exists w',
    scanAllChatHistories h forceRefresh w = (Ok [], w')
    /\ cachedChats (service w') = []
    /\ chatFilePaths (service w') = chatFilePaths (service w)
    /\ fileMetaCache (service w') = fileMetaCache (service w)
    /\ _scanStats (service w') = zero_stats
    /\ _lastScanTime (service w') = Date_now h (S (S (ticks w)))
    /\ _scanInProgress (service w') = false
    /\ globalState w' = Some (map_values (fileMetaCache (service w)))
    /\ disk w' = disk w.
Proof.
  unfold runs_pass, storage_root. intros Hpass Hroot Hdir.
  apply andb_prop in Hpass. destruct Hpass as [Hidle Hstale].
  apply negb_true_iff in Hidle. apply negb_true_iff in Hstale.
  unfold scanAllChatHistories.
  rewrite bind_gets, Hidle.
  unfold bind at 1. unfold Date_now_ at 1. rewrite !bind_gets.
  cbn [disk service with_ticks ticks].
  rewrite Hstale.
  unfold getCopilotChatStoragePath, scanPass, scanAttempt, try_finally, try_catch,
    existsSync,
    readdirSync, saveIndexToStorage, set_chatsFound, modify_service, Date_now_, log,
    bind, modify, gets, ret.
  cbn.
  destruct (String.eqb (config_storagePath h) "") eqn:Hcustom; cbn in Hroot, Hdir |- *.
  - rewrite Hroot. cbn. rewrite Hdir. cbn. eexists. repeat split.
  - destruct (exists_ (disk w) (config_storagePath h)) eqn:Hex; cbn in Hroot, Hdir |- *.
    + rewrite Hex. cbn. rewrite Hdir. cbn. eexists. repeat split.
    + rewrite Hroot. cbn. rewrite Hdir. cbn. eexists. repeat split.
Qed.

Lemma scan_of_empty_root_witness :
  exists w',
    scanAllChatHistories scan_host true empty_root_world = (Ok [], w')
    /\ cachedChats (service w') = [].
Proof.
  destruct (scan_of_empty_root scan_host true empty_root_world)
    as [w' [Hrun [Hindex _]]];
    [ vm_compute; reflexivity | vm_compute; reflexivity
    | vm_compute; reflexivity | ].
  exists w'. split; [exact Hrun | exact Hindex].
Defined.

(** ** The messages of a turn *)

Lemma get_of_get_opt (v : value) (k : string) :
  truthy (get_opt v k) = true -> get v k = Ok (get_opt v k).
Proof.
  destruct v; simpl; try discriminate; try reflexivity.
  - destruct (String.eqb k "length"); reflexivity.
  - destruct (String.eqb k "length"); reflexivity.
Qed.

(** X28.  Every message a turn contributes has content: a user message is
    made only of a text that is not empty, an assistant message only of
    a response text that is not empty; and when a turn contributes both,
    the user message comes first. *)
Theorem turn_messages_have_content (h : Host) (data request : value)
  (w w' : World) (ms : list value) :
  turnMessages h data request w = (Ok ms, w') ->
  (forall m, In m ms -> exists content,
               get m "content" = Ok content /\ truthy content = true)
  /\ exists user assistant,
       ms = user ++ assistant
       /\ (List.length user <= 1)%nat
       /\ (List.length assistant <= 1)%nat
       /\ Forall (fun m => get m "role" = Ok (VStr "user")) user
       /\ Forall (fun m => get m "role" = Ok (VStr "assistant")) assistant.
Proof.
  intros H. split; [ | exact (turnMessages_at_most_two h data request w ms w' H) ].
  unfold turnMessages in H.
  step H.
  apply bind_ok in H. destruct H as [user [w1 [Huser H]]].
  step H.
  apply bind_ok in H. destruct H as [assistant [w2 [Hassistant H]]].
  apply ret_ok in H. destruct H as [Hms _]. subst ms.
  assert (Hu : forall m, In m user -> exists content,
                 get m "content" = Ok content /\ truthy content = true).
  { destruct (truthy (get_opt a "text")) eqn:Htext.
    - step Huser. step Huser.
      match goal with
      | Hm : get request "message" = Ok a,
        Hc : rbind (get request "message") _ = Ok ?c |- _ =>
          assert (Hcontent : c = get_opt a "text");
          [ rewrite Hm in Hc; simpl in Hc;
            rewrite (get_of_get_opt a "text" Htext) in Hc;
            inversion Hc; reflexivity | ]
      end.
      repeat step Huser; subst;
        (intros m [<- | []]; eexists; split; [reflexivity | exact Htext]).
    - apply ret_ok in Huser. destruct Huser as [-> _]. intros m []. }
  assert (Ha : forall m, In m assistant -> exists content,
                 get m "content" = Ok content /\ truthy content = true).
  { destruct (truthy a0) eqn:Hresponse.
    - repeat step Hassistant; subst;
        (intros m [<- | []]; eexists; split; [reflexivity | exact Hresponse]).
    - apply ret_ok in Hassistant. destruct Hassistant as [-> _]. intros m []. }
  intros m Hin. apply in_app_or in Hin. destruct Hin as [Hin | Hin]; auto.
Qed.

Lemma turn_messages_have_content_witness :
  exists user assistant,
    or_else
      (fst (turnMessages scan_host session_doc
              (VObj [ ("message", VObj [("text", VStr "hello docker")]);
                      ("response", VObj [("value", VStr "use docker compose")]) ])
              scan_world)) []
    = user ++ assistant
    /\ Forall (fun m => get m "role" = Ok (VStr "user")) user
    /\ Forall (fun m => get m "role" = Ok (VStr "assistant")) assistant.
Proof.
  destruct (turn_messages_have_content scan_host session_doc
              (VObj [ ("message", VObj [("text", VStr "hello docker")]);
                      ("response", VObj [("value", VStr "use docker compose")]) ])
              scan_world
              (snd (turnMessages scan_host session_doc
                      (VObj [ ("message", VObj [("text", VStr "hello docker")]);
                              ("response", VObj [("value", VStr "use docker compose")]) ])
                      scan_world))
              (or_else
                 (fst (turnMessages scan_host session_doc
                         (VObj [ ("message", VObj [("text", VStr "hello docker")]);
                                 ("response",
                                   VObj [("value", VStr "use docker compose")]) ])
                         scan_world)) []))
    as [_ [user [assistant [Hms [_ [_ [Hu Ha]]]]]]]; [ vm_compute; reflexivity | ].
  exists user, assistant. split; [exact Hms | split; [exact Hu | exact Ha]].
Defined.

(** ** Export in the format of VS Code *)

(** X29.  The export of a single chat whose original file exists and can be
    read is a copy of that file: the output holds the text of the
    original, no other file changes, and nothing is converted (the clock
    is not read, no identifier is drawn, the service and the heap are as
    before). *)
Theorem exportChats_vscode_copies_the_file (h : Host) (chat id : value)
  (p text outputPath : string) (w : World) :
  get chat "id" = Ok id ->
  map_get (chatFilePaths (service w)) id = Some p ->
  p <> "" ->
  exists_ (disk w) p = true ->
  contents (disk w) p = Some text ->
  writable (disk w) outputPath = true ->
  exists w',
    exportChats_vscode h [chat] outputPath w = (Ok tt, w')
    /\ contents (disk w') outputPath = Some text
    /\ (forall q, q <> outputPath -> contents (disk w') q = contents (disk w) q)
    /\ trace w' = trace w ++ [ExistsSync p; ReadFile p; WriteFile outputPath]
    /\ service w' = service w
    /\ heap w' = heap w
    /\ ticks w' = ticks w
    /\ draws w' = draws w.
Proof.
  intros Hid Hpath Hp Hex Htext Hwritable.
  apply String.eqb_neq in Hp.
  unfold exportChats_vscode, copyFile, existsSync, readFile, writeFile, log,
    bind, lift, modify, gets, ret.
  rewrite Hid. cbn. rewrite Hpath, Hp. cbn. rewrite Hex. cbn. rewrite Htext. cbn.
  rewrite Hwritable. cbn.
  eexists. split; [reflexivity | ]. cbn.
  split; [rewrite String.eqb_refl; reflexivity | ].
  split.
  - intros q Hq. apply String.eqb_neq in Hq. rewrite Hq. reflexivity.
  - rewrite <- !app_assoc. repeat split.
Qed.

Lemma exportChats_vscode_copies_the_file_witness :
  exists w',
    exportChats_vscode scan_host [chat_at scanned_world 0%nat] "/tmp/out.json"
      scanned_world = (Ok tt, w')
    /\ contents (disk w') "/tmp/out.json" = Some (Example.print session_doc).
Proof.
  destruct (exportChats_vscode_copies_the_file scan_host
              (chat_at scanned_world 0%nat) (VStr "s1")
              (sessions_dir +++ "/s1.json") (Example.print session_doc)
              "/tmp/out.json" scanned_world)
    as [w' [Hrun [Hout _]]].
  - vm_compute. reflexivity.
  - vm_compute. reflexivity.
  - intros Hp. vm_compute in Hp. discriminate Hp.
  - vm_compute. reflexivity.
  - vm_compute. reflexivity.
  - reflexivity.
  - exists w'. split; [exact Hrun | exact Hout].
Defined.

(** X30.  The export of a chat that has no original file converts the chat,
    and the conversion of a chat whose creation date is no valid date
    throws: the file system is not called and nothing is written. *)
Theorem exportChats_vscode_invalid_date (h : Host) (fields : list (string * value))
  (outputPath : string) (w : World) :
  map_get (chatFilePaths (service w)) (lookup fields "id") = None ->
  lookup fields "createdAt" = VDate None ->
  exists e w',
    exportChats_vscode h [VObj fields] outputPath w = (Throw e, w')
    /\ disk w' = disk w
    /\ trace w' = trace w
    /\ service w' = service w.
Proof.
  intros Hpath Hdate.
  unfold exportChats_vscode, convertToVSCodeFormat, exportChat, Date_now_,
    time_clip, bind, lift, gets, ret.
  cbn. rewrite Hpath. cbn.
  destruct (Z.abs (Date_now h (ticks w)) <=? 8640000000000000); cbn.
  - rewrite Hdate. cbn. eexists _, _. repeat split.
  - eexists _, _. repeat split.
Qed.

Lemma exportChats_vscode_invalid_date_witness :
  exists e w',
    exportChats_vscode scan_host [undated_chat] "/tmp/out.json" scan_world
    = (Throw e, w')
    /\ disk w' = disk scan_world.
Proof.
  destruct (exportChats_vscode_invalid_date scan_host (fields_of undated_chat)
              "/tmp/out.json" scan_world) as [e [w' [Hrun [Hdisk _]]]];
    [ reflexivity | reflexivity | ].
  exists e, w'. split; [exact Hrun | exact Hdisk].
Defined.
